(** * ZenLedger: the local ledger store and the statistics aggregation

    A shallow embedding of the storage service (entry and category CRUD,
    backup export and import) and of the statistics view of the single-file
    application in [src/AddEntryPage.tsx], with the properties its
    specification states about them. *)

From Stdlib Require Import ZArith String Ascii List Lia Decimal DecimalString DecimalPos DecimalZ.
From Stdlib Require Import PrimFloat.
From Stdlib Require SpecFloat FloatOps FloatAxioms.
From stdpp Require Import base option list gmap strings sorting.

Local Open Scope string_scope.
Local Open Scope Z_scope.

(** Decimal amounts are written as such; each stands for the double nearest
    to it. *)
Set Warnings "-inexact-float".

(** ** 1. JavaScript values that flow through the store *)

(** What [JSON.parse] can return.  The storage service never computes with
    the numbers of the stored text, it carries them: a [number] of the text
    is the integer of its literal.  (The statistics, which do compute, take
    their amounts as doubles, see section 5.)  An object is the list of its
    own properties in property order. *)
#[warnings="-register-all"]
Inductive json : Type :=
| JNull
| JBool (b : bool)
| JNum (n : Z)
| JStr (s : string)
| JArr (items : list json)
| JObj (props : list (string * json)).

(** The result of a property read: a JSON value, a built-in method of a
    prototype, or [undefined]. *)
Inductive jsval : Type :=
| JSUndefined
| JSFunction
| JSValue (v : json).

(** Normal completion or a thrown exception. *)
Inductive outcome (A : Type) : Type :=
| Return (a : A)
| Throws.
Arguments Return {A} a.
Arguments Throws {A}.

(** Own-property lookup; when a key is repeated the last binding is the
    one the object holds. *)
Fixpoint own_prop (k : string) (props : list (string * json)) : option json :=
  match props with
  | [] => None
  | (k', v) :: rest =>
      match own_prop k rest with
      | Some w => Some w
      | None => if String.eqb k k' then Some v else None
      end
  end.

(** [v.k] for the keys the store reads ([id], [entries], [categories]):
    reading a property of [null] is a TypeError, an object answers with its
    own property, an array answers [entries] with the built-in iterator
    method, and every other read is [undefined]. *)
Definition get_prop (v : json) (k : string) : outcome jsval :=
  match v with
  | JNull => Throws
  | JObj props =>
      Return (match own_prop k props with
              | Some x => JSValue x
              | None => JSUndefined
              end)
  | JArr _ => Return (if String.eqb k "entries" then JSFunction else JSUndefined)
  | JBool _ | JNum _ | JStr _ => Return JSUndefined
  end.

(** Truthiness of a JSON value, as [!data] tests it. *)
Definition truthy (v : json) : bool :=
  match v with
  | JNull => false
  | JBool b => b
  | JNum n => negb (n =? 0)
  | JStr s => negb (String.eqb s "")
  | JArr _ | JObj _ => true
  end.

(** Truthiness of what [localStorage.getItem] returns ([string | null]). *)
Definition truthy_item (data : option string) : bool :=
  match data with
  | Some s => negb (String.eqb s "")
  | None => false
  end.

Definition Array_isArray (x : jsval) : bool :=
  match x with
  | JSValue (JArr _) => true
  | _ => false
  end.

(** [x === s] for a string [s]. *)
Definition strict_eq_string (x : jsval) (s : string) : bool :=
  match x with
  | JSValue (JStr t) => String.eqb t s
  | _ => false
  end.

(** ** 2. The platform: JSON text, coercions and [localStorage] *)

(** What the store uses of the JavaScript runtime: [JSON.parse] ([None] is
    a SyntaxError), [JSON.stringify value, null, space] ([space = 0] is the
    call without a [space] argument), and the two coercions that reach
    strings and objects when a value is compared with a number. *)
Class Runtime := {
  JSON_parse : string -> option json;
  JSON_stringify : nat -> json -> string;
  StringToNumber : string -> option Z;
  ObjectToString : json -> string
}.

(** Serialised values read back as themselves, and the empty text is not
    JSON. *)
Class JSONLaws (J : Runtime) : Prop := {
  parse_stringify : forall space v, JSON_parse (JSON_stringify space v) = Some v;
  parse_empty : JSON_parse "" = None
}.

(** When the host's storage refuses an access: [getItem] may throw for a key
    (storage unreadable), [setItem] may throw for a write given the current
    contents (quota exceeded). *)
Class WebStorage := {
  getItem_throws : string -> bool;
  setItem_throws : gmap string string -> string -> string -> bool
}.

(** What the store does to the outside besides writing storage. *)
Inductive effect : Type :=
| DispatchEvent (name : string)
| Alert (message : string)
| ConsoleError (message : string).

Record World : Type := mkWorld {
  storage : gmap string string;
  clock : string;
  trace : list effect
}.

Definition with_storage (w : World) (m : gmap string string) : World :=
  {| storage := m; clock := clock w; trace := trace w |}.

Definition with_effect (w : World) (e : effect) : World :=
  {| storage := storage w; clock := clock w; trace := trace w ++ [e] |}.

(** Computations over the world that may throw. *)
Definition M (A : Type) : Type := World -> outcome A * World.

Definition ret {A} (a : A) : M A := fun w => (Return a, w).
Definition throw {A} : M A := fun w => (Throws, w).
Definition bind {A B} (m : M A) (k : A -> M B) : M B :=
  fun w =>
    match m w with
    | (Return a, w') => k a w'
    | (Throws, w') => (Throws, w')
    end.
Definition try_catch {A} (body handler : M A) : M A :=
  fun w =>
    match body w with
    | (Return a, w') => (Return a, w')
    | (Throws, w') => handler w'
    end.
Definition lift {A} (o : outcome A) : M A := fun w => (o, w).
Definition perform (e : effect) : M unit := fun w => (Return tt, with_effect w e).

Notation "'let!' x ':=' c1 'in' c2" := (bind c1 (fun x => c2))
  (at level 10, x name, c1 at level 100, c2 at level 200).
Notation "c1 ;; c2" := (bind c1 (fun _ => c2))
  (at level 100, c2 at level 200, right associativity).

(** ** 3. Constants and record types *)

Definition APP_NAME : string := "ZenLedger".
Definition STORAGE_KEY : string := "zenledger_data".
Definition CATEGORY_STORAGE_KEY : string := "zenledger_categories".

Definition COLORS : list string :=
  [ "#6366f1"; "#ec4899"; "#10b981"; "#f59e0b"; "#3b82f6";
    "#8b5cf6"; "#ef4444"; "#64748b"; "#14b8a6"; "#f97316" ].

Inductive EntryType : Type := expense | income | note.

Inductive MediaKind : Type := image | audio | drawing.

Record MediaAttachment : Type := mkMedia {
  m_id : string;
  m_type : MediaKind;
  m_data : string
}.

(** An entry, over the type of its [amount]: [Entry] is the entry of the
    stored text, [EntryOf float] the entry the pages compute with. *)
Record EntryOf (number : Type) : Type := mkEntry {
  e_id : string;
  e_type : EntryType;
  e_amount : number;
  e_category : string;
  e_tags : list string;
  e_content : string;
  e_date : string;
  e_media : list MediaAttachment
}.

Arguments mkEntry {number}.
Arguments e_id {number}.
Arguments e_type {number}.
Arguments e_amount {number}.
Arguments e_category {number}.
Arguments e_tags {number}.
Arguments e_content {number}.
Arguments e_date {number}.
Arguments e_media {number}.

Abbreviation Entry := (EntryOf Z).

Record Category : Type := mkCategory {
  c_id : string;
  c_name : string;
  c_type : EntryType;
  c_color : string
}.

Definition EntryType_eqb (a b : EntryType) : bool :=
  match a, b with
  | expense, expense | income, income | note, note => true
  | _, _ => false
  end.

Definition EntryType_text (t : EntryType) : string :=
  match t with
  | expense => "expense"
  | income => "income"
  | note => "note"
  end.

Definition MediaKind_text (k : MediaKind) : string :=
  match k with
  | image => "image"
  | audio => "audio"
  | drawing => "drawing"
  end.

(** The object a typed record is at run time. *)
Definition media_to_json (m : MediaAttachment) : json :=
  JObj [ ("id", JStr (m_id m)); ("type", JStr (MediaKind_text (m_type m)));
         ("data", JStr (m_data m)) ].

Definition entry_to_json (e : Entry) : json :=
  JObj [ ("id", JStr (e_id e));
         ("type", JStr (EntryType_text (e_type e)));
         ("amount", JNum (e_amount e));
         ("category", JStr (e_category e));
         ("tags", JArr (map JStr (e_tags e)));
         ("content", JStr (e_content e));
         ("date", JStr (e_date e));
         ("media", JArr (map media_to_json (e_media e))) ].

Definition category_to_json (c : Category) : json :=
  JObj [ ("id", JStr (c_id c)); ("name", JStr (c_name c));
         ("type", JStr (EntryType_text (c_type c)));
         ("color", JStr (c_color c)) ].

Definition color_at (i : nat) : string := nth i COLORS "".

Definition DEFAULT_EXPENSE_CATEGORIES : list Category :=
  [ mkCategory "1" "餐饮" expense (color_at 0);
    mkCategory "2" "交通" expense (color_at 1);
    mkCategory "3" "居住" expense (color_at 2);
    mkCategory "4" "水电" expense (color_at 3);
    mkCategory "5" "娱乐" expense (color_at 4);
    mkCategory "6" "医疗" expense (color_at 5);
    mkCategory "7" "购物" expense (color_at 6);
    mkCategory "8" "其他" expense (color_at 7) ].

Definition default_categories_value : json :=
  JArr (map category_to_json DEFAULT_EXPENSE_CATEGORIES).

(** ** 4. The storage service *)

Section StorageService.
Context {J : Runtime} {LS : WebStorage}.

(** [localStorage.getItem] and [localStorage.setItem]. *)
Definition getItem (key : string) : M (option string) :=
  fun w =>
    if getItem_throws key then (Throws, w)
    else (Return (storage w !! key), w).

Definition setItem (key value : string) : M unit :=
  fun w =>
    if setItem_throws (storage w) key value then (Throws, w)
    else (Return tt, with_storage w (<[key := value]> (storage w))).

Definition JSON_parse_or_throw (text : string) : M json :=
  lift (match JSON_parse text with
        | Some v => Return v
        | None => Throws
        end).

(** [JSON.stringify x] followed by the string coercion [setItem] applies:
    [undefined] and functions serialise to [undefined]. *)
Definition stringify_val (x : jsval) : string :=
  match x with
  | JSValue v => JSON_stringify 0 v
  | JSUndefined | JSFunction => "undefined"
  end.

Definition dispatchEvent (name : string) : M unit := perform (DispatchEvent name).
Definition alert (message : string) : M unit := perform (Alert message).
Definition console_error (message : string) : M unit := perform (ConsoleError message).

(** [v.id] of an array element, lifted into the monad. *)
Definition id_of (v : json) : outcome jsval := get_prop v "id".

(** [items.findIndex(pred)]: index of the first element the callback
    accepts, [-1] when there is none; a throwing callback aborts the
    search. *)
Fixpoint findIndex_from (pred : json -> outcome bool) (items : list json)
    (i : Z) : outcome Z :=
  match items with
  | [] => Return (-1)
  | x :: rest =>
      match pred x with
      | Throws => Throws
      | Return true => Return i
      | Return false => findIndex_from pred rest (i + 1)
      end
  end.

(** [value.findIndex(pred)] on whatever [getEntries] returned: only arrays
    have the method. *)
Definition findIndex (value : json) (pred : json -> outcome bool) : outcome Z :=
  match value with
  | JArr items => findIndex_from pred items 0
  | _ => Throws
  end.

Definition has_id (id : string) (v : json) : outcome bool :=
  match id_of v with
  | Return x => Return (strict_eq_string x id)
  | Throws => Throws
  end.

(** [value.filter(pred)] on an array. *)
Fixpoint filter_items (pred : json -> outcome bool) (items : list json)
    : outcome (list json) :=
  match items with
  | [] => Return []
  | x :: rest =>
      match pred x with
      | Throws => Throws
      | Return keep =>
          match filter_items pred rest with
          | Throws => Throws
          | Return rest' => Return (if keep then x :: rest' else rest')
          end
      end
  end.

Definition array_filter (value : json) (pred : json -> outcome bool) : outcome json :=
  match value with
  | JArr items =>
      match filter_items pred items with
      | Return items' => Return (JArr items')
      | Throws => Throws
      end
  | _ => Throws
  end.

(** [value[i] = x] with an index [findIndex] returned for the same value,
    which is therefore an array. *)
Definition array_set (value : json) (i : Z) (x : json) : json :=
  match value with
  | JArr items => JArr (<[Z.to_nat i := x]> items)
  | other => other
  end.

(** [value.splice(i, 1)]: only arrays have the method. *)
Definition array_splice1 (value : json) (i : Z) : outcome json :=
  match value with
  | JArr items => Return (JArr (delete (Z.to_nat i) items))
  | _ => Throws
  end.

(** [[x, ...value]]: an array spreads its elements, a string its
    characters, and nothing else is iterable. *)
Definition array_cons (x : json) (value : json) : outcome json :=
  match value with
  | JArr items => Return (JArr (x :: items))
  | JStr s =>
      Return (JArr (x :: map (fun c => JStr (String c EmptyString))
                             (list_ascii_of_string s)))
  | JNull | JBool _ | JNum _ | JObj _ => Throws
  end.

(** [ToNumber] on a JSON value ([None] is NaN). *)
Definition ToNumber (v : json) : option Z :=
  match v with
  | JNull => Some 0
  | JBool b => Some (if b then 1 else 0)
  | JNum n => Some n
  | JStr s => StringToNumber s
  | JArr _ | JObj _ => StringToNumber (ObjectToString v)
  end.

(** The [length] of a string counts UTF-16 code units; a string is carried
    here by its UTF-8 bytes.  A byte that opens a character of up to three
    bytes counts one unit, one that opens a character of four bytes two (a
    surrogate pair), a continuation byte none. *)
Definition utf16_units (c : ascii) : nat :=
  let n := nat_of_ascii c in
  if (n <? 128)%nat then 1%nat
  else if (n <? 192)%nat then 0%nat
  else if (n <? 240)%nat then 1%nat
  else 2%nat.

Fixpoint utf16_length (s : string) : nat :=
  match s with
  | EmptyString => 0%nat
  | String c rest => (utf16_units c + utf16_length rest)%nat
  end.

(** [value.length <= 1]. *)
Definition length_le_1 (value : json) : outcome bool :=
  match value with
  | JNull => Throws
  | JArr items => Return (Z.of_nat (length items) <=? 1)
  | JStr s => Return (Z.of_nat (utf16_length s) <=? 1)
  | JBool _ | JNum _ => Return false
  | JObj props =>
      Return (match own_prop "length" props with
              | Some v => match ToNumber v with
                          | Some n => n <=? 1
                          | None => false
                          end
              | None => false
              end)
  end.

Definition getEntries : M json :=
  try_catch
    (let! data := getItem STORAGE_KEY in
     if truthy_item data then JSON_parse_or_throw (default "" data)
     else ret (JArr []))
    (console_error "Failed to load entries" ;;
     ret (JArr [])).

Definition saveEntry (entry : Entry) : M unit :=
  try_catch
    (let! entries := getEntries in
     let! existingIndex := lift (findIndex entries (has_id (e_id entry))) in
     let! newEntries :=
       lift (if existingIndex >? -1
             then Return (array_set entries existingIndex (entry_to_json entry))
             else array_cons (entry_to_json entry) entries) in
     setItem STORAGE_KEY (JSON_stringify 0 newEntries) ;;
     dispatchEvent "zenledger-update")
    (alert "Failed to save entry. Storage might be full.").

Definition updateEntry (updatedEntry : Entry) : M unit :=
  try_catch
    (let! entries := getEntries in
     let! index := lift (findIndex entries (has_id (e_id updatedEntry))) in
     if negb (index =? -1)
     then
       setItem STORAGE_KEY
         (JSON_stringify 0 (array_set entries index (entry_to_json updatedEntry))) ;;
       dispatchEvent "zenledger-update"
     else ret tt)
    (alert "保存失败").

Definition deleteEntry (id : string) : M unit :=
  if String.eqb id "" then ret tt
  else
    let! entries := getEntries in
    let! index := lift (findIndex entries (has_id id)) in
    if negb (index =? -1)
    then
      let! spliced := lift (array_splice1 entries index) in
      setItem STORAGE_KEY (JSON_stringify 0 spliced) ;;
      dispatchEvent "zenledger-update"
    else ret tt.

Definition getCategories : M json :=
  try_catch
    (let! data := getItem CATEGORY_STORAGE_KEY in
     if truthy_item data then JSON_parse_or_throw (default "" data)
     else
       setItem CATEGORY_STORAGE_KEY (JSON_stringify 0 default_categories_value) ;;
       ret default_categories_value)
    (ret default_categories_value).

Definition lacks_id (id : string) (v : json) : outcome bool :=
  match id_of v with
  | Return x => Return (negb (strict_eq_string x id))
  | Throws => Throws
  end.

Definition deleteCategory (id : string) : M unit :=
  let! categories := getCategories in
  let! few := lift (length_le_1 categories) in
  if few then ret tt
  else
    let! newCategories := lift (array_filter categories (lacks_id id)) in
    setItem CATEGORY_STORAGE_KEY (JSON_stringify 0 newCategories) ;;
    dispatchEvent "zenledger-categories-update".

Definition exportData : M string :=
  let! entries := getEntries in
  let! categories := getCategories in
  let! exportedAt := (fun w => (Return (clock w), w)) in
  let data :=
    JObj [ ("entries", entries); ("categories", categories);
           ("exportedAt", JStr exportedAt); ("appName", JStr "ZenLedger");
           ("version", JNum 1) ] in
  ret (JSON_stringify 2 data).

(** The guard of [importData]:
    [!data || !Array.isArray(data.entries) || !Array.isArray(data.categories)],
    evaluated left to right with short-circuiting. *)
Definition invalid_backup (data : json) : outcome bool :=
  if negb (truthy data) then Return true
  else
    match get_prop data "entries" with
    | Throws => Throws
    | Return es =>
        if negb (Array_isArray es) then Return true
        else
          match get_prop data "categories" with
          | Throws => Throws
          | Return cs => Return (negb (Array_isArray cs))
          end
    end.

Definition importData (jsonString : string) : M bool :=
  try_catch
    (let! data := JSON_parse_or_throw jsonString in
     let! bad := lift (invalid_backup data) in
     if bad
     then
       console_error "Invalid backup file format" ;;
       ret false
     else
       let! es := lift (get_prop data "entries") in
       setItem STORAGE_KEY (stringify_val es) ;;
       let! cs := lift (get_prop data "categories") in
       setItem CATEGORY_STORAGE_KEY (stringify_val cs) ;;
       dispatchEvent "zenledger-update" ;;
       dispatchEvent "zenledger-categories-update" ;;
       ret true)
    (ret false).

End StorageService.

(** ** 5. The statistics view *)

(** A [Date] as the view uses it: its local-calendar fields ([month] counts
    from 0, as [getMonth] does), or an invalid date. *)
Inductive JSDate : Type :=
| InvalidDate
| LocalDate (year month day : Z).

(** [parseISO] of date-fns. *)
Class DateFns := {
  parseISO : string -> JSDate
}.

(** [getFullYear] and [getMonth]; [None] is NaN. *)
Definition getFullYear (d : JSDate) : option Z :=
  match d with
  | InvalidDate => None
  | LocalDate y _ _ => Some y
  end.

Definition getMonth (d : JSDate) : option Z :=
  match d with
  | InvalidDate => None
  | LocalDate _ m _ => Some m
  end.

(** [a === b] on numbers: NaN equals nothing. *)
Definition strict_eq_number (a b : option Z) : bool :=
  match a, b with
  | Some x, Some y => x =? y
  | _, _ => false
  end.

(** [isSameMonth] of date-fns: same local year and same local month. *)
Definition isSameMonth (laterDate earlierDate : JSDate) : bool :=
  strict_eq_number (getFullYear laterDate) (getFullYear earlierDate)
  && strict_eq_number (getMonth laterDate) (getMonth earlierDate).

(** The tab of the statistics page. *)
Inductive StatsTab : Type := tab_expense | tab_income.

Definition tab_type (t : StatsTab) : EntryType :=
  match t with
  | tab_expense => expense
  | tab_income => income
  end.

(** The statistics compute with JavaScript numbers, the IEEE-754 doubles:
    [float] with its primitive operations. *)
Record StatGroup : Type := mkStatGroup {
  sg_name : string;
  sg_value : float;
  sg_color : string
}.

(** A [Map] from category to number: its entries in insertion order. *)
Fixpoint Map_get {V} (k : string) (m : list (string * V)) : option V :=
  match m with
  | [] => None
  | (k', v) :: rest => if String.eqb k k' then Some v else Map_get k rest
  end.

Fixpoint Map_set {V} (k : string) (v : V) (m : list (string * V)) : list (string * V) :=
  match m with
  | [] => [(k, v)]
  | (k', v') :: rest =>
      if String.eqb k k' then (k', v) :: rest else (k', v') :: Map_set k v rest
  end.

(** A number that is falsy: [0], [-0] and NaN. *)
Definition falsy_number (v : float) : bool := (v =? 0)%float || is_nan v.

(** [x || 0] on what [Map.get] returns: [undefined] and the falsy numbers
    give [0]. *)
Definition or_zero (x : option float) : float :=
  match x with
  | Some v => if falsy_number v then 0%float else v
  | None => 0%float
  end.

(** What [Array.prototype.sort] makes of the number a comparator returns:
    its sign, NaN counting as 0. *)
Definition sort_sign (v : float) : Z :=
  if (0 <? v)%float then 1 else if (v <? 0)%float then -1 else 0.

(** [Array.prototype.sort] with a comparator: a stable sort; [x] goes before
    [y] unless the comparator is positive on [(x, y)]. *)
Fixpoint sort_insert {A} (cmp : A -> A -> Z) (x : A) (sorted : list A) : list A :=
  match sorted with
  | [] => [x]
  | y :: rest =>
      if cmp x y <=? 0 then x :: y :: rest else y :: sort_insert cmp x rest
  end.

Definition Array_sort {A} (cmp : A -> A -> Z) (items : list A) : list A :=
  foldr (sort_insert cmp) [] items.

Section StatsPage.
Context {D : DateFns}.

Definition filteredEntries {number} (entries : list (EntryOf number))
    (currentMonth : JSDate) (activeTab : StatsTab) : list (EntryOf number) :=
  List.filter
    (fun e =>
       let entryDate := parseISO (e_date e) in
       let matchesMonth := isSameMonth entryDate currentMonth in
       let matchesType := EntryType_eqb (e_type e) (tab_type activeTab) in
       matchesMonth && matchesType)
    entries.

Definition totalAmount (filtered : list (EntryOf float)) : float :=
  fold_left (fun sum e => (sum + e_amount e)%float) filtered 0%float.

Definition group_step (map : list (string * float)) (e : EntryOf float)
    : list (string * float) :=
  Map_set (e_category e)
    (or_zero (Map_get (e_category e) map) + e_amount e)%float map.

Definition dataByCategory (filtered : list (EntryOf float)) : list StatGroup :=
  let map := fold_left group_step filtered [] in
  Array_sort
    (fun a b => sort_sign (sg_value b - sg_value a)%float)
    (imap
       (fun index '(name, value) =>
          {| sg_name := name;
             sg_value := value;
             sg_color := nth (index mod length COLORS)%nat COLORS "" |})
       map).

End StatsPage.

(** The categories in the order they first occur. *)
Fixpoint first_seen (cs : list string) : list string :=
  match cs with
  | [] => []
  | c :: rest => c :: List.filter (fun x => negb (String.eqb x c)) (first_seen rest)
  end.

(** The amounts of the entries of one category, in the order of the
    entries. *)
Definition amounts_of (c : string) (es : list (EntryOf float)) : list float :=
  map e_amount (List.filter (fun e => String.eqb (e_category e) c) es).

(** What the loop of the view leaves under a category: each amount is added
    to [previous || 0]. *)
Definition running_total (amounts : list float) : option float :=
  fold_left (fun acc a => Some (or_zero acc + a)%float) amounts None.

Definition category_total (c : string) (es : list (EntryOf float)) : float :=
  default 0%float (running_total (amounts_of c es)).

(** The groups before the sort: one group per category in the order
    categories first occur, valued by the loop, coloured by the palette
    entry at its position modulo 10. *)
Definition loop_groups (es : list (EntryOf float)) : list StatGroup :=
  imap
    (fun i c => mkStatGroup c (category_total c es) (nth (i mod 10)%nat COLORS ""))
    (first_seen (map e_category es)).




(** ** 6. A reference platform

    Concrete instances of the platform classes: a JSON reader and writer for
    the integer fragment of JSON, storages with and without a quota, and a
    [parseISO] for calendar dates.  The properties of the store are proved
    for every platform that satisfies [JSONLaws]; these instances show that
    such platforms exist and let the store run on concrete inputs. *)

Module Reference.

Definition dq : ascii := ascii_of_nat 34.
Definition backslash : ascii := ascii_of_nat 92.
Definition LF : ascii := ascii_of_nat 10.
Definition CR : ascii := ascii_of_nat 13.
Definition TAB : ascii := ascii_of_nat 9.
Definition BS : ascii := ascii_of_nat 8.
Definition FF : ascii := ascii_of_nat 12.

(** A string literal of JSON text around [s]. *)
Definition quoted (s : string) : string := String dq (s ++ String dq EmptyString).

Definition is_ws (c : ascii) : bool :=
  Ascii.eqb c " " || Ascii.eqb c LF || Ascii.eqb c CR || Ascii.eqb c TAB.

Definition is_digit (c : ascii) : bool :=
  match c with
  | "0" | "1" | "2" | "3" | "4" | "5" | "6" | "7" | "8" | "9" => true
  | _ => false
  end%char.

Definition is_control (c : ascii) : bool := (nat_of_ascii c <? 32)%nat.

(** *** Writing *)

Definition hex_digit (n : nat) : ascii :=
  nth n [ "0"; "1"; "2"; "3"; "4"; "5"; "6"; "7"; "8"; "9";
          "a"; "b"; "c"; "d"; "e"; "f" ]%char "0"%char.

(** One character of a string literal, followed by [k]. *)
Definition emit_char (c : ascii) (k : string) : string :=
  if Ascii.eqb c dq then String backslash (String dq k)
  else if Ascii.eqb c backslash then String backslash (String backslash k)
  else if Ascii.eqb c LF then String backslash (String "n" k)
  else if Ascii.eqb c CR then String backslash (String "r" k)
  else if Ascii.eqb c TAB then String backslash (String "t" k)
  else if Ascii.eqb c BS then String backslash (String "b" k)
  else if Ascii.eqb c FF then String backslash (String "f" k)
  else if is_control c then
    String backslash (String "u" (String "0" (String "0"
      (String (hex_digit (nat_of_ascii c / 16))
         (String (hex_digit (nat_of_ascii c mod 16)) k)))))
  else String c k.

Fixpoint emit_chars (s : string) (k : string) : string :=
  match s with
  | EmptyString => k
  | String c rest => emit_char c (emit_chars rest k)
  end.

Definition emit_string (s : string) (k : string) : string :=
  String dq (emit_chars s (String dq k)).

Definition emit_number (n : Z) (k : string) : string :=
  NilZero.string_of_int (Z.to_int n) ++ k.

Fixpoint pad (n : nat) (k : string) : string :=
  match n with
  | O => k
  | S n' => String " " (pad n' k)
  end.

(** The line break and indentation between tokens; nothing when [space]
    is 0. *)
Definition gap (space depth : nat) (k : string) : string :=
  match space with
  | O => k
  | S _ => String LF (pad depth k)
  end.

Definition colon (space : nat) (k : string) : string :=
  match space with
  | O => String ":" k
  | S _ => String ":" (String " " k)
  end.

(** The elements after the first, then the closing text. *)
Definition emit_rest {A} (one : A -> string -> string) (between : string -> string)
    (close : string) : list A -> string :=
  fix go (xs : list A) : string :=
    match xs with
    | [] => close
    | y :: ys => String "," (between (one y (go ys)))
    end.

(** The text of [v] at indentation [depth], followed by [k]. *)
Fixpoint emit (space depth : nat) (v : json) (k : string) {struct v} : string :=
  match v with
  | JNull => "null" ++ k
  | JBool true => "true" ++ k
  | JBool false => "false" ++ k
  | JNum n => emit_number n k
  | JStr s => emit_string s k
  | JArr [] => String "[" (String "]" k)
  | JArr (x :: xs) =>
      let inner := (depth + space)%nat in
      String "["
        (gap space inner
           (emit space inner x
              (emit_rest (fun y => emit space inner y) (gap space inner)
                 (gap space depth (String "]" k)) xs)))
  | JObj [] => String "{" (String "}" k)
  | JObj ((key, x) :: ps) =>
      let inner := (depth + space)%nat in
      String "{"
        (gap space inner
           (emit_string key (colon space
              (emit space inner x
                 (emit_rest
                    (fun p k' => emit_string (fst p) (colon space (emit space inner (snd p) k')))
                    (gap space inner)
                    (gap space depth (String "}" k)) ps)))))
  end.

Definition stringify (space : nat) (v : json) : string :=
  emit space 0 v EmptyString.

(** *** Reading *)

Fixpoint skip_ws (s : string) : string :=
  match s with
  | EmptyString => EmptyString
  | String c rest => if is_ws c then skip_ws rest else s
  end.

Fixpoint strip_prefix (p s : string) : option string :=
  match p with
  | EmptyString => Some s
  | String a p' =>
      match s with
      | EmptyString => None
      | String b s' => if Ascii.eqb a b then strip_prefix p' s' else None
      end
  end.

Fixpoint take_digits (s : string) : string * string :=
  match s with
  | EmptyString => (EmptyString, EmptyString)
  | String c rest =>
      if is_digit c
      then let '(ds, r) := take_digits rest in (String c ds, r)
      else (EmptyString, s)
  end.

Definition parse_number (s : string) : option (Z * string) :=
  let '(token, rest) :=
    match s with
    | String c s' =>
        if Ascii.eqb c "-"
        then let '(ds, r) := take_digits s' in (String c ds, r)
        else take_digits s
    | EmptyString => (EmptyString, EmptyString)
    end in
  match NilZero.int_of_string token with
  | Some d => Some (Z.of_int d, rest)
  | None => None
  end.

Definition hex_value (c : ascii) : option nat :=
  let n := nat_of_ascii c in
  if is_digit c then Some (n - 48)%nat
  else if ((97 <=? n) && (n <=? 102))%nat then Some (n - 87)%nat
  else if ((65 <=? n) && (n <=? 70))%nat then Some (n - 55)%nat
  else None.

(** The character a two-character escape stands for. *)
Definition unescape (c : ascii) : option ascii :=
  if Ascii.eqb c dq then Some dq
  else if Ascii.eqb c backslash then Some backslash
  else if Ascii.eqb c "/" then Some "/"%char
  else if Ascii.eqb c "n" then Some LF
  else if Ascii.eqb c "r" then Some CR
  else if Ascii.eqb c "t" then Some TAB
  else if Ascii.eqb c "b" then Some BS
  else if Ascii.eqb c "f" then Some FF
  else None.

(** A [\uXXXX] escape below 256, the range of one character here. *)
Definition unicode_escape (a b c d : ascii) : option ascii :=
  match hex_value a, hex_value b, hex_value c, hex_value d with
  | Some 0%nat, Some 0%nat, Some h, Some l => Some (ascii_of_nat (16 * h + l))
  | _, _, _, _ => None
  end.

(** The body of a string literal after its opening quote, up to and
    including the closing quote. *)
Fixpoint parse_string_body (s : string) : option (string * string) :=
  match s with
  | EmptyString => None
  | String c rest =>
      if Ascii.eqb c dq then Some (EmptyString, rest)
      else if Ascii.eqb c backslash then
        match rest with
        | String "u" (String h1 (String h2 (String h3 (String h4 rest')))) =>
            match unicode_escape h1 h2 h3 h4, parse_string_body rest' with
            | Some c', Some (body, r) => Some (String c' body, r)
            | _, _ => None
            end
        | String c2 rest' =>
            match unescape c2, parse_string_body rest' with
            | Some c', Some (body, r) => Some (String c' body, r)
            | _, _ => None
            end
        | EmptyString => None
        end
      else if is_control c then None
      else
        match parse_string_body rest with
        | Some (body, r) => Some (String c body, r)
        | None => None
        end
  end.

Fixpoint parse_value (fuel : nat) (s : string) {struct fuel} : option (json * string) :=
  match fuel with
  | O => None
  | S fuel' =>
      match skip_ws s with
      | EmptyString => None
      | String c rest =>
          if Ascii.eqb c "[" then
            match skip_ws rest with
            | EmptyString => None
            | String c' rest' =>
                if Ascii.eqb c' "]" then Some (JArr [], rest')
                else
                  match parse_elements fuel' rest with
                  | Some (xs, r) => Some (JArr xs, r)
                  | None => None
                  end
            end
          else if Ascii.eqb c "{" then
            match skip_ws rest with
            | EmptyString => None
            | String c' rest' =>
                if Ascii.eqb c' "}" then Some (JObj [], rest')
                else
                  match parse_members fuel' rest with
                  | Some (ps, r) => Some (JObj ps, r)
                  | None => None
                  end
            end
          else if Ascii.eqb c dq then
            match parse_string_body rest with
            | Some (str, r) => Some (JStr str, r)
            | None => None
            end
          else
            match strip_prefix "null" (String c rest) with
            | Some r => Some (JNull, r)
            | None =>
                match strip_prefix "true" (String c rest) with
                | Some r => Some (JBool true, r)
                | None =>
                    match strip_prefix "false" (String c rest) with
                    | Some r => Some (JBool false, r)
                    | None =>
                        match parse_number (String c rest) with
                        | Some (n, r) => Some (JNum n, r)
                        | None => None
                        end
                    end
                end
            end
      end
  end
with parse_elements (fuel : nat) (s : string) {struct fuel}
    : option (list json * string) :=
  match fuel with
  | O => None
  | S fuel' =>
      match parse_value fuel' s with
      | None => None
      | Some (x, r) =>
          match skip_ws r with
          | EmptyString => None
          | String c r' =>
              if Ascii.eqb c "," then
                match parse_elements fuel' r' with
                | Some (xs, r'') => Some (x :: xs, r'')
                | None => None
                end
              else if Ascii.eqb c "]" then Some ([x], r')
              else None
          end
      end
  end
with parse_members (fuel : nat) (s : string) {struct fuel}
    : option (list (string * json) * string) :=
  match fuel with
  | O => None
  | S fuel' =>
      match skip_ws s with
      | EmptyString => None
      | String q s1 =>
          if negb (Ascii.eqb q dq) then None
          else
            match parse_string_body s1 with
            | None => None
            | Some (key, s2) =>
                match skip_ws s2 with
                | EmptyString => None
                | String c s3 =>
                    if negb (Ascii.eqb c ":") then None
                    else
                      match parse_value fuel' s3 with
                      | None => None
                      | Some (x, r) =>
                          match skip_ws r with
                          | EmptyString => None
                          | String c' r' =>
                              if Ascii.eqb c' "," then
                                match parse_members fuel' r' with
                                | Some (ps, r'') => Some ((key, x) :: ps, r'')
                                | None => None
                                end
                              else if Ascii.eqb c' "}" then Some ([(key, x)], r')
                              else None
                          end
                      end
                end
            end
      end
  end.

Definition parse (text : string) : option json :=
  match parse_value (S (String.length text)) text with
  | Some (v, rest) =>
      match skip_ws rest with
      | EmptyString => Some v
      | String _ _ => None
      end
  | None => None
  end.

(** *** Coercions *)

(** [String(v)], as [Array.prototype.join] and a comparison with a number
    apply it: an array joins its elements with commas, [null] elements
    being empty. *)
Fixpoint ToString (v : json) : string :=
  match v with
  | JNull => "null"
  | JBool true => "true"
  | JBool false => "false"
  | JNum n => NilZero.string_of_int (Z.to_int n)
  | JStr s => s
  | JArr xs =>
      (fix join (first : bool) (ys : list json) : string :=
         match ys with
         | [] => EmptyString
         | y :: ys' =>
             (if first then EmptyString else ",")
             ++ match y with JNull => EmptyString | _ => ToString y end
             ++ join false ys'
         end) true xs
  | JObj _ => "[object Object]"
  end.

(** A decimal integer literal as a number; the empty string is 0 and
    every other text is NaN in this instance. *)
Definition decimal_to_number (s : string) : option Z :=
  match skip_ws s with
  | EmptyString => Some 0
  | String c rest =>
      match parse_number (String c rest) with
      | Some (n, r) =>
          match skip_ws r with
          | EmptyString => Some n
          | String _ _ => None
          end
      | None => None
      end
  end.

Definition json_platform : Runtime :=
  {| JSON_parse := parse;
     JSON_stringify := stringify;
     StringToNumber := decimal_to_number;
     ObjectToString := ToString |}.

(** *** Storages *)

(** A storage that accepts every access. *)
Definition ideal_storage : WebStorage :=
  {| getItem_throws := fun _ => false;
     setItem_throws := fun _ _ _ => false |}.

(** A storage whose every access is refused. *)
Definition blocked_storage : WebStorage :=
  {| getItem_throws := fun _ => true;
     setItem_throws := fun _ _ _ => true |}.

(** The characters a storage holds: keys and values together. *)
Definition used_space (m : gmap string string) : nat :=
  map_fold (fun k v acc => (String.length k + String.length v + acc)%nat) 0%nat m.

(** A storage that refuses a write which would take it over [limit]
    characters. *)
Definition quota_storage (limit : nat) : WebStorage :=
  {| getItem_throws := fun _ => false;
     setItem_throws := fun m k v => (limit <? used_space (<[k := v]> m))%nat |}.

(** *** Calendar dates *)

Definition digit_value (c : ascii) : option Z :=
  if is_digit c then Some (Z.of_nat (nat_of_ascii c) - 48) else None.

Definition two_digits (a b : ascii) : option Z :=
  match digit_value a, digit_value b with
  | Some x, Some y => Some (10 * x + y)
  | _, _ => None
  end.

Definition leap_year (y : Z) : bool :=
  ((y mod 4 =? 0) && negb (y mod 100 =? 0)) || (y mod 400 =? 0).

Definition days_in_month (y m : Z) : Z :=
  if m =? 2 then (if leap_year y then 29 else 28)
  else if (m =? 4) || (m =? 6) || (m =? 9) || (m =? 11) then 30
  else 31.

(** [parseISO] on the calendar-date form [YYYY-MM-DD], which it reads as
    local midnight of that day; every other text is an invalid date in
    this instance. *)
Definition calendar_date (text : string) : JSDate :=
  match text with
  | String y1 (String y2 (String y3 (String y4 (String "-"
      (String m1 (String m2 (String "-" (String d1 (String d2 EmptyString))))))))) =>
      match two_digits y1 y2, two_digits y3 y4, two_digits m1 m2, two_digits d1 d2 with
      | Some yh, Some yl, Some m, Some d =>
          let y := 100 * yh + yl in
          if (1 <=? m) && (m <=? 12) && (1 <=? d) && (d <=? days_in_month y m)
          then LocalDate y (m - 1) d
          else InvalidDate
      | _, _, _, _ => InvalidDate
      end
  | _ => InvalidDate
  end.

Definition date_platform : DateFns := {| parseISO := calendar_date |}.

End Reference.

(** ** 7. Observations the specification names *)

Section Observations.
Context {J : Runtime} {LS : WebStorage}.

(** [listEntries()] and [listCategories()]: the value a read returns. *)
Definition listEntries (w : World) : outcome json := fst (getEntries w).
Definition listCategories (w : World) : outcome json := fst (getCategories w).

(** The world an operation leaves behind, whether it returned or threw. *)
Definition after {A} (op : M A) (w : World) : World := snd (op w).

Definition entries_value (es : list Entry) : json := JArr (map entry_to_json es).
Definition categories_value (cs : list Category) : json := JArr (map category_to_json cs).

(** A run of [deleteCategory] calls, one per id. *)
Definition delete_categories (ids : list string) (w : World) : World :=
  fold_left (fun w' id => after (deleteCategory id) w') ids w.

End Observations.

Definition always_readable (LS : WebStorage) : Prop :=
  forall k, getItem_throws k = false.

Definition always_writable (LS : WebStorage) : Prop :=
  forall m k v, setItem_throws m k v = false.

(** A backup document in the sense of the import guard: an object whose
    [entries] and [categories] properties are both arrays. *)
Definition backup_shaped (v : json) : Prop :=
  exists props es cs,
    v = JObj props /\
    own_prop "entries" props = Some (JArr es) /\
    own_prop "categories" props = Some (JArr cs).

(** Two dates in the same local-calendar year and month. *)
Definition same_local_month (a b : JSDate) : Prop :=
  exists y m d1 d2, a = LocalDate y m d1 /\ b = LocalDate y m d2.










(** The comparator of the view's sort, as the sort reads it. *)
Definition by_value_desc (a b : StatGroup) : Z :=
  sort_sign (sg_value b - sg_value a)%float.



Definition mentions (c : string) (cs : list string) : bool :=
  existsb (String.eqb c) cs.

(** A map that holds [f k] under each key of a list. *)
Definition tabulate {V} (f : string -> V) (keys : list string) : list (string * V) :=
  map (fun k => (k, f k)) keys.

(** ** 8. Measures and shapes used by the proofs *)

(** Structural induction on JSON values through the two nested lists. *)
Section JsonInduction.
Variable P : json -> Prop.
Hypothesis HNull : P JNull.
Hypothesis HBool : forall b, P (JBool b).
Hypothesis HNum : forall n, P (JNum n).
Hypothesis HStr : forall s, P (JStr s).
Hypothesis HArr : forall xs, Forall P xs -> P (JArr xs).
Hypothesis HObj : forall ps, Forall (fun p => P (snd p)) ps -> P (JObj ps).

Fixpoint json_nested_ind (v : json) : P v :=
  match v with
  | JNull => HNull
  | JBool b => HBool b
  | JNum n => HNum n
  | JStr s => HStr s
  | JArr xs =>
      HArr xs
        ((fix go (l : list json) : Forall P l :=
            match l with
            | [] => List.Forall_nil P
            | x :: l' => @List.Forall_cons _ P x l' (json_nested_ind x) (go l')
            end) xs)
  | JObj ps =>
      HObj ps
        ((fix go (l : list (string * json)) : Forall (fun p => P (snd p)) l :=
            match l with
            | [] => List.Forall_nil _
            | p :: l' =>
                @List.Forall_cons _ (fun p => P (snd p)) p l' (json_nested_ind (snd p)) (go l')
            end) ps)
  end.
End JsonInduction.

Module ReferenceFacts.
Import Reference.

(** Fuel that reading a value back takes. *)
Fixpoint weight (v : json) : nat :=
  match v with
  | JArr xs =>
      S ((fix go (l : list json) : nat :=
            match l with
            | [] => O
            | x :: l' => S (weight x + go l')
            end) xs)
  | JObj ps =>
      S ((fix go (l : list (string * json)) : nat :=
            match l with
            | [] => O
            | p :: l' => S (weight (snd p) + go l')
            end) ps)
  | _ => 1%nat
  end.

Definition weight_list (xs : list json) : nat :=
  fold_right (fun x acc => S (weight x + acc)) O xs.

Definition weight_members (ps : list (string * json)) : nat :=
  fold_right (fun p acc => S (weight (snd p) + acc)) O ps.

(** The text after a number must not go on with a digit. *)
Definition no_digit_head (k : string) : Prop :=
  match k with
  | EmptyString => True
  | String c _ => is_digit c = false
  end.

(** The characters a value's text can start with. *)
Definition value_start (c : ascii) : bool :=
  is_digit c
  || Ascii.eqb c "-" || Ascii.eqb c "[" || Ascii.eqb c "{" || Ascii.eqb c dq
  || Ascii.eqb c "n" || Ascii.eqb c "t" || Ascii.eqb c "f".

Definition starts_with (ok : ascii -> bool) (s : string) : Prop :=
  match s with
  | EmptyString => False
  | String c _ => ok c = true
  end.

Definition emit_member (space inner : nat) (p : string * json) (k : string) : string :=
  emit_string (fst p) (colon space (emit space inner (snd p) k)).

(** What the round trip says of one value, and the length its text has at
    least. *)
Definition reads_back (v : json) : Prop :=
  forall space depth k fuel,
    (weight v <= fuel)%nat -> no_digit_head k ->
    parse_value fuel (emit space depth v k) = Some (v, k).

Definition long_enough (v : json) : Prop :=
  forall space depth k,
    (weight v + String.length k <= String.length (emit space depth v k))%nat.

End ReferenceFacts.

(** The categories cell, when present, holds a non-empty collection of
    categories with pairwise different ids. *)
Definition categories_inv {J : Runtime} (w : World) : Prop :=
  match storage w !! CATEGORY_STORAGE_KEY with
  | None => True
  | Some s =>
      exists cats,
        s = JSON_stringify 0 (categories_value cats)
        /\ cats <> []
        /\ List.NoDup (map c_id cats)
  end.

(** The categories whose id is not [id]. *)
Definition without_id (id : string) (cats : list Category) : list Category :=
  List.filter (fun c => negb (String.eqb (c_id c) id)) cats.

(** ** 9. Concrete worlds for the examples *)

Module Fixtures.
Import Reference.

Definition noon : string := "2024-05-01T12:00:00.000Z".

Definition empty_world : World := mkWorld ∅ noon [].

(** The text [{"foo":1}]. *)
Definition foo_text : string := "{" ++ quoted "foo" ++ ":1}".

Definition lunch : Entry :=
  mkEntry "e1" expense 30 "food" [] "lunch" "2024-05-01" [].

Definition dinner : Entry :=
  mkEntry "e2" expense 20 "food" [] "dinner" "2024-05-15" [].

Definition bus : Entry :=
  mkEntry "e3" expense 10 "transit" [] "bus" "2024-05-20" [].

Definition salary : Entry :=
  mkEntry "e4" income 500 "salary" [] "pay" "2024-05-01" [].

Definition april_entry : Entry :=
  mkEntry "e5" expense 12 "food" [] "lunch" "2024-04-30" [].

Definition snack : Entry :=
  mkEntry "e6" expense 5 "food" [] "snack" "2024-05-21" [].

(** An entry as the pages compute with it: the entry, with a double for its
    amount. *)
Definition costing (amount : float) (e : Entry) : EntryOf float :=
  mkEntry (e_id e) (e_type e) amount (e_category e) (e_tags e) (e_content e)
    (e_date e) (e_media e).

(** An entry whose id is the empty string. *)
Definition blank_id_entry : Entry :=
  mkEntry EmptyString expense 5 "food" [] "snack" "2024-05-02" [].

(** A storage whose two cells hold text that is not JSON. *)
Definition corrupt_world : World :=
  mkWorld (<[STORAGE_KEY := "{oops"]> (<[CATEGORY_STORAGE_KEY := "{oops"]> ∅)) noon [].

(** A storage that holds two empty collections. *)
Definition blank_world : World :=
  mkWorld (<[STORAGE_KEY := "[]"]> (<[CATEGORY_STORAGE_KEY := "[]"]> ∅)) noon [].

(** A storage that holds the given entries and no categories cell. *)
Definition world_with_entries (es : list Entry) : World :=
  mkWorld (<[STORAGE_KEY := stringify 0 (entries_value es)]> ∅) noon [].

(** A backup of one entry and the eight default categories. *)
Definition backup_text : string :=
  stringify 2
    (JObj [ ("entries", entries_value [lunch]);
            ("categories", default_categories_value);
            ("exportedAt", JStr noon); ("appName", JStr "ZenLedger");
            ("version", JNum 1) ]).

(** A backup whose one entry has the empty id. *)
Definition blank_id_backup : string :=
  stringify 0
    (JObj [ ("entries", entries_value [blank_id_entry]);
            ("categories", default_categories_value) ]).

(** A backup with no categories: the text [{"entries":[],"categories":[]}]. *)
Definition empty_backup_text : string :=
  "{" ++ quoted "entries" ++ ":[]," ++ quoted "categories" ++ ":[]}".

End Fixtures.

(** ** 9a. The rest of the storage service, the entry form and the home page *)

Definition DRAFT_KEY : string := "zenledger_draft_entry".

Definition INCOME_CATEGORIES : list string :=
  [ "工资"; "兼职"; "礼金"; "理财"; "其他" ].

(** The names of the events a trace dispatched, the messages it alerted and
    the errors it logged, each in order. *)
Definition dispatched (t : list effect) : list string :=
  flat_map (fun e => match e with DispatchEvent name => [name] | _ => [] end) t.

Definition alerted (t : list effect) : list string :=
  flat_map (fun e => match e with Alert message => [message] | _ => [] end) t.

(** When [localStorage.removeItem] throws for a key. *)
Class StorageRemoval := {
  removeItem_throws : string -> bool
}.

Section StorageServiceRest.
Context {J : Runtime} {LS : WebStorage}.

(** [items.find(pred)]: the first element the callback accepts, or
    [undefined]; a throwing callback aborts the search. *)
Fixpoint find_item (pred : json -> outcome bool) (items : list json) : outcome jsval :=
  match items with
  | [] => Return JSUndefined
  | x :: rest =>
      match pred x with
      | Throws => Throws
      | Return true => Return (JSValue x)
      | Return false => find_item pred rest
      end
  end.

(** [value.find(pred)]: only arrays have the method. *)
Definition array_find (value : json) (pred : json -> outcome bool) : outcome jsval :=
  match value with
  | JArr items => find_item pred items
  | _ => Throws
  end.

Definition getEntry (id : string) : M jsval :=
  let! entries := getEntries in
  lift (array_find entries (has_id id)).

(** [[...value, x]]: an array spreads its elements, a string its
    characters, and nothing else is iterable. *)
Definition array_snoc (value : json) (x : json) : outcome json :=
  match value with
  | JArr items => Return (JArr (items ++ [x]))
  | JStr s =>
      Return (JArr (map (fun c => JStr (String c EmptyString))
                        (list_ascii_of_string s) ++ [x]))
  | JNull | JBool _ | JNum _ | JObj _ => Throws
  end.

Definition saveCategory (category : Category) : M unit :=
  let! categories := getCategories in
  let! newCategories := lift (array_snoc categories (category_to_json category)) in
  setItem CATEGORY_STORAGE_KEY (JSON_stringify 0 newCategories) ;;
  dispatchEvent "zenledger-categories-update".

End StorageServiceRest.

(** *** The entry form *)

(** The state [handleSave] closes over: the route parameter [id], and the
    fields of the form. *)
Record EntryForm : Type := mkEntryForm {
  f_id : option string;
  f_isSaving : bool;
  f_type : EntryType;
  f_amount : string;
  f_content : string;
  f_category : string;
  f_media : list MediaAttachment;
  f_entryDate : string;
  f_expenseCategories : list Category
}.

(** Truthiness of a string. *)
Definition truthy_text (s : string) : bool := negb (String.eqb s "").

Section EntryPage.
Context {J : Runtime} {LS : WebStorage} {R : StorageRemoval}.

Definition removeItem (key : string) : M unit :=
  fun w =>
    if removeItem_throws key then (Throws, w)
    else (Return tt, with_storage w (delete key (storage w))).

(** The object literal [entryData] of [handleSave]; [fresh] is what
    [generateId()] returns when it is called. *)
Definition entryData (form : EntryForm) (fresh : string) (numericAmount : Z) : Entry :=
  {| e_id := if truthy_item (f_id form) then default "" (f_id form) else fresh;
     e_type := f_type form;
     e_amount := if EntryType_eqb (f_type form) note then 0 else numericAmount;
     e_category :=
       if EntryType_eqb (f_type form) note then "笔记"
       else if truthy_text (f_category form) then f_category form
       else if EntryType_eqb (f_type form) income then nth 0 INCOME_CATEGORIES ""
       else match f_expenseCategories form with
            | c :: _ => c_name c
            | [] => "其他"
            end;
     e_tags := [];
     e_content := f_content form;
     e_date := f_entryDate form;
     e_media := f_media form |}.

(** [handleSave]; the result tells whether [navigate('/')] was called. *)
Definition handleSave (form : EntryForm) (fresh : string) : M bool :=
  if f_isSaving form then ret false
  else if negb (EntryType_eqb (f_type form) note) && negb (truthy_text (f_amount form))
  then ret false
  else
    match (if negb (EntryType_eqb (f_type form) note)
           then StringToNumber (f_amount form) else Some 0) with
    | None => alert "请输入有效金额" ;; ret false
    | Some numericAmount =>
        try_catch
          (let entry := entryData form fresh numericAmount in
           (if truthy_item (f_id form) then updateEntry entry
            else (saveEntry entry ;; removeItem DRAFT_KEY)) ;;
           ret true)
          (alert "保存失败，请重试" ;; ret false)
    end.

End EntryPage.

(** The amount check of [handleSave] passes with the number [n]: a note
    needs no amount, any other entry a non-empty text that is a number. *)
Definition amount_entered {J : Runtime} (form : EntryForm) (n : Z) : Prop :=
  if EntryType_eqb (f_type form) note then n = 0
  else f_amount form <> EmptyString /\ StringToNumber (f_amount form) = Some n.

(** *** The home page *)

(** [String.prototype.toLowerCase], and [new Date(text).getTime()] ([None]
    is NaN). *)
Class Strings := {
  toLowerCase : string -> string;
  Date_getTime : string -> option Z
}.

Fixpoint has_prefix (p s : string) : bool :=
  match p with
  | EmptyString => true
  | String a p' =>
      match s with
      | EmptyString => false
      | String b s' => Ascii.eqb a b && has_prefix p' s'
      end
  end.

(** [s.includes(t)]: [t] occurs somewhere in [s]. *)
Fixpoint includes (s t : string) : bool :=
  has_prefix t s
  || match s with
     | EmptyString => false
     | String _ s' => includes s' t
     end.

(** The filter chip: ['all'] or an entry type. *)
Inductive HomeFilter : Type :=
| filter_all
| filter_type (t : EntryType).

Module HomePage.
Section HomePage.
Context {T : Strings} {number : Type}.

(** The comparator of the list: a difference of times, NaN counting as 0. *)
Definition newest_first (a b : EntryOf number) : Z :=
  match Date_getTime (e_date b), Date_getTime (e_date a) with
  | Some tb, Some ta => tb - ta
  | _, _ => 0
  end.

Definition matches (searchTerm : string) (filterType : HomeFilter)
    (entry : EntryOf number) : bool :=
  let matchesSearch :=
    includes (toLowerCase (e_content entry)) (toLowerCase searchTerm)
    || includes (toLowerCase (e_category entry)) (toLowerCase searchTerm) in
  let matchesType :=
    match filterType with
    | filter_all => true
    | filter_type t => EntryType_eqb (e_type entry) t
    end in
  matchesSearch && matchesType.

Definition filteredEntries (entries : list (EntryOf number)) (searchTerm : string)
    (filterType : HomeFilter) : list (EntryOf number) :=
  Array_sort newest_first (List.filter (matches searchTerm filterType) entries).

End HomePage.
End HomePage.

(** *** The statistics page of [src/StatsPage.tsx] *)

Module LegacyStatsPage.

Definition STANDARD_COLORS : list string :=
  [ "#6366f1"; "#ec4899"; "#10b981"; "#f59e0b"; "#3b82f6";
    "#8b5cf6"; "#ef4444"; "#64748b"; "#14b8a6"; "#f97316" ].

Definition expenseEntries {number} (entries : list (EntryOf number))
    : list (EntryOf number) :=
  List.filter (fun e => EntryType_eqb (e_type e) expense) entries.

Definition dataByCategory (entries : list (EntryOf float)) : list StatGroup :=
  let map := fold_left group_step (expenseEntries entries) [] in
  Array_sort
    (fun a b => sort_sign (sg_value b - sg_value a)%float)
    (imap
       (fun index '(name, value) =>
          {| sg_name := name;
             sg_value := value;
             sg_color := nth (index mod length STANDARD_COLORS)%nat STANDARD_COLORS "" |})
       map).

End LegacyStatsPage.

(** *** Measures for the properties *)

(** The time of an entry's date, for dates that parse. *)
Definition newer_or_same {T : Strings} {number} (a b : EntryOf number) : Prop :=
  match Date_getTime (e_date a), Date_getTime (e_date b) with
  | Some ta, Some tb => tb <= ta
  | _, _ => False
  end.

Definition dated {T : Strings} {number} (e : EntryOf number) : Prop :=
  exists t, Date_getTime (e_date e) = Some t.

(** A run of category operations. *)
Inductive CategoryOp : Type :=
| AddCategory (c : Category)
| RemoveCategory (id : string).

Module MoreFixtures.
Import Reference.

Definition plain_removal : StorageRemoval := {| removeItem_throws := fun _ => false |}.

(** Lower case of the letters A to Z; the time of a calendar date counted
    in days, month by month of 31. *)
Definition ascii_lower (c : ascii) : ascii :=
  let n := nat_of_ascii c in
  if ((65 <=? n) && (n <=? 90))%nat then ascii_of_nat (n + 32) else c.

Fixpoint lower (s : string) : string :=
  match s with
  | EmptyString => EmptyString
  | String c rest => String (ascii_lower c) (lower rest)
  end.

Definition day_number (text : string) : option Z :=
  match calendar_date text with
  | LocalDate y m d => Some ((y * 12 + m) * 31 + d)
  | InvalidDate => None
  end.

Definition strings_platform : Strings :=
  {| toLowerCase := lower; Date_getTime := day_number |}.

Definition note_form : EntryForm :=
  mkEntryForm None false note "12" "remember" "food" [] "2024-05-03" [].

Definition expense_form : EntryForm :=
  mkEntryForm None false expense "42" "taxi" "" [] "2024-05-04"
    DEFAULT_EXPENSE_CATEGORIES.

Definition edit_form : EntryForm :=
  mkEntryForm (Some "e2") false expense "25" "supper" "food" [] "2024-05-15" [].

(** A form without an amount, and one whose amount is not a number. *)
Definition empty_amount_form : EntryForm :=
  mkEntryForm None false expense "" "taxi" "transit" [] "2024-05-04" [].

Definition bad_amount_form : EntryForm :=
  mkEntryForm None false income "abc" "pay" "" [] "2024-05-04" [].

(** What [edit_form] stores. *)
Definition supper : Entry :=
  mkEntry "e2" expense 25 "food" [] "supper" "2024-05-15" [].

Definition pets : Category := mkCategory "c9" "pets" expense "#14b8a6".

End MoreFixtures.

(** *** Collections as lists: what the operations do to the stored list *)

Definition has_entry_id (id : string) (es : list Entry) : bool :=
  existsb (fun x => String.eqb (e_id x) id) es.

(** The first entry with the id of [entry] replaced by [entry]. *)
Fixpoint replace_first (entry : Entry) (es : list Entry) : list Entry :=
  match es with
  | [] => []
  | x :: rest =>
      if String.eqb (e_id x) (e_id entry) then entry :: rest
      else x :: replace_first entry rest
  end.

Definition upsert (entry : Entry) (es : list Entry) : list Entry :=
  if has_entry_id (e_id entry) es then replace_first entry es else entry :: es.

(** The list without its first entry of the given id. *)
Fixpoint remove_first (id : string) (es : list Entry) : list Entry :=
  match es with
  | [] => []
  | x :: rest => if String.eqb (e_id x) id then rest else x :: remove_first id rest
  end.

Section CategoryRuns.
Context {J : Runtime} {LS : WebStorage}.

Definition apply_category_op (w : World) (op : CategoryOp) : World :=
  match op with
  | AddCategory c => after (saveCategory c) w
  | RemoveCategory id => after (deleteCategory id) w
  end.

Definition run_category_ops (ops : list CategoryOp) (w : World) : World :=
  fold_left apply_category_op ops w.

End CategoryRuns.

(** The ids a run adds, in order. *)
Definition added_ids (ops : list CategoryOp) : list string :=
  flat_map (fun op => match op with AddCategory c => [c_id c] | RemoveCategory _ => [] end) ops.

(** The categories cell, when present, holds a non-empty collection of
    categories with different ids, all among [known]. *)
Definition categories_within {J : Runtime} (known : list string) (w : World) : Prop :=
  match storage w !! CATEGORY_STORAGE_KEY with
  | None => True
  | Some s =>
      exists cats,
        s = JSON_stringify 0 (categories_value cats)
        /\ cats <> []
        /\ List.NoDup (map c_id cats)
        /\ (forall id, In id (map c_id cats) -> In id known)
  end.

(** ** 10. Properties of the statistics view *)

Section StatsFacts.

Lemma sort_insert_perm {A} (cmp : A -> A -> Z) (x : A) (l : list A) :
  sort_insert cmp x l ≡ₚ x :: l.
Proof.
  induction l as [|y l IH]; simpl; [done|].
  destruct (cmp x y <=? 0); [done|].
  rewrite IH. apply Permutation_swap.
Qed.

Lemma Array_sort_perm {A} (cmp : A -> A -> Z) (l : list A) :
  Array_sort cmp l ≡ₚ l.
Proof.
  induction l as [|x l IH]; simpl; [done|].
  rewrite sort_insert_perm. by f_equiv.
Qed.

End StatsFacts.

(** The sort never exchanges two elements between which the comparator is
    not positive: it is stable on every class of such elements. *)
Section Stability.
Context {A : Type} (cmp : A -> A -> Z) (pool : list A) (p : A -> bool).
Hypothesis never_exchanged :
  forall x y, In x pool -> In y pool -> p x = true -> p y = true -> cmp x y <= 0.



End Stability.


(** The sort over a pool of elements on which the comparator is
    consistent, in the sense of ECMAScript's [Array.prototype.sort]: its sign
    is antisymmetric and its "at most 0" is transitive. *)
Section SortFacts.
Context {A : Type} (cmp : A -> A -> Z) (pool : list A).
Hypothesis sign_antisymmetric :
  forall a b, In a pool -> In b pool -> Z.sgn (cmp a b) = - Z.sgn (cmp b a).
Hypothesis at_most_transitive :
  forall a b c, In a pool -> In b pool -> In c pool ->
    cmp a b <= 0 -> cmp b c <= 0 -> cmp a c <= 0.



End SortFacts.

(** *** Doubles

    What the statistics need of IEEE-754 arithmetic, from the specification
    of the primitive operations: a sum of finite doubles that starts from 0
    is never NaN nor the zero of negative sign, and the sign of a difference
    of two doubles that are not NaN is the order of the two. *)
Module DoubleFacts.
Import SpecFloat FloatOps FloatAxioms.





































End DoubleFacts.

Section GroupingFacts.

Lemma mentions_In c cs : mentions c cs = true <-> In c cs.
Proof.
  unfold mentions. rewrite existsb_exists. split.
  - intros (x & Hx & Heq). apply String.eqb_eq in Heq. by subst.
  - intros H. exists c. split; [done|apply String.eqb_refl].
Qed.

Lemma mentions_false c cs : mentions c cs = false <-> ~ In c cs.
Proof.
  rewrite <- mentions_In. destruct (mentions c cs); split; done.
Qed.

Lemma first_seen_In c cs : In c (first_seen cs) <-> In c cs.
Proof.
  induction cs as [|x cs IH]; simpl; [done|].
  rewrite filter_In, IH, negb_true_iff, String.eqb_neq.
  destruct (String.eqb_spec x c); subst; [tauto|].
  split; [tauto|]. intros [H|H]; [done|]. right. split; [done|congruence].
Qed.

Lemma first_seen_NoDup cs : List.NoDup (first_seen cs).
Proof.
  induction cs as [|x cs IH]; simpl; constructor.
  - rewrite filter_In, String.eqb_refl. simpl. intros [_ H]. done.
  - by apply List.NoDup_filter.
Qed.

Lemma first_seen_snoc cs c :
  first_seen (cs ++ [c])%list
  = (first_seen cs ++ (if mentions c cs then [] else [c]))%list.
Proof.
  induction cs as [|x cs IH]; simpl; [done|].
  rewrite IH, List.filter_app. f_equal. f_equal.
  destruct (String.eqb_spec c x) as [->|Hne]; simpl.
  - destruct (mentions x cs); simpl; [done|]. by rewrite String.eqb_refl.
  - destruct (mentions c cs); simpl; [done|].
    destruct (String.eqb_spec c x); [done|]. done.
Qed.

Lemma amounts_of_snoc c es e :
  amounts_of c (es ++ [e])%list
  = (amounts_of c es
     ++ (if String.eqb (e_category e) c then [e_amount e] else []))%list.
Proof.
  unfold amounts_of. rewrite List.filter_app, List.map_app. simpl.
  by destruct (String.eqb (e_category e) c).
Qed.

Lemma amounts_of_absent c es :
  ~ In c (map e_category es) -> amounts_of c es = [].
Proof.
  unfold amounts_of. induction es as [|e es IH]; simpl; [done|].
  intros H. destruct (String.eqb_spec (e_category e) c) as [Heq|Hne].
  - destruct H. by left.
  - apply IH. tauto.
Qed.

Lemma amounts_of_present c es :
  In c (map e_category es) -> amounts_of c es <> [].
Proof.
  unfold amounts_of. induction es as [|e es IH]; simpl; [done|].
  intros H. destruct (String.eqb_spec (e_category e) c) as [Heq|Hne]; [done|].
  apply IH. tauto.
Qed.

Lemma running_total_snoc l a :
  running_total (l ++ [a])%list = Some (or_zero (running_total l) + a)%float.
Proof. unfold running_total. by rewrite fold_left_app. Qed.

Lemma running_total_some l :
  l <> [] -> running_total l = Some (default 0%float (running_total l)).
Proof.
  destruct l as [|a l] using rev_ind; [done|].
  intros _. by rewrite running_total_snoc.
Qed.

Lemma category_total_snoc c es e :
  category_total c (es ++ [e])%list
  = if String.eqb (e_category e) c
    then (or_zero (running_total (amounts_of c es)) + e_amount e)%float
    else category_total c es.
Proof.
  unfold category_total. rewrite amounts_of_snoc.
  destruct (String.eqb (e_category e) c).
  - by rewrite running_total_snoc.
  - by rewrite app_nil_r.
Qed.

Lemma Map_get_tabulate {V} (f : string -> V) keys c :
  Map_get c (tabulate f keys) = if mentions c keys then Some (f c) else None.
Proof.
  induction keys as [|k keys IH]; simpl; [done|].
  destruct (String.eqb_spec c k) as [->|Hne]; simpl; [done|]. exact IH.
Qed.

Lemma Map_set_tabulate_absent {V} (f : string -> V) keys c v :
  mentions c keys = false ->
  Map_set c v (tabulate f keys) = (tabulate f keys ++ [(c, v)])%list.
Proof.
  induction keys as [|k keys IH]; simpl; [done|].
  destruct (String.eqb_spec c k) as [->|Hne]; simpl; [done|].
  intros H. by rewrite IH.
Qed.

Lemma Map_set_tabulate_present {V} (f : string -> V) keys c v :
  List.NoDup keys -> mentions c keys = true ->
  Map_set c v (tabulate f keys)
  = tabulate (fun k => if String.eqb k c then v else f k) keys.
Proof.
  induction 1 as [|k keys Hk Hnd IH]; simpl; [done|].
  destruct (String.eqb_spec c k) as [->|Hne]; simpl.
  - intros _. rewrite String.eqb_refl. f_equal.
    apply map_ext_in. intros a Ha.
    destruct (String.eqb_spec a k) as [->|]; [done|done].
  - intros H. rewrite IH by done.
    destruct (String.eqb_spec k c); [congruence|done].
Qed.

(** The [forEach] loop builds the table of category totals in order of
    first occurrence. *)
Lemma grouping_loop (es : list (EntryOf float)) :
  fold_left group_step es []
  = tabulate (fun c => category_total c es) (first_seen (map e_category es)).
Proof.
  induction es as [|e es IH] using rev_ind; [done|].
  rewrite fold_left_app. cbn [fold_left]. rewrite IH. unfold group_step.
  rewrite Map_get_tabulate, List.map_app. cbn [map].
  rewrite first_seen_snoc.
  assert (Hm : mentions (e_category e) (first_seen (map e_category es))
               = mentions (e_category e) (map e_category es)).
  { destruct (mentions (e_category e) (map e_category es)) eqn:E.
    - apply mentions_In, first_seen_In, mentions_In, E.
    - apply mentions_false. rewrite first_seen_In. by apply mentions_false. }
  rewrite Hm.
  destruct (mentions (e_category e) (map e_category es)) eqn:E.
  - rewrite app_nil_r.
    rewrite Map_set_tabulate_present; [|apply first_seen_NoDup|by rewrite Hm].
    apply map_ext. intros k. rewrite category_total_snoc.
    rewrite (String.eqb_sym k).
    destruct (String.eqb_spec (e_category e) k) as [<-|]; [|done].
    unfold category_total at 1.
    rewrite <- running_total_some; [done|].
    apply amounts_of_present. by apply mentions_In.
  - rewrite Map_set_tabulate_absent by (by rewrite Hm).
    unfold tabulate. rewrite List.map_app. cbn [map]. f_equal.
    + apply map_ext_in. intros k Hk. f_equal.
      rewrite category_total_snoc.
      destruct (String.eqb_spec (e_category e) k) as [<-|]; [|done].
      apply (proj2 (mentions_In _ _)) in Hk. congruence.
    + rewrite category_total_snoc, String.eqb_refl.
      rewrite amounts_of_absent by (by apply mentions_false). done.
Qed.

Lemma imap_tabulate {B V} (g : nat -> string * V -> B) (f : string -> V) keys :
  imap g (tabulate f keys) = imap (fun i k => g i (k, f k)) keys.
Proof. unfold tabulate. by rewrite imap_fmap. Qed.

(** The view sorts the groups of the loop. *)
Lemma dataByCategory_loop (es : list (EntryOf float)) :
  dataByCategory es = Array_sort by_value_desc (loop_groups es).
Proof.
  unfold dataByCategory, loop_groups. rewrite grouping_loop, imap_tabulate.
  reflexivity.
Qed.










End GroupingFacts.


Lemma isSameMonth_true (a b : JSDate) :
  isSameMonth a b = true <-> same_local_month a b.
Proof.
  unfold isSameMonth, same_local_month. split.
  - destruct a as [|y m d], b as [|y' m' d']; simpl; try done.
    intros H. apply andb_true_iff in H as [Hy Hm].
    apply Z.eqb_eq in Hy, Hm. subst. by exists y', m', d, d'.
  - intros (y & m & d1 & d2 & -> & ->). simpl. by rewrite !Z.eqb_refl.
Qed.

Lemma EntryType_eqb_eq (a b : EntryType) : EntryType_eqb a b = true <-> a = b.
Proof. destruct a, b; simpl; split; congruence. Qed.

(** C2. An entry is in the filtered set exactly when it is one of the
    entries, its parsed date lies in the same local-calendar year and month
    as the target month, and its type is the selected one; in particular an
    entry whose date parses to 30 April 2024 is not in the set for a target
    month in May 2024. *)
Theorem filtered_iff_month_and_type `{D : DateFns} {number : Type}
    (entries : list (EntryOf number)) (currentMonth : JSDate)
    (activeTab : StatsTab) :
  (forall e,
     In e (filteredEntries entries currentMonth activeTab) <->
     In e entries
     /\ same_local_month (parseISO (e_date e)) currentMonth
     /\ e_type e = tab_type activeTab)
  /\ (forall e day,
        parseISO (e_date e) = LocalDate 2024 3 30 ->
        currentMonth = LocalDate 2024 4 day ->
        ~ In e (filteredEntries entries currentMonth activeTab)).
Proof.
  assert (Hiff : forall e,
     In e (filteredEntries entries currentMonth activeTab) <->
     In e entries
     /\ same_local_month (parseISO (e_date e)) currentMonth
     /\ e_type e = tab_type activeTab).
  { intros e. unfold filteredEntries. rewrite filter_In. cbv zeta.
    rewrite andb_true_iff, isSameMonth_true, EntryType_eqb_eq. tauto. }
  split; [exact Hiff|].
  intros e day Hdate -> Hin. apply Hiff in Hin as (_ & Hsame & _).
  rewrite Hdate in Hsame. destruct Hsame as (y & m & d1 & d2 & H1 & H2).
  congruence.
Qed.

(** ** 11. The reference reader and writer obey the laws *)

Module ReferenceProofs.
Import Reference ReferenceFacts.

Lemma weight_arr xs : weight (JArr xs) = S (weight_list xs).
Proof. reflexivity. Qed.

Lemma weight_obj ps : weight (JObj ps) = S (weight_members ps).
Proof. reflexivity. Qed.

Lemma weight_pos v : (1 <= weight v)%nat.
Proof. destruct v; simpl; lia. Qed.

(** Whitespace. *)
Lemma skip_ws_pad n k : skip_ws (pad n k) = skip_ws k.
Proof. induction n as [|n IH]; simpl; done. Qed.

Lemma skip_ws_gap space depth k : skip_ws (gap space depth k) = skip_ws k.
Proof. destruct space; simpl; [done|apply skip_ws_pad]. Qed.

Lemma skip_ws_start ok s :
  (forall c, ok c = true -> is_ws c = false) ->
  starts_with ok s -> skip_ws s = s.
Proof.
  intros Hok. destruct s as [|c s]; simpl; [done|].
  intros H. by rewrite (Hok c H).
Qed.

Lemma value_start_not_ws c : value_start c = true -> is_ws c = false.
Proof. destruct c as [[] [] [] [] [] [] [] []]; done. Qed.

Lemma parse_value_skip fuel s s' :
  skip_ws s = skip_ws s' -> parse_value fuel s = parse_value fuel s'.
Proof. intros H. destruct fuel; simpl; [done|]. by rewrite H. Qed.

Lemma parse_members_skip fuel s s' :
  skip_ws s = skip_ws s' -> parse_members fuel s = parse_members fuel s'.
Proof. intros H. destruct fuel; simpl; [done|]. by rewrite H. Qed.

(** Numbers. *)
Lemma take_digits_uint d k :
  no_digit_head k ->
  take_digits (NilEmpty.string_of_uint d ++ k) = (NilEmpty.string_of_uint d, k).
Proof.
  intros Hk. induction d; simpl; rewrite ?IHd; try done.
  destruct k as [|c k]; simpl in *; [done|]. by rewrite Hk.
Qed.

Lemma uint_text_digit d :
  d <> Nil -> starts_with is_digit (NilEmpty.string_of_uint d).
Proof. destruct d; simpl; done. Qed.

Lemma parse_number_emit n k :
  no_digit_head k -> parse_number (emit_number n k) = Some (n, k).
Proof.
  intros Hk. unfold emit_number, parse_number.
  assert (Hnn : forall p, Pos.to_uint p <> Nil) by apply Unsigned.to_uint_nonnil.
  destruct n as [|p|p]; simpl.
  - destruct k as [|c k]; simpl in *; [done|]. by rewrite Hk.
  - specialize (Hnn p). 
    assert (Hz : NilZero.string_of_uint (Pos.to_uint p)
                 = NilEmpty.string_of_uint (Pos.to_uint p)).
    { by destruct (Pos.to_uint p). }
    rewrite Hz.
    pose proof (uint_text_digit _ Hnn) as Hd.
    pose proof (take_digits_uint (Pos.to_uint p) k Hk) as Ht.
    destruct (NilEmpty.string_of_uint (Pos.to_uint p)) as [|c s] eqn:E; [done|].
    simpl in Hd.
    assert (Hc : Ascii.eqb c "-" = false).
    { destruct c as [[] [] [] [] [] [] [] []]; done. }
    change (String c s ++ k) with (String c (s ++ k)) in *.
    cbv iota beta. rewrite Hc, Ht.
    rewrite <- Hz.
    change (NilZero.string_of_uint (Pos.to_uint p))
      with (NilZero.string_of_int (Pos (Pos.to_uint p))).
    rewrite NilZero.isi by congruence.
    simpl. pose proof (DecimalZ.of_to (Z.pos p)) as Hof. simpl in Hof.
    by rewrite Hof.
  - specialize (Hnn p).
    assert (Hz : NilZero.string_of_uint (Pos.to_uint p)
                 = NilEmpty.string_of_uint (Pos.to_uint p)).
    { by destruct (Pos.to_uint p). }
    rewrite Hz, take_digits_uint by done.
    rewrite <- Hz.
    change (String "-" (NilZero.string_of_uint (Pos.to_uint p)))
      with (NilZero.string_of_int (Neg (Pos.to_uint p))).
    rewrite NilZero.isi by congruence.
    simpl. pose proof (DecimalZ.of_to (Z.neg p)) as Hof. simpl in Hof.
    by rewrite Hof.
Qed.

Lemma emit_number_start n k :
  starts_with (fun c => is_digit c || Ascii.eqb c "-") (emit_number n k).
Proof.
  unfold emit_number. destruct n as [|p|p]; simpl; try done.
  pose proof (Unsigned.to_uint_nonnil p) as Hnn.
  destruct (Pos.to_uint p); simpl; done.
Qed.

(** Strings. *)
Lemma parse_emit_char c rest :
  parse_string_body (emit_char c rest)
  = match parse_string_body rest with
    | Some (body, r) => Some (String c body, r)
    | None => None
    end.
Proof. destruct c as [[] [] [] [] [] [] [] []]; reflexivity. Qed.

Lemma parse_emit_chars s k :
  parse_string_body (emit_chars s (String dq k)) = Some (s, k).
Proof.
  induction s as [|c s IH]; simpl; [done|].
  by rewrite parse_emit_char, IH.
Qed.

End ReferenceProofs.

Module ReferenceRoundTrip.
Import Reference ReferenceFacts ReferenceProofs.

Lemma parse_value_S fuel s :
  parse_value (S fuel) s
  = match skip_ws s with
    | EmptyString => None
    | String c rest =>
        if Ascii.eqb c "[" then
          match skip_ws rest with
          | EmptyString => None
          | String c' rest' =>
              if Ascii.eqb c' "]" then Some (JArr [], rest')
              else
                match parse_elements fuel rest with
                | Some (xs, r) => Some (JArr xs, r)
                | None => None
                end
          end
        else if Ascii.eqb c "{" then
          match skip_ws rest with
          | EmptyString => None
          | String c' rest' =>
              if Ascii.eqb c' "}" then Some (JObj [], rest')
              else
                match parse_members fuel rest with
                | Some (ps, r) => Some (JObj ps, r)
                | None => None
                end
          end
        else if Ascii.eqb c dq then
          match parse_string_body rest with
          | Some (str, r) => Some (JStr str, r)
          | None => None
          end
        else
          match strip_prefix "null" (String c rest) with
          | Some r => Some (JNull, r)
          | None =>
              match strip_prefix "true" (String c rest) with
              | Some r => Some (JBool true, r)
              | None =>
                  match strip_prefix "false" (String c rest) with
                  | Some r => Some (JBool false, r)
                  | None =>
                      match parse_number (String c rest) with
                      | Some (n, r) => Some (JNum n, r)
                      | None => None
                      end
                  end
              end
          end
    end.
Proof. reflexivity. Qed.

Lemma parse_elements_S fuel s :
  parse_elements (S fuel) s
  = match parse_value fuel s with
    | None => None
    | Some (x, r) =>
        match skip_ws r with
        | EmptyString => None
        | String c r' =>
            if Ascii.eqb c "," then
              match parse_elements fuel r' with
              | Some (xs, r'') => Some (x :: xs, r'')
              | None => None
              end
            else if Ascii.eqb c "]" then Some ([x], r')
            else None
        end
    end.
Proof. reflexivity. Qed.

Lemma parse_members_S fuel s :
  parse_members (S fuel) s
  = match skip_ws s with
    | EmptyString => None
    | String q s1 =>
        if negb (Ascii.eqb q dq) then None
        else
          match parse_string_body s1 with
          | None => None
          | Some (key, s2) =>
              match skip_ws s2 with
              | EmptyString => None
              | String c s3 =>
                  if negb (Ascii.eqb c ":") then None
                  else
                    match parse_value fuel s3 with
                    | None => None
                    | Some (x, r) =>
                        match skip_ws r with
                        | EmptyString => None
                        | String c' r' =>
                            if Ascii.eqb c' "," then
                              match parse_members fuel r' with
                              | Some (ps, r'') => Some ((key, x) :: ps, r'')
                              | None => None
                              end
                            else if Ascii.eqb c' "}" then Some ([(key, x)], r')
                            else None
                        end
                    end
              end
          end
    end.
Proof. reflexivity. Qed.

Lemma parse_value_number fuel text :
  starts_with (fun c => is_digit c || Ascii.eqb c "-") text ->
  parse_value (S fuel) text
  = match parse_number text with
    | Some (n, r) => Some (JNum n, r)
    | None => None
    end.
Proof.
  destruct text as [|c s]; [done|]. cbn [starts_with].
  rewrite parse_value_S.
  destruct c as [[] [] [] [] [] [] [] []]; try done; intros _; reflexivity.
Qed.

Lemma parse_value_array fuel rest :
  starts_with value_start (skip_ws rest) ->
  parse_value (S fuel) (String "[" rest)
  = match parse_elements fuel rest with
    | Some (xs, r) => Some (JArr xs, r)
    | None => None
    end.
Proof.
  rewrite parse_value_S. cbn [skip_ws is_ws]. simpl.
  destruct (skip_ws rest) as [|c r]; [done|]. cbn [starts_with].
  destruct c as [[] [] [] [] [] [] [] []]; try done; intros _; reflexivity.
Qed.

Lemma parse_value_object fuel rest :
  starts_with (Ascii.eqb dq) (skip_ws rest) ->
  parse_value (S fuel) (String "{" rest)
  = match parse_members fuel rest with
    | Some (ps, r) => Some (JObj ps, r)
    | None => None
    end.
Proof.
  rewrite parse_value_S. cbn [skip_ws is_ws]. simpl.
  destruct (skip_ws rest) as [|c r]; [done|]. cbn [starts_with].
  destruct c as [[] [] [] [] [] [] [] []]; try done; intros _; reflexivity.
Qed.

Lemma emit_start space depth v k : starts_with value_start (emit space depth v k).
Proof.
  destruct v as [|[]|n|s|[|x xs]|[|[key x] ps]]; try done.
  cbn [emit]. pose proof (emit_number_start n k) as H.
  destruct (emit_number n k) as [|c r]; [done|]. cbn [starts_with] in *.
  unfold value_start. destruct (is_digit c); [done|].
  simpl in H. by rewrite H.
Qed.

Lemma skip_ws_emit space depth v k :
  skip_ws (emit space depth v k) = emit space depth v k.
Proof. eapply skip_ws_start; [apply value_start_not_ws|apply emit_start]. Qed.

Lemma no_digit_close space depth c k :
  is_digit c = false -> is_ws c = false ->
  no_digit_head (gap space depth (String c k))
  /\ skip_ws (gap space depth (String c k)) = String c k.
Proof.
  intros Hd Hw. split.
  - destruct space; simpl; done.
  - rewrite skip_ws_gap. simpl. by rewrite Hw.
Qed.

Lemma no_digit_rest {A} (one : A -> string -> string) between close xs :
  no_digit_head close -> no_digit_head (emit_rest one between close xs).
Proof. destruct xs; simpl; done. Qed.

Lemma parse_elements_emit xs :
  Forall reads_back xs ->
  forall x space depth inner k fuel,
    reads_back x ->
    (weight_list (x :: xs) <= fuel)%nat -> no_digit_head k ->
    parse_elements fuel
      (gap space inner
         (emit space inner x
            (emit_rest (fun y => emit space inner y) (gap space inner)
               (gap space depth (String "]" k)) xs)))
    = Some (x :: xs, k).
Proof.
  induction 1 as [|y ys Hy Hys IH]; intros x space depth inner k fuel Hx Hfuel Hk;
    (destruct fuel as [|fuel]; [simpl in Hfuel; lia|]);
    rewrite parse_elements_S;
    rewrite (parse_value_skip fuel _ (emit space inner x
            (emit_rest (fun y => emit space inner y) (gap space inner)
               (gap space depth (String "]" k)) _)))
      by apply skip_ws_gap;
    destruct (no_digit_close space depth "]" k eq_refl eq_refl) as [Hnd Hskip].
  - rewrite Hx; [|simpl in Hfuel; lia|exact Hnd].
    cbn [emit_rest]. rewrite Hskip. reflexivity.
  - rewrite Hx; [|simpl in Hfuel; lia|by apply no_digit_rest].
    cbn [emit_rest skip_ws is_ws]. simpl.
    rewrite (IH y space depth inner k fuel Hy); [done| |done].
    simpl in *. lia.
Qed.

Lemma skip_ws_dq s : skip_ws (String dq s) = String dq s.
Proof. reflexivity. Qed.

(** Reading a member: its key, the colon, then its value. *)
Lemma parse_members_member fuel space inner key x cont :
  parse_value fuel (emit space inner x cont) = Some (x, cont) ->
  parse_members (S fuel) (emit_member space inner (key, x) cont)
  = match skip_ws cont with
    | EmptyString => None
    | String c' r' =>
        if Ascii.eqb c' "," then
          match parse_members fuel r' with
          | Some (ps, r'') => Some ((key, x) :: ps, r'')
          | None => None
          end
        else if Ascii.eqb c' "}" then Some ([(key, x)], r')
        else None
    end.
Proof.
  intros Hx. rewrite parse_members_S. unfold emit_member, emit_string.
  cbn [fst snd]. rewrite skip_ws_dq, Ascii.eqb_refl. cbn [negb].
  rewrite parse_emit_chars.
  destruct space as [|space]; cbn [colon skip_ws is_ws]; simpl.
  - by rewrite Hx.
  - rewrite (parse_value_skip fuel _ (emit (S space) inner x cont)) by done.
    by rewrite Hx.
Qed.

Lemma parse_members_emit ps :
  Forall (fun p => reads_back (snd p)) ps ->
  forall p space depth inner k fuel,
    reads_back (snd p) ->
    (weight_members (p :: ps) <= fuel)%nat -> no_digit_head k ->
    parse_members fuel
      (gap space inner
         (emit_member space inner p
            (emit_rest (emit_member space inner) (gap space inner)
               (gap space depth (String "}" k)) ps)))
    = Some (p :: ps, k).
Proof.
  induction 1 as [|q qs Hq Hqs IH]; intros [key x] space depth inner k fuel Hx Hfuel Hk;
    (destruct fuel as [|fuel]; [simpl in Hfuel; lia|]);
    rewrite (parse_members_skip (S fuel) _ (emit_member space inner (key, x)
            (emit_rest (emit_member space inner) (gap space inner)
               (gap space depth (String "}" k)) _)))
      by apply skip_ws_gap;
    destruct (no_digit_close space depth "}" k eq_refl eq_refl) as [Hnd Hskip];
    simpl in Hx.
  - rewrite parse_members_member.
    + cbn [emit_rest]. rewrite Hskip. reflexivity.
    + apply Hx; [simpl in Hfuel; lia|exact Hnd].
  - rewrite parse_members_member.
    + cbn [emit_rest skip_ws is_ws]. simpl.
      rewrite (IH q space depth inner k fuel Hq); [done| |done].
      simpl in *. lia.
    + apply Hx; [simpl in Hfuel; lia|by apply no_digit_rest].
Qed.

Theorem emit_reads_back v : reads_back v.
Proof.
  induction v as [|b|n|s|xs IH|ps IH] using json_nested_ind;
    intros space depth k fuel Hfuel Hk;
    (destruct fuel as [|fuel]; [simpl in Hfuel; lia|]).
  - reflexivity.
  - destruct b; reflexivity.
  - cbn [emit]. rewrite parse_value_number by apply emit_number_start.
    by rewrite parse_number_emit.
  - cbn [emit]. unfold emit_string. rewrite parse_value_S.
    cbn [skip_ws is_ws]. simpl. by rewrite parse_emit_chars.
  - destruct IH as [|x xs Hx Hxs]; [reflexivity|].
    cbn [emit]. cbv zeta. rewrite parse_value_array.
    + rewrite parse_elements_emit; try done.
      rewrite weight_arr in Hfuel. unfold weight_list in *. lia.
    + rewrite skip_ws_gap, skip_ws_emit. apply emit_start.
  - destruct IH as [|[key x] ps Hx Hps]; [reflexivity|].
    cbn [emit]. cbv zeta. rewrite parse_value_object.
    + match goal with
      | |- context [parse_members fuel ?t] =>
          assert (Hm : parse_members fuel t = Some ((key, x) :: ps, k))
      end.
      { apply (parse_members_emit ps Hps (key, x) space depth (depth + space)%nat
                 k fuel Hx); [|done].
        rewrite weight_obj in Hfuel. unfold weight_members in *. lia. }
      by rewrite Hm.
    + rewrite skip_ws_gap. unfold emit_string. by rewrite skip_ws_dq.
Qed.

End ReferenceRoundTrip.

Module ReferenceLaws.
Import Reference ReferenceFacts ReferenceProofs ReferenceRoundTrip.

Lemma length_pad n k : (String.length k <= String.length (pad n k))%nat.
Proof. induction n; simpl; lia. Qed.

Lemma length_gap space depth k :
  (String.length k <= String.length (gap space depth k))%nat.
Proof.
  destruct space; simpl; [lia|]. pose proof (length_pad depth k). lia.
Qed.

Lemma length_emit_chars s k :
  (String.length k <= String.length (emit_chars s k))%nat.
Proof.
  induction s as [|c s IH]; simpl; [lia|].
  unfold emit_char.
  repeat match goal with |- context [if ?b then _ else _] => destruct b end;
    simpl; lia.
Qed.

Lemma length_append s k :
  String.length (s ++ k) = (String.length s + String.length k)%nat.
Proof.
  induction s as [|c s IH]; [done|].
  change (String c s ++ k) with (String c (s ++ k)). simpl. by rewrite IH.
Qed.

Lemma number_text_nonempty n :
  (1 <= String.length (NilZero.string_of_int (Z.to_int n)))%nat.
Proof.
  destruct n as [|p|p]; simpl; try lia;
    pose proof (Unsigned.to_uint_nonnil p) as Hnn;
    destruct (Pos.to_uint p); simpl; try lia; done.
Qed.

Lemma length_emit v : long_enough v.
Proof.
  induction v as [|b|n|s|xs IH|ps IH] using json_nested_ind;
    intros space depth k.
  - cbn [emit weight]. rewrite length_append. simpl. lia.
  - destruct b; cbn [emit weight]; rewrite length_append; simpl; lia.
  - cbn [emit weight]. unfold emit_number. rewrite length_append.
    pose proof (number_text_nonempty n). lia.
  - cbn [emit weight]. unfold emit_string. simpl.
    pose proof (length_emit_chars s (String dq k)). simpl in *. lia.
  - rewrite weight_arr. destruct IH as [|x xs Hx Hxs]; [simpl; lia|].
    cbn [emit]. cbv zeta. cbn [String.length].
    pose proof (length_gap space (depth + space)
                  (emit space (depth + space) x
                     (emit_rest (fun y => emit space (depth + space) y)
                        (gap space (depth + space))
                        (gap space depth (String "]" k)) xs))) as Hg.
    pose proof (Hx space (depth + space)%nat
                  (emit_rest (fun y => emit space (depth + space) y)
                        (gap space (depth + space))
                        (gap space depth (String "]" k)) xs)) as Hx'.
    assert (Hrest : (weight_list xs + String.length k
                     < String.length
                         (emit_rest (fun y => emit space (depth + space) y)
                            (gap space (depth + space))
                            (gap space depth (String "]" k)) xs))%nat).
    { clear Hg Hx' Hx. induction Hxs as [|y ys Hy Hys IHys]; cbn [emit_rest weight_list fold_right].
      - pose proof (length_gap space depth (String "]" k)). simpl in *. lia.
      - cbn [String.length].
        pose proof (length_gap space (depth + space)
                      (emit space (depth + space) y
                         (emit_rest (fun y => emit space (depth + space) y)
                            (gap space (depth + space))
                            (gap space depth (String "]" k)) ys))).
        pose proof (Hy space (depth + space)%nat
                      (emit_rest (fun y => emit space (depth + space) y)
                            (gap space (depth + space))
                            (gap space depth (String "]" k)) ys)).
        fold (weight_list ys) in *. lia. }
    cbn [weight_list fold_right]. fold (weight_list xs). lia.
  - rewrite weight_obj. destruct IH as [|[key x] ps Hx Hps]; [simpl; lia|].
    cbn [emit]. cbv zeta. cbn [String.length].
    assert (Hmember : forall p cont,
               long_enough (snd p) ->
               (weight (snd p) + String.length cont
                <= String.length (emit_member space (depth + space) p cont))%nat).
    { intros [key' y] cont Hy. cbn [snd] in Hy.
      unfold emit_member, emit_string. cbn [fst snd String.length].
      pose proof (length_emit_chars key'
                    (String dq (colon space (emit space (depth + space) y cont)))) as H1.
      pose proof (Hy space (depth + space)%nat cont) as H2.
      cbn [String.length] in H1.
      assert (String.length (emit space (depth + space) y cont)
              <= String.length (colon space (emit space (depth + space) y cont)))%nat.
      { destruct space; simpl; lia. }
      lia. }
    match goal with
    | |- context [emit_rest ?one ?between ?close ps] =>
        assert (Hrest : (weight_members ps + String.length k
                         < String.length (emit_rest one between close ps))%nat)
    end.
    { clear Hx. induction Hps as [|q qs Hq Hqs IHqs]; cbn [emit_rest weight_members fold_right].
      - pose proof (length_gap space depth (String "}" k)). simpl in *. lia.
      - cbn [String.length].
        match goal with
        | |- context [gap space (depth + space) ?t] =>
            pose proof (length_gap space (depth + space) t);
            match t with
            | context [emit_rest ?one ?between ?close qs] =>
                pose proof (Hmember q (emit_rest one between close qs) Hq) as Hm
            end
        end.
        unfold emit_member in Hm. fold (weight_members qs) in *. lia. }
    match goal with
    | |- context [gap space (depth + space) ?t] =>
        pose proof (length_gap space (depth + space) t);
        match t with
        | context [emit_rest ?one ?between ?close ps] =>
            pose proof (Hmember (key, x) (emit_rest one between close ps) Hx) as Hm
        end
    end.
    unfold emit_member in Hm. cbn [fst snd] in Hm.
    cbn [weight_members fold_right snd]. fold (weight_members ps). lia.
Qed.

Theorem parse_stringify_reference space v : parse (stringify space v) = Some v.
Proof.
  unfold parse, stringify.
  rewrite emit_reads_back; [done| |done].
  pose proof (length_emit v space 0%nat EmptyString). simpl in *. lia.
Qed.

Lemma reference_laws : JSONLaws json_platform.
Proof.
  split.
  - exact parse_stringify_reference.
  - reflexivity.
Qed.

End ReferenceLaws.

(** ** 12. Properties of the storage service *)

Section ReadFacts.
Context {J : Runtime} {LS : WebStorage}.

Lemma getEntries_run (w : World) :
  getEntries w =
    if getItem_throws STORAGE_KEY
    then (Return (JArr []), with_effect w (ConsoleError "Failed to load entries"))
    else if truthy_item (storage w !! STORAGE_KEY)
    then match JSON_parse (default EmptyString (storage w !! STORAGE_KEY)) with
         | Some v => (Return v, w)
         | None => (Return (JArr []),
                    with_effect w (ConsoleError "Failed to load entries"))
         end
    else (Return (JArr []), w).
Proof.
  unfold getEntries, try_catch, bind, getItem, JSON_parse_or_throw, lift,
    console_error, perform, ret.
  destruct (getItem_throws STORAGE_KEY); [done|].
  destruct (truthy_item (storage w !! STORAGE_KEY)); [|done].
  by destruct (JSON_parse _).
Qed.

Lemma getCategories_run (w : World) :
  getCategories w =
    if getItem_throws CATEGORY_STORAGE_KEY
    then (Return default_categories_value, w)
    else if truthy_item (storage w !! CATEGORY_STORAGE_KEY)
    then match JSON_parse (default EmptyString (storage w !! CATEGORY_STORAGE_KEY)) with
         | Some v => (Return v, w)
         | None => (Return default_categories_value, w)
         end
    else if setItem_throws (storage w) CATEGORY_STORAGE_KEY
              (JSON_stringify 0 default_categories_value)
    then (Return default_categories_value, w)
    else (Return default_categories_value,
          with_storage w (<[CATEGORY_STORAGE_KEY :=
                              JSON_stringify 0 default_categories_value]> (storage w))).
Proof.
  unfold getCategories, try_catch, bind, getItem, setItem, JSON_parse_or_throw,
    lift, ret.
  destruct (getItem_throws CATEGORY_STORAGE_KEY); [done|].
  destruct (truthy_item (storage w !! CATEGORY_STORAGE_KEY)).
  - by destruct (JSON_parse _).
  - by destruct (setItem_throws _ _ _).
Qed.

(** A read of the entries returns a value and leaves the storage alone. *)
Lemma getEntries_total (w : World) :
  exists v w', getEntries w = (Return v, w') /\ storage w' = storage w.
Proof.
  rewrite getEntries_run.
  destruct (getItem_throws STORAGE_KEY); [by eexists _, _|].
  destruct (truthy_item _); [|by eexists _, _].
  destruct (JSON_parse _); by eexists _, _.
Qed.

Lemma getCategories_total (w : World) :
  exists v w', getCategories w = (Return v, w').
Proof.
  rewrite getCategories_run.
  repeat match goal with
         | |- context [if ?b then _ else _] => destruct b
         | |- context [match ?o with Some _ => _ | None => _ end] => destruct o
         end; by eexists _, _.
Qed.

(** What a read returns depends on the storage only. *)
Lemma listEntries_storage (w1 w2 : World) :
  storage w1 = storage w2 -> listEntries w1 = listEntries w2.
Proof.
  intros H. unfold listEntries. rewrite !getEntries_run, H.
  destruct (getItem_throws STORAGE_KEY); [done|].
  destruct (truthy_item _); [|done]. by destruct (JSON_parse _).
Qed.

Lemma listCategories_storage (w1 w2 : World) :
  storage w1 = storage w2 -> listCategories w1 = listCategories w2.
Proof.
  intros H. unfold listCategories. rewrite !getCategories_run, H.
  destruct (getItem_throws CATEGORY_STORAGE_KEY); [done|].
  destruct (truthy_item _); [by destruct (JSON_parse _)|].
  by destruct (setItem_throws _ _ _).
Qed.

(** More precisely, on the cell of the collection only. *)
Lemma listEntries_cell (w1 w2 : World) :
  storage w1 !! STORAGE_KEY = storage w2 !! STORAGE_KEY ->
  listEntries w1 = listEntries w2.
Proof.
  intros H. unfold listEntries. rewrite !getEntries_run, H.
  destruct (getItem_throws STORAGE_KEY); [done|].
  destruct (truthy_item _); [|done]. by destruct (JSON_parse _).
Qed.

Lemma listCategories_cell (w1 w2 : World) :
  storage w1 !! CATEGORY_STORAGE_KEY = storage w2 !! CATEGORY_STORAGE_KEY ->
  listCategories w1 = listCategories w2.
Proof.
  intros H. unfold listCategories. rewrite !getCategories_run, H.
  destruct (getItem_throws CATEGORY_STORAGE_KEY); [done|].
  destruct (truthy_item _); [by destruct (JSON_parse _)|].
  by do 2 destruct (setItem_throws _ _ _).
Qed.

Lemma keys_differ : STORAGE_KEY <> CATEGORY_STORAGE_KEY.
Proof. done. Qed.

End ReadFacts.

Section ReadBack.
Context {J : Runtime} {L : JSONLaws J} {LS : WebStorage}.

Lemma stringify_truthy space v :
  truthy_item (Some (JSON_stringify space v)) = true.
Proof.
  simpl. destruct (String.eqb_spec (JSON_stringify space v) EmptyString) as [E|]; [|done].
  pose proof (parse_stringify space v) as H. rewrite E, parse_empty in H. done.
Qed.

(** A cell that holds the text of [v] reads back as [v]; an unreadable
    cell reads as the fallback. *)
Lemma listEntries_written (w : World) space v :
  storage w !! STORAGE_KEY = Some (JSON_stringify space v) ->
  listEntries w = if getItem_throws STORAGE_KEY then Return (JArr []) else Return v.
Proof.
  intros H. unfold listEntries. rewrite getEntries_run, H, stringify_truthy.
  simpl. rewrite parse_stringify. by destruct (getItem_throws _).
Qed.

Lemma listCategories_written (w : World) space v :
  storage w !! CATEGORY_STORAGE_KEY = Some (JSON_stringify space v) ->
  listCategories w
  = if getItem_throws CATEGORY_STORAGE_KEY
    then Return default_categories_value else Return v.
Proof.
  intros H. unfold listCategories. rewrite getCategories_run, H, stringify_truthy.
  simpl. rewrite parse_stringify. by destruct (getItem_throws _).
Qed.

(** A read of the categories leaves a world in which the next read returns
    the same, and does not touch the entries cell. *)
Lemma getCategories_settles (w : World) :
  listCategories (after getCategories w) = listCategories w
  /\ storage (after getCategories w) !! STORAGE_KEY = storage w !! STORAGE_KEY.
Proof.
  unfold after. pose proof (getCategories_run w) as Hrun.
  destruct (getItem_throws CATEGORY_STORAGE_KEY) eqn:Eread;
    [by rewrite Hrun|].
  destruct (truthy_item (storage w !! CATEGORY_STORAGE_KEY)) eqn:Eitem;
    [destruct (JSON_parse _); by rewrite Hrun|].
  destruct (setItem_throws _ _ _) eqn:Ewrite; [by rewrite Hrun|].
  rewrite Hrun. cbn [snd]. split.
  - erewrite listCategories_written;
      [|cbn [storage with_storage]; apply lookup_insert_eq].
    rewrite Eread. unfold listCategories.
    by rewrite getCategories_run, Eread, Eitem, Ewrite.
  - cbn [storage with_storage]. apply lookup_insert_ne. done.
Qed.

End ReadBack.

Section ImportFacts.
Context {J : Runtime} {LS : WebStorage}.

Lemma invalid_backup_spec (v : json) :
  (backup_shaped v -> invalid_backup v = Return false)
  /\ (~ backup_shaped v -> invalid_backup v = Return true).
Proof.
  unfold backup_shaped, invalid_backup.
  destruct v as [|[]|n|s|xs|props]; simpl;
    try (split; [intros (? & ? & ? & ? & _); done|done]).
  - split; [intros (? & ? & ? & ? & _); done|]. by destruct (n =? 0).
  - split; [intros (? & ? & ? & ? & _); done|].
    by destruct (String.eqb s EmptyString).
  - split.
    + intros (props' & es & cs & [= <-] & -> & ->). done.
    + intros Hn. destruct (own_prop "entries" props) as [[| | | |es|]|] eqn:E1; try done.
      destruct (own_prop "categories" props) as [[| | | |cs|]|] eqn:E2; try done.
      destruct Hn. by exists props, es, cs.
Qed.

Lemma backup_shaped_dec (v : json) : backup_shaped v \/ ~ backup_shaped v.
Proof.
  destruct (invalid_backup v) as [[]|] eqn:E.
  - right. intros H. apply invalid_backup_spec in H. congruence.
  - left. destruct v as [|[]|n|s|xs|props]; simpl in E; try done.
    + unfold invalid_backup in E. simpl in E. by destruct (n =? 0).
    + unfold invalid_backup in E. simpl in E. by destruct (String.eqb s EmptyString).
    + unfold invalid_backup in E. simpl in E.
      destruct (own_prop "entries" props) as [[| | | |es|]|] eqn:E1; try done.
      destruct (own_prop "categories" props) as [[| | | |cs|]|] eqn:E2; try done.
      by exists props, es, cs.
  - destruct v as [|[]|n|s|xs|props]; unfold invalid_backup in E; simpl in E; try done.
    + by destruct (n =? 0).
    + by destruct (String.eqb s EmptyString).
    + destruct (own_prop "entries" props) as [[| | | |es|]|]; try done.
Qed.

Lemma importData_unparsed (text : string) (w : World) :
  JSON_parse text = None -> importData text w = (Return false, w).
Proof.
  intros H. unfold importData, try_catch, bind, JSON_parse_or_throw, lift, ret.
  by rewrite H.
Qed.

Lemma importData_rejected (text : string) (v : json) (w : World) :
  JSON_parse text = Some v -> ~ backup_shaped v ->
  importData text w
  = (Return false, with_effect w (ConsoleError "Invalid backup file format")).
Proof.
  intros H Hn. apply invalid_backup_spec in Hn.
  unfold importData, try_catch, bind, JSON_parse_or_throw, lift, console_error,
    perform, ret.
  by rewrite H, Hn.
Qed.

Lemma importData_shaped (text : string) props es cs (w : World) :
  JSON_parse text = Some (JObj props) ->
  own_prop "entries" props = Some (JArr es) ->
  own_prop "categories" props = Some (JArr cs) ->
  importData text w =
    if setItem_throws (storage w) STORAGE_KEY (JSON_stringify 0 (JArr es))
    then (Return false, w)
    else
      let w1 :=
        with_storage w (<[STORAGE_KEY := JSON_stringify 0 (JArr es)]> (storage w)) in
      if setItem_throws (storage w1) CATEGORY_STORAGE_KEY (JSON_stringify 0 (JArr cs))
      then (Return false, w1)
      else
        (Return true,
         with_effect
           (with_effect
              (with_storage w1
                 (<[CATEGORY_STORAGE_KEY := JSON_stringify 0 (JArr cs)]> (storage w1)))
              (DispatchEvent "zenledger-update"))
           (DispatchEvent "zenledger-categories-update")).
Proof.
  intros H He Hc.
  assert (Hv : invalid_backup (JObj props) = Return false).
  { apply invalid_backup_spec. by exists props, es, cs. }
  unfold importData, try_catch, bind, JSON_parse_or_throw, lift, setItem,
    dispatchEvent, perform, ret.
  rewrite H, Hv. cbn [get_prop]. rewrite He, Hc. cbn [stringify_val].
  destruct (setItem_throws (storage w) STORAGE_KEY _); [done|].
  cbn [storage with_storage].
  by destruct (setItem_throws _ CATEGORY_STORAGE_KEY _).
Qed.

End ImportFacts.

Section ImportClaims.
Context {J : Runtime} {LS : WebStorage}.

(** C4. A text that does not parse, or parses to anything but an object
    whose [entries] and [categories] are both arrays, makes [importData]
    return [false] with the storage exactly as it was. *)
Theorem malformed_import_rejected (text : string) (w : World) :
  (JSON_parse text = None
   \/ exists v, JSON_parse text = Some v /\ ~ backup_shaped v) ->
  fst (importData text w) = Return false
  /\ storage (after (importData text) w) = storage w.
Proof.
  unfold after. intros [Hnone|(v & Hv & Hshape)].
  - by rewrite importData_unparsed.
  - by rewrite (importData_rejected text v).
Qed.

(** C5, as the code has it.  [importData] never throws, and when it returns
    [false] either the storage is exactly as it was, or the write of the
    categories was refused after the write of the entries went through: then
    the entries cell holds the imported entries and the categories cell is
    as it was. *)
Theorem failed_import_leaves_entries_written (text : string) (w : World) :
  (exists ok, fst (importData text w) = Return ok)
  /\ (fst (importData text w) = Return false ->
      storage (after (importData text) w) = storage w
      \/ exists props es cs,
           JSON_parse text = Some (JObj props)
           /\ own_prop "entries" props = Some (JArr es)
           /\ own_prop "categories" props = Some (JArr cs)
           /\ setItem_throws (<[STORAGE_KEY := JSON_stringify 0 (JArr es)]> (storage w))
                CATEGORY_STORAGE_KEY (JSON_stringify 0 (JArr cs)) = true
           /\ storage (after (importData text) w)
              = <[STORAGE_KEY := JSON_stringify 0 (JArr es)]> (storage w)
           /\ storage (after (importData text) w) !! CATEGORY_STORAGE_KEY
              = storage w !! CATEGORY_STORAGE_KEY).
Proof.
  unfold after.
  destruct (JSON_parse text) as [v|] eqn:Hparse;
    [|rewrite importData_unparsed by done; split; [by eexists|by left]].
  destruct (backup_shaped_dec v) as [(props & es & cs & -> & He & Hc)|Hn];
    [|rewrite (importData_rejected text v) by done; split; [by eexists|by left]].
  rewrite (importData_shaped text props es cs) by done. cbv zeta.
  destruct (setItem_throws (storage w) STORAGE_KEY _); [split; [by eexists|by left]|].
  cbn [storage with_storage].
  destruct (setItem_throws _ CATEGORY_STORAGE_KEY _) eqn:E2;
    [|split; [by eexists|done]].
  split; [by eexists|]. intros _. right. exists props, es, cs.
  repeat split; try done.
  cbn [snd storage with_storage]. by rewrite lookup_insert_ne by apply keys_differ.
Qed.

(** C9, as the code has it.  Neither read ever throws; when the cell is
    unreadable or holds text that is not JSON, [getEntries] returns the
    empty sequence and [getCategories] returns the eight default
    categories. *)
Theorem read_failures_fall_back (w : World) :
  (exists v, listEntries w = Return v)
  /\ (exists v, listCategories w = Return v)
  /\ (getItem_throws STORAGE_KEY = true
      \/ (exists s, storage w !! STORAGE_KEY = Some s /\ JSON_parse s = None) ->
      listEntries w = Return (JArr []))
  /\ (getItem_throws CATEGORY_STORAGE_KEY = true
      \/ (exists s, storage w !! CATEGORY_STORAGE_KEY = Some s /\ JSON_parse s = None) ->
      listCategories w = Return (categories_value DEFAULT_EXPENSE_CATEGORIES)).
Proof.
  unfold listEntries, listCategories.
  split; [destruct (getEntries_total w) as (v & w' & -> & _); by eexists|].
  split; [destruct (getCategories_total w) as (v & w' & ->); by eexists|].
  rewrite getEntries_run, getCategories_run. split.
  - intros [->|(s & -> & Hs)]; [done|].
    destruct (getItem_throws _); [done|]. simpl.
    destruct (negb _); [by rewrite Hs|done].
  - intros [->|(s & -> & Hs)]; [done|].
    destruct (getItem_throws _); [done|]. simpl.
    destruct (negb _); [by rewrite Hs|]. by destruct (setItem_throws _ _ _).
Qed.

End ImportClaims.

Section RoundTripClaims.
Context {J : Runtime} {L : JSONLaws J} {LS : WebStorage}.

(** C10. Some backup text whose [categories] is the empty array is
    imported, and afterwards [listCategories()] is empty. *)
Theorem import_accepts_empty_categories (w : World) :
  always_readable LS -> always_writable LS ->
  exists text,
    (exists props es,
       JSON_parse text = Some (JObj props)
       /\ own_prop "entries" props = Some (JArr es)
       /\ own_prop "categories" props = Some (JArr []))
    /\ fst (importData text w) = Return true
    /\ listCategories (after (importData text) w) = Return (JArr []).
Proof.
  intros Hread Hwrite.
  set (props := [("entries", JArr []); ("categories", JArr [])]).
  exists (JSON_stringify 0 (JObj props)).
  assert (Hp : JSON_parse (JSON_stringify 0 (JObj props)) = Some (JObj props))
    by apply parse_stringify.
  split; [by exists props, []|].
  unfold after. rewrite (importData_shaped _ props [] []) by done.
  cbv zeta. rewrite !Hwrite. split; [done|].
  cbn [snd]. erewrite listCategories_written.
  - by rewrite Hread.
  - cbn [storage with_effect with_storage]. apply lookup_insert_eq.
Qed.

(** C3. When each collection is a sequence, [exportData] returns a text,
    and after [importData] on that text both reads return what they returned
    before the export; the import returns [true] when the storage accepts
    its writes. *)
Theorem export_import_round_trip (w : World) (es cs : list json) :
  listEntries w = Return (JArr es) ->
  listCategories w = Return (JArr cs) ->
  exists text,
    fst (exportData w) = Return text
    /\ listEntries (after (importData text) (after exportData w)) = listEntries w
    /\ listCategories (after (importData text) (after exportData w)) = listCategories w
    /\ (always_writable LS ->
        fst (importData text (after exportData w)) = Return true).
Proof.
  intros He Hc.
  destruct (getEntries_total w) as (v & w1 & Hget & Hst1).
  assert (v = JArr es) as ->.
  { unfold listEntries in He. rewrite Hget in He. simpl in He. congruence. }
  destruct (getCategories_total w1) as (c & w2 & Hcat).
  assert (Hc1 : listCategories w1 = Return (JArr cs))
    by (by rewrite (listCategories_storage w1 w Hst1)).
  assert (c = JArr cs) as ->.
  { unfold listCategories in Hc1. rewrite Hcat in Hc1. simpl in Hc1. congruence. }
  destruct (getCategories_settles w1) as [Hsettle Hkeep].
  unfold after in Hsettle, Hkeep. rewrite Hcat in Hsettle, Hkeep. cbn [snd] in *.
  set (props := [ ("entries", JArr es); ("categories", JArr cs);
                  ("exportedAt", JStr (clock w2)); ("appName", JStr "ZenLedger");
                  ("version", JNum 1) ]).
  assert (Hexport : exportData w = (Return (JSON_stringify 2 (JObj props)), w2)).
  { unfold exportData, bind, ret. by rewrite Hget, Hcat. }
  exists (JSON_stringify 2 (JObj props)).
  unfold after. rewrite Hexport. cbn [fst snd]. split; [done|].
  rewrite (importData_shaped _ props es cs); [|apply parse_stringify|done|done].
  cbv zeta.
  assert (He2 : listEntries w2 = Return (JArr es)).
  { rewrite (listEntries_cell w2 w1 Hkeep), (listEntries_storage w1 w Hst1). done. }
  assert (Hc2 : listCategories w2 = Return (JArr cs)) by (by rewrite Hsettle).
  assert (Hentries : forall w', storage w' !! STORAGE_KEY
                                = Some (JSON_stringify 0 (JArr es)) ->
                                listEntries w' = Return (JArr es)).
  { intros w' Hcell. rewrite (listEntries_written w' 0 (JArr es) Hcell).
    destruct (getItem_throws STORAGE_KEY) eqn:E; [|done].
    unfold listEntries in He. rewrite getEntries_run, E in He. simpl in He. done. }
  assert (Hcats : forall w', storage w' !! CATEGORY_STORAGE_KEY
                             = Some (JSON_stringify 0 (JArr cs)) ->
                             listCategories w' = Return (JArr cs)).
  { intros w' Hcell. rewrite (listCategories_written w' 0 (JArr cs) Hcell).
    destruct (getItem_throws CATEGORY_STORAGE_KEY) eqn:E; [|done].
    unfold listCategories in Hc. rewrite getCategories_run, E in Hc. simpl in Hc. done. }
  rewrite He, Hc.
  destruct (setItem_throws (storage w2) STORAGE_KEY _) eqn:E1.
  { cbn [fst snd]. split; [done|]. split; [done|].
    intros Hwrite. by rewrite Hwrite in E1. }
  cbn [storage with_storage].
  destruct (setItem_throws _ CATEGORY_STORAGE_KEY _) eqn:E2; cbn [fst snd].
  - split; [apply Hentries; cbn [storage with_storage]; apply lookup_insert_eq|].
    split.
    + rewrite <- Hc2. apply listCategories_cell. cbn [storage with_storage].
      apply lookup_insert_ne, keys_differ.
    + intros Hwrite. by rewrite Hwrite in E2.
  - split.
    + apply Hentries. cbn [storage with_effect with_storage].
      rewrite lookup_insert_ne by (symmetry; apply keys_differ).
      apply lookup_insert_eq.
    + split; [|done]. apply Hcats. cbn [storage with_effect with_storage].
      apply lookup_insert_eq.
Qed.

End RoundTripClaims.

Section TypedCollections.
Context {J : Runtime} {LS : WebStorage}.

Lemma has_id_entry id x :
  has_id id (entry_to_json x) = Return (String.eqb (e_id x) id).
Proof. reflexivity. Qed.

Lemma lacks_id_category id c :
  lacks_id id (category_to_json c) = Return (negb (String.eqb (c_id c) id)).
Proof. reflexivity. Qed.

Lemma findIndex_absent id es i :
  (forall x, In x es -> e_id x <> id) ->
  findIndex_from (has_id id) (map entry_to_json es) i = Return (-1).
Proof.
  revert i. induction es as [|x es IH]; intros i Hno; [done|].
  cbn [map findIndex_from]. rewrite has_id_entry.
  destruct (String.eqb_spec (e_id x) id) as [Heq|_].
  - destruct (Hno x); [by left|done].
  - apply IH. intros y Hy. apply Hno. by right.
Qed.

Lemma findIndex_first id before x rest i :
  (forall y, In y before -> e_id y <> id) -> e_id x = id ->
  findIndex_from (has_id id) (map entry_to_json (before ++ x :: rest)) i
  = Return (i + Z.of_nat (length before)).
Proof.
  revert i. induction before as [|y before IH]; intros i Hno Hx.
  - cbn [app map findIndex_from]. rewrite has_id_entry, Hx, String.eqb_refl.
    f_equal. simpl. lia.
  - cbn [app map findIndex_from]. rewrite has_id_entry.
    destruct (String.eqb_spec (e_id y) id) as [Heq|_].
    + destruct (Hno y); [by left|done].
    + rewrite IH; [|intros z Hz; apply Hno; by right|done].
      f_equal. cbn [length]. lia.
Qed.

Lemma filter_items_categories id cats :
  filter_items (lacks_id id) (map category_to_json cats)
  = Return (map category_to_json (without_id id cats)).
Proof.
  induction cats as [|c cats IH]; [done|].
  cbn [map filter_items without_id List.filter]. rewrite lacks_id_category, IH.
  by destruct (negb _).
Qed.

Lemma insert_middle {A B} (f : A -> B) before x rest y :
  <[length before := f y]> (map f (before ++ x :: rest))
  = map f (before ++ y :: rest).
Proof. induction before as [|b before IH]; simpl; [done|]. by f_equal. Qed.

Lemma delete_map_middle {A B} (f : A -> B) before x rest :
  delete (length before) (map f (before ++ x :: rest)) = map f (before ++ rest).
Proof. induction before as [|b before IH]; simpl; [done|]. by f_equal. Qed.

Lemma without_id_length id cats :
  List.NoDup (map c_id cats) ->
  (length cats <= S (length (without_id id cats)))%nat.
Proof.
  induction cats as [|c cats IH]; intros Hnd; [simpl; lia|].
  cbn [map] in Hnd. apply List.NoDup_cons_iff in Hnd as [Hc Hnd].
  cbn [without_id List.filter length].
  destruct (String.eqb_spec (c_id c) id) as [Heq|Hne]; cbn [negb length].
  - assert (Hall : without_id id cats = cats).
    { unfold without_id. clear IH Hnd. induction cats as [|d cats IHc]; [done|].
      cbn [List.filter].
      destruct (String.eqb_spec (c_id d) id) as [Hd|_]; cbn [negb].
      - destruct Hc. left. congruence.
      - f_equal. apply IHc. intros H. apply Hc. by right. }
    fold (without_id id cats). rewrite Hall. lia.
  - fold (without_id id cats). specialize (IH Hnd). lia.
Qed.

Lemma without_id_NoDup id cats :
  List.NoDup (map c_id cats) -> List.NoDup (map c_id (without_id id cats)).
Proof.
  induction cats as [|c cats IH]; intros Hnd; [done|].
  cbn [map] in Hnd. apply List.NoDup_cons_iff in Hnd as [Hc Hnd].
  cbn [without_id List.filter]. fold (without_id id cats).
  destruct (negb _); [|by apply IH].
  cbn [map]. constructor; [|by apply IH].
  intros Hin. apply Hc. apply in_map_iff in Hin as (d & Hd & Hin).
  apply in_map_iff. exists d. split; [done|].
  unfold without_id in Hin. by apply filter_In in Hin as [? _].
Qed.

Lemma default_ids_NoDup : List.NoDup (map c_id DEFAULT_EXPENSE_CATEGORIES).
Proof.
  simpl. repeat (constructor; [simpl; intuition discriminate|]). constructor.
Qed.

(** The steps of [saveEntry] once the read and the search are known. *)
Lemma saveEntry_run entry w v w1 i new :
  getEntries w = (Return v, w1) ->
  findIndex v (has_id (e_id entry)) = Return i ->
  (if i >? -1
   then Return (array_set v i (entry_to_json entry))
   else array_cons (entry_to_json entry) v) = Return new ->
  setItem_throws (storage w1) STORAGE_KEY (JSON_stringify 0 new) = false ->
  saveEntry entry w
  = (Return tt,
     with_effect
       (with_storage w1 (<[STORAGE_KEY := JSON_stringify 0 new]> (storage w1)))
       (DispatchEvent "zenledger-update")).
Proof.
  intros Hget Hfind Hnew Hset.
  unfold saveEntry, try_catch, bind, lift, setItem, dispatchEvent, perform.
  by rewrite Hget, Hfind, Hnew, Hset.
Qed.

Lemma deleteEntry_absent id w v w1 :
  getEntries w = (Return v, w1) ->
  findIndex v (has_id id) = Return (-1) ->
  deleteEntry id w = (Return tt, if String.eqb id EmptyString then w else w1).
Proof.
  intros Hget Hfind. unfold deleteEntry, bind, lift, ret.
  destruct (String.eqb id EmptyString); [done|]. by rewrite Hget, Hfind.
Qed.

Lemma deleteEntry_run id w items w1 i :
  id <> EmptyString ->
  getEntries w = (Return (JArr items), w1) ->
  findIndex (JArr items) (has_id id) = Return i -> i <> -1 ->
  setItem_throws (storage w1) STORAGE_KEY
    (JSON_stringify 0 (JArr (delete (Z.to_nat i) items))) = false ->
  deleteEntry id w
  = (Return tt,
     with_effect
       (with_storage w1
          (<[STORAGE_KEY := JSON_stringify 0 (JArr (delete (Z.to_nat i) items))]>
             (storage w1)))
       (DispatchEvent "zenledger-update")).
Proof.
  intros Hid Hget Hfind Hi Hset.
  unfold deleteEntry, bind, lift, setItem, dispatchEvent, perform, ret.
  apply String.eqb_neq in Hid. rewrite Hid, Hget, Hfind.
  apply Z.eqb_neq in Hi. rewrite Hi. cbn [negb array_splice1]. by rewrite Hset.
Qed.

Lemma deleteCategory_run id w cats w1 :
  getCategories w = (Return (categories_value cats), w1) ->
  deleteCategory id w =
    if (Z.of_nat (length cats) <=? 1) then (Return tt, w1)
    else if setItem_throws (storage w1) CATEGORY_STORAGE_KEY
              (JSON_stringify 0 (categories_value (without_id id cats)))
    then (Throws, w1)
    else (Return tt,
          with_effect
            (with_storage w1
               (<[CATEGORY_STORAGE_KEY :=
                    JSON_stringify 0 (categories_value (without_id id cats))]>
                  (storage w1)))
            (DispatchEvent "zenledger-categories-update")).
Proof.
  intros Hget.
  unfold deleteCategory, bind, lift, setItem, dispatchEvent, perform, ret.
  rewrite Hget. unfold categories_value. cbn [length_le_1].
  rewrite length_map. destruct (Z.of_nat (length cats) <=? 1); [done|].
  cbn [array_filter]. rewrite filter_items_categories.
  by destruct (setItem_throws _ _ _).
Qed.

End TypedCollections.

Section EntryClaims.
Context {J : Runtime} {L : JSONLaws J} {LS : WebStorage}.

(** C6. With the stored entries [es] and a storage that accepts the
    accesses: if no stored entry has the id of [entry], [saveEntry] leaves
    [entry] followed by [es]; if some do, the first of them is overwritten
    where it stands and the number of entries does not change. *)
Theorem saveEntry_upserts (entry : Entry) (es : list Entry) (w : World) :
  always_readable LS -> always_writable LS ->
  listEntries w = Return (entries_value es) ->
  ((forall x, In x es -> e_id x <> e_id entry) ->
   listEntries (after (saveEntry entry) w) = Return (entries_value (entry :: es)))
  /\ (forall before x rest,
        es = (before ++ x :: rest)%list ->
        (forall y, In y before -> e_id y <> e_id entry) ->
        e_id x = e_id entry ->
        listEntries (after (saveEntry entry) w)
        = Return (entries_value (before ++ entry :: rest))
        /\ length (before ++ entry :: rest) = length es).
Proof.
  intros Hread Hwrite Hlist.
  destruct (getEntries_total w) as (v & w1 & Hget & Hst).
  assert (v = entries_value es) as ->.
  { unfold listEntries in Hlist. rewrite Hget in Hlist. simpl in Hlist. congruence. }
  split.
  - intros Hno. unfold after.
    erewrite (saveEntry_run entry w _ w1 (-1));
      [|exact Hget|by apply findIndex_absent|reflexivity|apply Hwrite].
    cbn [snd]. erewrite listEntries_written.
    + by rewrite Hread.
    + cbn [storage with_effect with_storage]. apply lookup_insert_eq.
  - intros before x rest -> Hno Hx. split; [|by rewrite !length_app].
    unfold after.
    erewrite (saveEntry_run entry w _ w1 (0 + Z.of_nat (length before)));
      [|exact Hget|by apply findIndex_first| |apply Hwrite].
    + cbn [snd]. erewrite listEntries_written.
      * by rewrite Hread.
      * cbn [storage with_effect with_storage]. apply lookup_insert_eq.
    + assert (Hgt : (0 + Z.of_nat (length before) >? -1) = true)
        by (apply Z.gtb_lt; lia).
      rewrite Hgt.
      unfold entries_value, array_set. rewrite Z.add_0_l, Nat2Z.id.
      by rewrite insert_middle.
Qed.

(** C7, as the code has it.  With the stored entries [es]: deleting an id
    that no entry has returns normally and changes nothing; deleting the
    empty id returns at once and changes nothing; deleting a non-empty id
    that some entry has removes the first such entry and keeps the others in
    their order. *)
Theorem deleteEntry_removes_first (id : string) (es : list Entry) (w : World) :
  listEntries w = Return (entries_value es) ->
  ((forall x, In x es -> e_id x <> id) ->
   fst (deleteEntry id w) = Return tt
   /\ storage (after (deleteEntry id) w) = storage w
   /\ listEntries (after (deleteEntry id) w) = Return (entries_value es))
  /\ (id = EmptyString -> deleteEntry id w = (Return tt, w))
  /\ (id <> EmptyString -> always_readable LS -> always_writable LS ->
      forall before x rest,
        es = (before ++ x :: rest)%list ->
        (forall y, In y before -> e_id y <> id) ->
        e_id x = id ->
        fst (deleteEntry id w) = Return tt
        /\ listEntries (after (deleteEntry id) w)
           = Return (entries_value (before ++ rest))).
Proof.
  intros Hlist.
  destruct (getEntries_total w) as (v & w1 & Hget & Hst).
  assert (v = entries_value es) as ->.
  { unfold listEntries in Hlist. rewrite Hget in Hlist. simpl in Hlist. congruence. }
  split; [|split].
  - intros Hno. unfold after.
    rewrite (deleteEntry_absent id w _ w1 Hget) by (by apply findIndex_absent).
    cbn [fst snd].
    assert (Hsame : storage (if String.eqb id EmptyString then w else w1) = storage w)
      by (by destruct (String.eqb id EmptyString)).
    split; [done|]. split; [done|].
    by rewrite (listEntries_storage _ w Hsame).
  - intros ->. reflexivity.
  - intros Hid Hread Hwrite before x rest -> Hno Hx. unfold after.
    rewrite (deleteEntry_run id w _ w1 (0 + Z.of_nat (length before)) Hid Hget);
      [|by apply findIndex_first|lia|apply Hwrite].
    cbn [fst snd]. split; [done|].
    erewrite listEntries_written;
      [|cbn [storage with_effect with_storage]; apply lookup_insert_eq].
    rewrite Hread. rewrite Z.add_0_l, Nat2Z.id.
    unfold entries_value. by rewrite delete_map_middle.
Qed.

End EntryClaims.

Section CategoryClaims.
Context {J : Runtime} {L : JSONLaws J} {LS : WebStorage}.

(** Under the invariant a read returns a non-empty list of categories with
    different ids and keeps the invariant. *)
Lemma getCategories_inv (w : World) :
  categories_inv w ->
  exists cats w1,
    getCategories w = (Return (categories_value cats), w1)
    /\ cats <> [] /\ List.NoDup (map c_id cats) /\ categories_inv w1.
Proof.
  intros Hinv. rewrite getCategories_run. unfold categories_inv in Hinv.
  destruct (getItem_throws CATEGORY_STORAGE_KEY).
  { exists DEFAULT_EXPENSE_CATEGORIES, w.
    split; [done|]. split; [done|]. split; [apply default_ids_NoDup|exact Hinv]. }
  destruct (storage w !! CATEGORY_STORAGE_KEY) as [s|] eqn:E.
  - destruct Hinv as (cats & -> & Hne & Hnd).
    rewrite stringify_truthy. simpl. rewrite parse_stringify.
    exists cats, w. repeat split; try done.
    unfold categories_inv. rewrite E. by exists cats.
  - cbn [truthy_item]. destruct (setItem_throws _ _ _).
    + exists DEFAULT_EXPENSE_CATEGORIES, w.
      split; [done|]. split; [done|]. split; [apply default_ids_NoDup|].
      unfold categories_inv. by rewrite E.
    + eexists DEFAULT_EXPENSE_CATEGORIES, _.
      split; [done|]. split; [done|]. split; [apply default_ids_NoDup|].
      unfold categories_inv. cbn [storage with_storage]. rewrite lookup_insert_eq.
      exists DEFAULT_EXPENSE_CATEGORIES.
      split; [done|]. split; [done|apply default_ids_NoDup].
Qed.

Lemma deleteCategory_inv (id : string) (w : World) :
  categories_inv w -> categories_inv (after (deleteCategory id) w).
Proof.
  intros Hinv. destruct (getCategories_inv w Hinv) as (cats & w1 & Hget & Hne & Hnd & Hinv1).
  unfold after. rewrite (deleteCategory_run id w cats w1 Hget).
  destruct (Z.leb_spec (Z.of_nat (length cats)) 1) as [Hle|Hgt]; [done|].
  destruct (setItem_throws _ _ _); [done|].
  unfold categories_inv. cbn [snd storage with_effect with_storage].
  rewrite lookup_insert_eq. exists (without_id id cats).
  split; [done|]. split; [|by apply without_id_NoDup].
  pose proof (without_id_length id cats Hnd) as Hlen.
  intros Hnil. rewrite Hnil in Hlen. simpl in Hlen. lia.
Qed.

Lemma delete_categories_inv (ids : list string) (w : World) :
  categories_inv w -> categories_inv (delete_categories ids w).
Proof.
  revert w. induction ids as [|id ids IH]; intros w Hinv; [done|].
  apply IH. by apply deleteCategory_inv.
Qed.

(** C8. When the categories key is absent the first read returns the eight
    default categories; from there, after any run of [deleteCategory] calls,
    [listCategories()] holds at least one category.  In any world,
    [deleteCategory] does nothing when the collection holds exactly one
    element, and when the number of categories stored is not one it leaves
    the categories whose id is not the given one. *)
Theorem category_floor :
  (forall (w0 : World) (ids : list string),
     storage w0 !! CATEGORY_STORAGE_KEY = None ->
     listCategories w0 = Return (categories_value DEFAULT_EXPENSE_CATEGORIES)
     /\ length DEFAULT_EXPENSE_CATEGORIES = 8%nat
     /\ exists cs,
          listCategories (delete_categories ids (after getCategories w0))
          = Return (JArr cs)
          /\ (1 <= length cs)%nat)
  /\ (forall (w : World) (c : json) (id : string),
        listCategories w = Return (JArr [c]) ->
        deleteCategory id w = (Return tt, w))
  /\ (forall (w : World) (cats : list Category) (id : string),
        always_readable LS -> always_writable LS ->
        listCategories w = Return (categories_value cats) ->
        length cats <> 1%nat ->
        listCategories (after (deleteCategory id) w)
        = Return (categories_value (without_id id cats))).
Proof.
  split; [|split].
  - intros w0 ids Habsent. split; [|split; [done|]].
    + unfold listCategories. rewrite getCategories_run, Habsent. cbn [truthy_item].
      destruct (getItem_throws _); [done|]. by destruct (setItem_throws _ _ _).
    + assert (Hinv0 : categories_inv w0) by (unfold categories_inv; by rewrite Habsent).
      destruct (getCategories_inv w0 Hinv0) as (c0 & w1 & Hget0 & _ & _ & Hinv1).
      unfold after. rewrite Hget0. cbn [snd].
      pose proof (delete_categories_inv ids w1 Hinv1) as Hinv2.
      destruct (getCategories_inv _ Hinv2) as (cats & w3 & Hget & Hne & _ & _).
      exists (map category_to_json cats). unfold listCategories. rewrite Hget.
      split; [done|]. rewrite length_map. destruct cats; [done|simpl; lia].
  - intros w c id Hlist. unfold listCategories in Hlist.
    rewrite getCategories_run in Hlist.
    assert (Hget : getCategories w = (Return (JArr [c]), w)).
    { rewrite getCategories_run.
      destruct (getItem_throws _); [done|].
      destruct (truthy_item _).
      - destruct (JSON_parse _); [|done]. simpl in Hlist. congruence.
      - by destruct (setItem_throws _ _ _). }
    unfold deleteCategory, bind, lift, ret. by rewrite Hget.
  - intros w cats id Hread Hwrite Hlist Hlen.
    destruct (getCategories_total w) as (v & w1 & Hget).
    assert (v = categories_value cats) as ->.
    { unfold listCategories in Hlist. rewrite Hget in Hlist. simpl in Hlist. congruence. }
    unfold after. rewrite (deleteCategory_run id w cats w1 Hget).
    destruct (Z.leb_spec (Z.of_nat (length cats)) 1) as [Hle|Hgt].
    + assert (cats = []) as -> by (destruct cats as [|? [|? ?]]; simpl in *; [done|lia|lia]).
      cbn [snd without_id List.filter]. rewrite <- Hlist.
      apply listCategories_storage.
      rewrite getCategories_run in Hget.
      destruct (getItem_throws _); [by injection Hget as _ <-|].
      destruct (truthy_item _).
      * destruct (JSON_parse _); by injection Hget as _ <-.
      * destruct (setItem_throws _ _ _); [by injection Hget as _ <-|].
        by injection Hget as Hv _.
    + rewrite Hwrite. cbn [snd]. erewrite listCategories_written.
      * by rewrite Hread.
      * cbn [storage with_effect with_storage]. apply lookup_insert_eq.
Qed.

End CategoryClaims.

(** ** 13. The store on the reference platform *)

Section ReferenceRuns.
Import Reference Fixtures.

Lemma ideal_readable : always_readable ideal_storage.
Proof. intros k. reflexivity. Qed.

Lemma ideal_writable : always_writable ideal_storage.
Proof. intros m k v. reflexivity. Qed.

(** The aggregation example of the specification: May 2024, expenses. *)
Example aggregation_may_2024 :
  @dataByCategory
    (@filteredEntries date_platform float
       [costing 30 lunch; costing 20 dinner; costing 10 bus; costing 500 salary]
       (LocalDate 2024 4 1) tab_expense)
  = [ mkStatGroup "food" 50 "#6366f1"; mkStatGroup "transit" 10 "#ec4899" ]
  /\ @totalAmount
       (@filteredEntries date_platform float
          [costing 30 lunch; costing 20 dinner; costing 10 bus; costing 500 salary]
          (LocalDate 2024 4 1) tab_expense) = 60%float.
Proof. split; reflexivity. Qed.

(** The sums are sums of doubles: 0.1, 0.2 and 0.3 add up to
    0.6000000000000001, and 1 added to 2^53 is lost, so that the two
    categories below tie and keep their order of first occurrence. *)
Example aggregation_adds_doubles :
  @dataByCategory
    (@filteredEntries date_platform float
       [costing 0.1 lunch; costing 0.2 dinner; costing 0.3 snack]
       (LocalDate 2024 4 1) tab_expense)
  = [ mkStatGroup "food" 0.6000000000000001 "#6366f1" ]
  /\ @dataByCategory
       (@filteredEntries date_platform float
          [costing 0x1p53 bus; costing 0x1p53 lunch; costing 1 dinner]
          (LocalDate 2024 4 1) tab_expense)
     = [ mkStatGroup "transit" 0x1p53 "#6366f1"; mkStatGroup "food" 0x1p53 "#ec4899" ].
Proof. split; reflexivity. Qed.



(** C2 at an entry dated 2024-04-30, read as a calendar date, for May 2024. *)
Lemma filtered_iff_month_and_type_witness :
  ~ In april_entry
      (@filteredEntries date_platform Z [april_entry] (LocalDate 2024 4 1) tab_expense).
Proof.
  apply (proj2 (@filtered_iff_month_and_type date_platform Z
                  [april_entry] (LocalDate 2024 4 1) tab_expense)
           april_entry 1); reflexivity.
Defined.

(** C3 on the reference platform, over two stored entries and no categories
    cell. *)
Lemma export_import_round_trip_witness :
  exists text,
    fst (@exportData json_platform ideal_storage (world_with_entries [lunch; dinner]))
    = Return text
    /\ @listEntries json_platform ideal_storage
         (after (@importData json_platform ideal_storage text)
            (after (@exportData json_platform ideal_storage)
               (world_with_entries [lunch; dinner])))
       = @listEntries json_platform ideal_storage (world_with_entries [lunch; dinner])
    /\ @listCategories json_platform ideal_storage
         (after (@importData json_platform ideal_storage text)
            (after (@exportData json_platform ideal_storage)
               (world_with_entries [lunch; dinner])))
       = @listCategories json_platform ideal_storage (world_with_entries [lunch; dinner])
    /\ fst (@importData json_platform ideal_storage text
              (after (@exportData json_platform ideal_storage)
                 (world_with_entries [lunch; dinner]))) = Return true.
Proof.
  destruct (@export_import_round_trip json_platform ReferenceLaws.reference_laws
              ideal_storage (world_with_entries [lunch; dinner])
              (map entry_to_json [lunch; dinner])
              (map category_to_json DEFAULT_EXPENSE_CATEGORIES)
              ltac:(vm_compute; reflexivity) ltac:(vm_compute; reflexivity))
    as (text & Hexport & Hentries & Hcats & Hok).
  exists text. repeat split; try assumption. exact (Hok ideal_writable).
Defined.

(** C4 on the text [{"foo":1}]. *)
Lemma malformed_import_rejected_witness :
  fst (@importData json_platform ideal_storage foo_text blank_world) = Return false
  /\ storage (after (@importData json_platform ideal_storage foo_text) blank_world)
     = storage blank_world.
Proof.
  apply (@malformed_import_rejected json_platform ideal_storage foo_text blank_world).
  right. exists (JObj [("foo", JNum 1)]). split.
  - vm_compute. reflexivity.
  - intros (props & es & cs & Heq & He & _). injection Heq as <-.
    vm_compute in He. discriminate.
Defined.

(** C5, as the code has it, on the backup that does not fit the quota. *)
Lemma failed_import_leaves_entries_written_witness :
  storage (after (@importData json_platform (quota_storage 300) backup_text) blank_world)
  = storage blank_world
  \/ exists props es cs,
       parse backup_text = Some (JObj props)
       /\ own_prop "entries" props = Some (JArr es)
       /\ own_prop "categories" props = Some (JArr cs)
       /\ @setItem_throws (quota_storage 300)
            (<[STORAGE_KEY := stringify 0 (JArr es)]> (storage blank_world))
            CATEGORY_STORAGE_KEY (stringify 0 (JArr cs)) = true
       /\ storage (after (@importData json_platform (quota_storage 300) backup_text)
                     blank_world)
          = <[STORAGE_KEY := stringify 0 (JArr es)]> (storage blank_world)
       /\ storage (after (@importData json_platform (quota_storage 300) backup_text)
                     blank_world) !! CATEGORY_STORAGE_KEY
          = storage blank_world !! CATEGORY_STORAGE_KEY.
Proof.
  apply (proj2 (@failed_import_leaves_entries_written json_platform (quota_storage 300)
                  backup_text blank_world)).
  vm_compute. reflexivity.
Defined.

(** Counterexample to C5 as stated: within a quota of 300 characters the
    entries of the backup fit and its categories do not; the import returns
    [false], the entries collection is the imported one and the categories
    collection is as it was, not the imported one. *)
Lemma import_not_atomic_counterexample :
  fst (@importData json_platform (quota_storage 300) backup_text blank_world)
  = Return false
  /\ @listEntries json_platform (quota_storage 300) blank_world = Return (JArr [])
  /\ @listEntries json_platform (quota_storage 300)
       (after (@importData json_platform (quota_storage 300) backup_text) blank_world)
     = Return (entries_value [lunch])
  /\ @listCategories json_platform (quota_storage 300) blank_world = Return (JArr [])
  /\ @listCategories json_platform (quota_storage 300)
       (after (@importData json_platform (quota_storage 300) backup_text) blank_world)
     = Return (JArr [])
  /\ JArr [] <> categories_value DEFAULT_EXPENSE_CATEGORIES.
Proof.
  split; [vm_compute; reflexivity|]. split; [vm_compute; reflexivity|].
  split; [vm_compute; reflexivity|]. split; [vm_compute; reflexivity|].
  split; [vm_compute; reflexivity|]. discriminate.
Qed.

(** C6 for an entry whose id is new. *)
Lemma saveEntry_upserts_witness :
  @listEntries json_platform ideal_storage
    (after (@saveEntry json_platform ideal_storage lunch) (world_with_entries [dinner; bus]))
  = Return (entries_value [lunch; dinner; bus]).
Proof.
  apply (proj1 (@saveEntry_upserts json_platform ReferenceLaws.reference_laws ideal_storage lunch [dinner; bus]
                  (world_with_entries [dinner; bus])
                  ideal_readable ideal_writable ltac:(vm_compute; reflexivity))).
  intros x [<-|[<-|[]]]; discriminate.
Defined.

(** C7, as the code has it, for the id of the second of three entries. *)
Lemma deleteEntry_removes_first_witness :
  fst (@deleteEntry json_platform ideal_storage "e2" (world_with_entries [lunch; dinner; bus]))
  = Return tt
  /\ @listEntries json_platform ideal_storage
       (after (@deleteEntry json_platform ideal_storage "e2")
          (world_with_entries [lunch; dinner; bus]))
     = Return (entries_value [lunch; bus]).
Proof.
  apply (proj2 (proj2 (@deleteEntry_removes_first json_platform ReferenceLaws.reference_laws ideal_storage "e2"
                         [lunch; dinner; bus] (world_with_entries [lunch; dinner; bus])
                         ltac:(vm_compute; reflexivity)))
           ltac:(discriminate) ideal_readable ideal_writable [lunch] dinner [bus]).
  - reflexivity.
  - intros y [<-|[]]. discriminate.
  - reflexivity.
Defined.

(** Counterexample to C7 as stated: a backup brings in an entry whose id
    is the empty string; that id is then the id of a stored entry, and
    deleting it removes nothing. *)
Lemma deleteEntry_blank_id_counterexample :
  fst (@importData json_platform ideal_storage blank_id_backup empty_world) = Return true
  /\ @listEntries json_platform ideal_storage
       (after (@importData json_platform ideal_storage blank_id_backup) empty_world)
     = Return (entries_value [blank_id_entry])
  /\ In blank_id_entry [blank_id_entry]
  /\ @listEntries json_platform ideal_storage
       (after (@deleteEntry json_platform ideal_storage (e_id blank_id_entry))
          (after (@importData json_platform ideal_storage blank_id_backup) empty_world))
     = Return (entries_value [blank_id_entry])
  /\ entries_value [blank_id_entry] <> entries_value [].
Proof.
  split; [vm_compute; reflexivity|]. split; [vm_compute; reflexivity|].
  split; [by left|]. split; [vm_compute; reflexivity|]. discriminate.
Qed.

(** C8 for a run that deletes every default id, the last one twice. *)
Lemma category_floor_witness :
  @listCategories json_platform ideal_storage empty_world
  = Return (categories_value DEFAULT_EXPENSE_CATEGORIES)
  /\ length DEFAULT_EXPENSE_CATEGORIES = 8%nat
  /\ exists cs,
       @listCategories json_platform ideal_storage
         (@delete_categories json_platform ideal_storage
            ["1"; "2"; "3"; "4"; "5"; "6"; "7"; "8"; "8"]
            (after (@getCategories json_platform ideal_storage) empty_world))
       = Return (JArr cs)
       /\ (1 <= length cs)%nat.
Proof.
  apply (proj1 (@category_floor json_platform ReferenceLaws.reference_laws ideal_storage) empty_world
           ["1"; "2"; "3"; "4"; "5"; "6"; "7"; "8"; "8"]).
  vm_compute. reflexivity.
Defined.

(** C9, as the code has it, over a categories cell that is not JSON. *)
Lemma read_failures_fall_back_witness :
  @listCategories json_platform ideal_storage corrupt_world
  = Return (categories_value DEFAULT_EXPENSE_CATEGORIES).
Proof.
  apply (proj2 (proj2 (proj2 (@read_failures_fall_back json_platform ideal_storage
                                corrupt_world)))).
  right. exists "{oops". split; vm_compute; reflexivity.
Defined.

(** Counterexample to C9 as stated: over a categories cell that is not JSON,
    [getCategories] returns the eight defaults, not the empty sequence. *)
Lemma corrupt_categories_counterexample :
  storage corrupt_world !! CATEGORY_STORAGE_KEY = Some "{oops"
  /\ parse "{oops" = None
  /\ @listCategories json_platform ideal_storage corrupt_world
     = Return (categories_value DEFAULT_EXPENSE_CATEGORIES)
  /\ @listCategories json_platform ideal_storage corrupt_world <> Return (JArr []).
Proof.
  split; [vm_compute; reflexivity|]. split; [vm_compute; reflexivity|].
  split; [vm_compute; reflexivity|]. vm_compute. discriminate.
Qed.

(** C10 on the reference platform. *)
Lemma import_accepts_empty_categories_witness :
  exists text,
    (exists props es,
       parse text = Some (JObj props)
       /\ own_prop "entries" props = Some (JArr es)
       /\ own_prop "categories" props = Some (JArr []))
    /\ fst (@importData json_platform ideal_storage text blank_world) = Return true
    /\ @listCategories json_platform ideal_storage
         (after (@importData json_platform ideal_storage text) blank_world)
       = Return (JArr []).
Proof.
  exact (@import_accepts_empty_categories json_platform ReferenceLaws.reference_laws ideal_storage blank_world
           ideal_readable ideal_writable).
Defined.

(** The text [{"foo":1}] is what the writer prints for that object, and it
    reads back. *)
Example foo_text_is_json :
  stringify 0 (JObj [("foo", JNum 1)]) = foo_text
  /\ parse foo_text = Some (JObj [("foo", JNum 1)]).
Proof. split; reflexivity. Qed.

(** The import of C10 on the text [{"entries":[],"categories":[]}]. *)
Example empty_backup_imported :
  fst (@importData json_platform ideal_storage empty_backup_text empty_world) = Return true
  /\ @listCategories json_platform ideal_storage
       (after (@importData json_platform ideal_storage empty_backup_text) empty_world)
     = Return (JArr []).
Proof. split; vm_compute; reflexivity. Qed.

End ReferenceRuns.

(** ** 14. More properties of the storage service *)

Section QuietReads.
Context {J : Runtime} {LS : WebStorage}.

Lemma dispatched_app (t1 t2 : list effect) :
  dispatched (t1 ++ t2) = (dispatched t1 ++ dispatched t2)%list.
Proof. unfold dispatched. by rewrite flat_map_app. Qed.

Lemma alerted_app (t1 t2 : list effect) :
  alerted (t1 ++ t2) = (alerted t1 ++ alerted t2)%list.
Proof. unfold alerted. by rewrite flat_map_app. Qed.

(** A read of the entries returns, writes nothing, dispatches and alerts
    nothing. *)
Lemma getEntries_quiet (w : World) :
  exists v w1,
    getEntries w = (Return v, w1)
    /\ storage w1 = storage w
    /\ clock w1 = clock w
    /\ dispatched (trace w1) = dispatched (trace w)
    /\ alerted (trace w1) = alerted (trace w).
Proof.
  rewrite getEntries_run.
  assert (Hlog : forall msg,
             dispatched (trace (with_effect w (ConsoleError msg))) = dispatched (trace w)
             /\ alerted (trace (with_effect w (ConsoleError msg))) = alerted (trace w)).
  { intros msg. cbn [trace with_effect]. rewrite dispatched_app, alerted_app.
    simpl. by rewrite !app_nil_r. }
  destruct (getItem_throws STORAGE_KEY);
    [eexists _, _; split; [done|]; split; [done|]; split; [done|apply Hlog]|].
  destruct (truthy_item _); [|by eexists _, _].
  destruct (JSON_parse _); [by eexists _, _|].
  eexists _, _; split; [done|]; split; [done|]; split; [done|apply Hlog].
Qed.

(** A read of the categories returns, leaves the trace and the entries cell
    alone. *)
Lemma getCategories_quiet (w : World) :
  exists v w1,
    getCategories w = (Return v, w1)
    /\ trace w1 = trace w
    /\ clock w1 = clock w
    /\ storage w1 !! STORAGE_KEY = storage w !! STORAGE_KEY.
Proof.
  rewrite getCategories_run.
  destruct (getItem_throws CATEGORY_STORAGE_KEY); [by eexists _, _|].
  destruct (truthy_item _); [destruct (JSON_parse _); by eexists _, _|].
  destruct (setItem_throws _ _ _); [by eexists _, _|].
  eexists _, _. split; [done|]. split; [done|]. split; [done|].
  cbn [storage with_storage]. by apply lookup_insert_ne.
Qed.

End QuietReads.

Section ListFacts.

Lemma has_entry_id_false id es :
  has_entry_id id es = false <-> (forall x, In x es -> e_id x <> id).
Proof.
  unfold has_entry_id. induction es as [|y es IH]; simpl; [by split|].
  rewrite orb_false_iff, IH, String.eqb_neq. split.
  - intros [Hy Hes] x [<-|Hx]; [done|by apply Hes].
  - intros H. split; [apply H; by left|]. intros x Hx. apply H. by right.
Qed.

Lemma has_entry_id_true id es :
  has_entry_id id es = true <-> exists x, In x es /\ e_id x = id.
Proof.
  unfold has_entry_id. rewrite existsb_exists. split.
  - intros (x & Hx & Heq). apply String.eqb_eq in Heq. by exists x.
  - intros (x & Hx & Heq). exists x. split; [done|]. by apply String.eqb_eq.
Qed.

(** Either no entry has the id, or the list splits at the first that has. *)
Lemma first_id_split id es :
  if has_entry_id id es
  then exists before x rest,
         es = (before ++ x :: rest)%list
         /\ (forall y, In y before -> e_id y <> id) /\ e_id x = id
  else forall x, In x es -> e_id x <> id.
Proof.
  destruct (has_entry_id id es) eqn:E; [|by apply has_entry_id_false].
  induction es as [|y es IH]; [done|].
  unfold has_entry_id in E. simpl in E.
  destruct (String.eqb_spec (e_id y) id) as [Hy|Hy].
  - exists [], y, es. by repeat split.
  - destruct (IH E) as (before & x & rest & -> & Hno & Hx).
    exists (y :: before), x, rest. repeat split; [|done].
    intros z [<-|Hz]; [done|by apply Hno].
Qed.

Lemma replace_first_split entry before x rest :
  (forall y, In y before -> e_id y <> e_id entry) -> e_id x = e_id entry ->
  replace_first entry (before ++ x :: rest) = (before ++ entry :: rest)%list.
Proof.
  intros Hno Hx. induction before as [|y before IH]; simpl.
  - by rewrite Hx, String.eqb_refl.
  - destruct (String.eqb_spec (e_id y) (e_id entry)) as [Hy|_].
    + destruct (Hno y); [by left|done].
    + f_equal. apply IH. intros z Hz. apply Hno. by right.
Qed.

Lemma replace_first_absent entry es :
  (forall x, In x es -> e_id x <> e_id entry) -> replace_first entry es = es.
Proof.
  induction es as [|y es IH]; intros Hno; simpl; [done|].
  destruct (String.eqb_spec (e_id y) (e_id entry)) as [Hy|_].
  - destruct (Hno y); [by left|done].
  - f_equal. apply IH. intros z Hz. apply Hno. by right.
Qed.

Lemma replace_first_length entry es : length (replace_first entry es) = length es.
Proof.
  induction es as [|y es IH]; simpl; [done|].
  destruct (String.eqb _ _); simpl; congruence.
Qed.

Lemma replace_first_ids entry es :
  map e_id (replace_first entry es) = map e_id es.
Proof.
  induction es as [|y es IH]; simpl; [done|].
  destruct (String.eqb_spec (e_id y) (e_id entry)) as [Hy|Hy]; simpl; congruence.
Qed.

Lemma remove_first_split id before x rest :
  (forall y, In y before -> e_id y <> id) -> e_id x = id ->
  remove_first id (before ++ x :: rest) = (before ++ rest)%list.
Proof.
  intros Hno Hx. induction before as [|y before IH]; simpl.
  - by rewrite Hx, String.eqb_refl.
  - destruct (String.eqb_spec (e_id y) id) as [Hy|_].
    + destruct (Hno y); [by left|done].
    + f_equal. apply IH. intros z Hz. apply Hno. by right.
Qed.

Lemma remove_first_absent id es :
  (forall x, In x es -> e_id x <> id) -> remove_first id es = es.
Proof.
  induction es as [|y es IH]; intros Hno; simpl; [done|].
  destruct (String.eqb_spec (e_id y) id) as [Hy|_].
  - destruct (Hno y); [by left|done].
  - f_equal. apply IH. intros z Hz. apply Hno. by right.
Qed.

Lemma upsert_has_id entry es : has_entry_id (e_id entry) (upsert entry es) = true.
Proof.
  unfold upsert. destruct (has_entry_id (e_id entry) es) eqn:E.
  - induction es as [|y es IH]; [done|].
    unfold has_entry_id in *. simpl in *.
    destruct (String.eqb_spec (e_id y) (e_id entry)) as [Hy|Hy]; simpl.
    + by rewrite String.eqb_refl.
    + apply String.eqb_neq in Hy. rewrite Hy. simpl. by apply IH.
  - unfold has_entry_id. simpl. by rewrite String.eqb_refl.
Qed.

Lemma replace_first_idem entry es :
  replace_first entry (replace_first entry es) = replace_first entry es.
Proof.
  induction es as [|y es IH]; simpl; [done|].
  destruct (String.eqb_spec (e_id y) (e_id entry)) as [Hy|Hy]; simpl.
  - by rewrite String.eqb_refl.
  - apply String.eqb_neq in Hy. rewrite Hy. by f_equal.
Qed.

Lemma upsert_idem entry es : upsert entry (upsert entry es) = upsert entry es.
Proof.
  unfold upsert at 1. rewrite upsert_has_id. unfold upsert.
  destruct (has_entry_id (e_id entry) es); [apply replace_first_idem|].
  simpl. by rewrite String.eqb_refl.
Qed.

Lemma remove_first_upsert entry es :
  has_entry_id (e_id entry) es = false ->
  remove_first (e_id entry) (upsert entry es) = es.
Proof.
  intros H. unfold upsert. rewrite H. simpl. by rewrite String.eqb_refl.
Qed.

End ListFacts.

Section TypedRuns.
Context {J : Runtime} {LS : WebStorage}.

(** The typed collection a read returns, with the world the read leaves. *)
Lemma getEntries_typed (w : World) (es : list Entry) :
  listEntries w = Return (entries_value es) ->
  exists w1,
    getEntries w = (Return (entries_value es), w1)
    /\ storage w1 = storage w
    /\ clock w1 = clock w
    /\ dispatched (trace w1) = dispatched (trace w)
    /\ alerted (trace w1) = alerted (trace w).
Proof.
  intros Hlist. destruct (getEntries_quiet w) as (v & w1 & Hget & Hrest).
  exists w1. split; [|exact Hrest].
  unfold listEntries in Hlist. rewrite Hget in Hlist. simpl in Hlist. congruence.
Qed.

(** What [saveEntry] does over a typed collection: it never throws; a
    refused write raises the alert, an accepted one stores the upserted list
    and dispatches the update event. *)
Lemma saveEntry_world (entry : Entry) (es : list Entry) (w : World) :
  listEntries w = Return (entries_value es) ->
  exists w1,
    storage w1 = storage w
    /\ dispatched (trace w1) = dispatched (trace w)
    /\ alerted (trace w1) = alerted (trace w)
    /\ saveEntry entry w =
         if setItem_throws (storage w) STORAGE_KEY
              (JSON_stringify 0 (entries_value (upsert entry es)))
         then (Return tt,
               with_effect w1 (Alert "Failed to save entry. Storage might be full."))
         else (Return tt,
               with_effect
                 (with_storage w1
                    (<[STORAGE_KEY := JSON_stringify 0 (entries_value (upsert entry es))]>
                       (storage w)))
                 (DispatchEvent "zenledger-update")).
Proof.
  intros Hlist.
  destruct (getEntries_typed w es Hlist) as (w1 & Hget & Hst & _ & Hd & Ha).
  exists w1. split; [done|]. split; [done|]. split; [done|].
  unfold saveEntry, try_catch, bind, lift, setItem, dispatchEvent, alert, perform.
  rewrite Hget. pose proof (first_id_split (e_id entry) es) as Hsplit.
  unfold upsert. destruct (has_entry_id (e_id entry) es).
  - destruct Hsplit as (before & x & rest & -> & Hno & Hx).
    unfold entries_value at 1, findIndex. rewrite findIndex_first by done.
    assert (Hgt : (0 + Z.of_nat (length before) >? -1) = true)
      by (apply Z.gtb_lt; lia).
    rewrite Hgt. unfold entries_value, array_set.
    rewrite Z.add_0_l, Nat2Z.id, insert_middle, replace_first_split by done.
    rewrite Hst. by destruct (setItem_throws _ _ _).
  - unfold entries_value at 1, findIndex. rewrite findIndex_absent by done.
    change (-1 >? -1) with false. unfold entries_value, array_cons.
    cbn [map]. rewrite Hst.
    by destruct (setItem_throws _ _ _).
Qed.

Lemma updateEntry_world (entry : Entry) (es : list Entry) (w : World) :
  listEntries w = Return (entries_value es) ->
  exists w1,
    storage w1 = storage w
    /\ dispatched (trace w1) = dispatched (trace w)
    /\ alerted (trace w1) = alerted (trace w)
    /\ updateEntry entry w =
         if has_entry_id (e_id entry) es
         then
           if setItem_throws (storage w) STORAGE_KEY
                (JSON_stringify 0 (entries_value (replace_first entry es)))
           then (Return tt, with_effect w1 (Alert "保存失败"))
           else (Return tt,
                 with_effect
                   (with_storage w1
                      (<[STORAGE_KEY :=
                           JSON_stringify 0 (entries_value (replace_first entry es))]>
                         (storage w)))
                   (DispatchEvent "zenledger-update"))
         else (Return tt, w1).
Proof.
  intros Hlist.
  destruct (getEntries_typed w es Hlist) as (w1 & Hget & Hst & _ & Hd & Ha).
  exists w1. split; [done|]. split; [done|]. split; [done|].
  unfold updateEntry, try_catch, bind, lift, setItem, dispatchEvent, alert, perform, ret.
  rewrite Hget. pose proof (first_id_split (e_id entry) es) as Hsplit.
  destruct (has_entry_id (e_id entry) es).
  - destruct Hsplit as (before & x & rest & -> & Hno & Hx).
    unfold entries_value at 1, findIndex. rewrite findIndex_first by done.
    assert (Hne : (0 + Z.of_nat (length before) =? -1) = false)
      by (apply Z.eqb_neq; lia).
    rewrite Hne. cbn [negb]. unfold entries_value, array_set.
    rewrite Z.add_0_l, Nat2Z.id, insert_middle, replace_first_split by done.
    rewrite Hst. by destruct (setItem_throws _ _ _).
  - unfold entries_value at 1, findIndex. by rewrite findIndex_absent by done.
Qed.

Lemma deleteEntry_world (id : string) (es : list Entry) (w : World) :
  id <> EmptyString ->
  listEntries w = Return (entries_value es) ->
  exists w1,
    storage w1 = storage w
    /\ dispatched (trace w1) = dispatched (trace w)
    /\ alerted (trace w1) = alerted (trace w)
    /\ deleteEntry id w =
         if has_entry_id id es
         then
           if setItem_throws (storage w) STORAGE_KEY
                (JSON_stringify 0 (entries_value (remove_first id es)))
           then (Throws, w1)
           else (Return tt,
                 with_effect
                   (with_storage w1
                      (<[STORAGE_KEY :=
                           JSON_stringify 0 (entries_value (remove_first id es))]>
                         (storage w)))
                   (DispatchEvent "zenledger-update"))
         else (Return tt, w1).
Proof.
  intros Hid Hlist.
  destruct (getEntries_typed w es Hlist) as (w1 & Hget & Hst & _ & Hd & Ha).
  exists w1. split; [done|]. split; [done|]. split; [done|].
  unfold deleteEntry, bind, lift, setItem, dispatchEvent, perform, ret.
  apply String.eqb_neq in Hid. rewrite Hid, Hget.
  pose proof (first_id_split id es) as Hsplit.
  destruct (has_entry_id id es).
  - destruct Hsplit as (before & x & rest & -> & Hno & Hx).
    unfold entries_value at 1, findIndex. rewrite findIndex_first by done.
    assert (Hne : (0 + Z.of_nat (length before) =? -1) = false)
      by (apply Z.eqb_neq; lia).
    rewrite Hne. cbn [negb]. unfold entries_value, array_splice1.
    rewrite Z.add_0_l, Nat2Z.id, delete_map_middle, remove_first_split by done.
    rewrite Hst. by destruct (setItem_throws _ _ _).
  - unfold entries_value at 1, findIndex. by rewrite findIndex_absent by done.
Qed.

Lemma saveCategory_world (c : Category) (cats : list Category) (w : World) :
  listCategories w = Return (categories_value cats) ->
  exists w1,
    getCategories w = (Return (categories_value cats), w1)
    /\ trace w1 = trace w
    /\ storage w1 !! STORAGE_KEY = storage w !! STORAGE_KEY
    /\ saveCategory c w =
         if setItem_throws (storage w1) CATEGORY_STORAGE_KEY
              (JSON_stringify 0 (categories_value (cats ++ [c])))
         then (Throws, w1)
         else (Return tt,
               with_effect
                 (with_storage w1
                    (<[CATEGORY_STORAGE_KEY :=
                         JSON_stringify 0 (categories_value (cats ++ [c]))]>
                       (storage w1)))
                 (DispatchEvent "zenledger-categories-update")).
Proof.
  intros Hlist. destruct (getCategories_quiet w) as (v & w1 & Hget & Ht & _ & Hk).
  assert (v = categories_value cats) as ->.
  { unfold listCategories in Hlist. rewrite Hget in Hlist. simpl in Hlist. congruence. }
  exists w1. split; [done|]. split; [done|]. split; [done|].
  unfold saveCategory, bind, lift, setItem, dispatchEvent, perform.
  rewrite Hget. unfold categories_value, array_snoc.
  rewrite List.map_app. cbn [map].
  by destruct (setItem_throws _ _ _).
Qed.

Lemma find_item_entries id es :
  find_item (has_id id) (map entry_to_json es)
  = Return (match List.find (fun x => String.eqb (e_id x) id) es with
            | Some x => JSValue (entry_to_json x)
            | None => JSUndefined
            end).
Proof.
  induction es as [|x es IH]; [done|].
  cbn [map find_item List.find]. rewrite has_id_entry.
  by destruct (String.eqb (e_id x) id).
Qed.

End TypedRuns.

Section EntryExtras.
Context {J : Runtime} {L : JSONLaws J} {LS : WebStorage}.

Lemma find_upsert entry es :
  List.find (fun x => String.eqb (e_id x) (e_id entry)) (upsert entry es) = Some entry.
Proof.
  unfold upsert. destruct (has_entry_id (e_id entry) es) eqn:E.
  - induction es as [|y es IH]; [done|].
    unfold has_entry_id in E. simpl in *.
    destruct (String.eqb_spec (e_id y) (e_id entry)) as [Hy|Hy]; simpl.
    + by rewrite String.eqb_refl.
    + apply String.eqb_neq in Hy. rewrite Hy. by apply IH.
  - simpl. by rewrite String.eqb_refl.
Qed.

(** The list the entries cell reads back as after a save, a deletion and an
    update that the storage accepts. *)
Lemma saveEntry_list (entry : Entry) (es : list Entry) (w : World) :
  always_readable LS -> always_writable LS ->
  listEntries w = Return (entries_value es) ->
  listEntries (after (saveEntry entry) w) = Return (entries_value (upsert entry es)).
Proof.
  intros Hread Hwrite Hlist.
  destruct (saveEntry_world entry es w Hlist) as (w1 & _ & _ & _ & Hrun).
  unfold after. rewrite Hrun, Hwrite. cbn [snd].
  erewrite listEntries_written;
    [|cbn [storage with_effect with_storage]; apply lookup_insert_eq].
  by rewrite Hread.
Qed.

Lemma deleteEntry_list (id : string) (es : list Entry) (w : World) :
  id <> EmptyString -> always_readable LS -> always_writable LS ->
  listEntries w = Return (entries_value es) ->
  listEntries (after (deleteEntry id) w) = Return (entries_value (remove_first id es)).
Proof.
  intros Hid Hread Hwrite Hlist.
  destruct (deleteEntry_world id es w Hid Hlist) as (w1 & Hst & _ & _ & Hrun).
  unfold after. rewrite Hrun, Hwrite.
  pose proof (first_id_split id es) as Hsplit.
  destruct (has_entry_id id es); cbn [snd].
  - erewrite listEntries_written;
      [|cbn [storage with_effect with_storage]; apply lookup_insert_eq].
    by rewrite Hread.
  - rewrite remove_first_absent by done.
    by rewrite (listEntries_storage w1 w Hst).
Qed.

Lemma updateEntry_list (entry : Entry) (es : list Entry) (w : World) :
  always_readable LS -> always_writable LS ->
  listEntries w = Return (entries_value es) ->
  listEntries (after (updateEntry entry) w)
  = Return (entries_value (replace_first entry es)).
Proof.
  intros Hread Hwrite Hlist.
  destruct (updateEntry_world entry es w Hlist) as (w1 & Hst & _ & _ & Hrun).
  unfold after. rewrite Hrun, Hwrite.
  pose proof (first_id_split (e_id entry) es) as Hsplit.
  destruct (has_entry_id (e_id entry) es); cbn [snd].
  - erewrite listEntries_written;
      [|cbn [storage with_effect with_storage]; apply lookup_insert_eq].
    by rewrite Hread.
  - rewrite replace_first_absent by done.
    by rewrite (listEntries_storage w1 w Hst).
Qed.

Lemma getEntry_find (id : string) (es : list Entry) (w : World) :
  listEntries w = Return (entries_value es) ->
  fst (getEntry id w)
  = Return (match List.find (fun x => String.eqb (e_id x) id) es with
            | Some x => JSValue (entry_to_json x)
            | None => JSUndefined
            end)
  /\ storage (after (getEntry id) w) = storage w.
Proof.
  intros Hlist. destruct (getEntries_typed w es Hlist) as (w1 & Hget & Hst & _).
  unfold after, getEntry, bind, lift. rewrite Hget.
  unfold entries_value, array_find. by rewrite find_item_entries.
Qed.

(** X1. Over a storage that accepts the accesses, [getEntry] of the id of
    an entry just saved returns that entry, whether the save added it or
    overwrote an older entry of that id. *)
Theorem getEntry_after_saveEntry (entry : Entry) (es : list Entry) (w : World) :
  always_readable LS -> always_writable LS ->
  listEntries w = Return (entries_value es) ->
  fst (getEntry (e_id entry) (after (saveEntry entry) w))
  = Return (JSValue (entry_to_json entry)).
Proof.
  intros Hread Hwrite Hlist.
  pose proof (saveEntry_list entry es w Hread Hwrite Hlist) as Hafter.
  destruct (getEntry_find (e_id entry) _ _ Hafter) as [Hfind _].
  by rewrite Hfind, find_upsert.
Qed.

(** X2. [getEntry] returns [undefined] exactly when no stored entry has the
    id; otherwise it returns the first stored entry with that id; in both
    cases it writes nothing. *)
Theorem getEntry_first_or_undefined (id : string) (es : list Entry) (w : World) :
  listEntries w = Return (entries_value es) ->
  (fst (getEntry id w) = Return JSUndefined <-> forall x, In x es -> e_id x <> id)
  /\ (forall before x rest,
        es = (before ++ x :: rest)%list ->
        (forall y, In y before -> e_id y <> id) -> e_id x = id ->
        fst (getEntry id w) = Return (JSValue (entry_to_json x)))
  /\ storage (after (getEntry id) w) = storage w.
Proof.
  intros Hlist. destruct (getEntry_find id es w Hlist) as [Hfind Hst].
  split; [|split; [|exact Hst]].
  - rewrite Hfind. split.
    + intros H x Hx Hid.
      destruct (List.find _ es) as [y|] eqn:E; [done|].
      pose proof (find_none _ _ E x Hx) as Hn. simpl in Hn.
      rewrite Hid, String.eqb_refl in Hn. done.
    + intros Hno. destruct (List.find _ es) as [y|] eqn:E; [|done].
      apply find_some in E as [Hy Heq]. apply String.eqb_eq in Heq.
      by destruct (Hno y Hy).
  - intros before x rest -> Hno Hx. rewrite Hfind. f_equal.
    clear Hfind Hst Hlist.
    induction before as [|y before IH]; simpl.
    + by rewrite Hx, String.eqb_refl.
    + destruct (String.eqb_spec (e_id y) id) as [Hy|_].
      * destruct (Hno y); [by left|done].
      * apply IH. intros z Hz. apply Hno. by right.
Qed.

(** X3. [updateEntry] never adds an entry.  When no stored entry has the id
    it writes nothing, dispatches nothing and alerts nothing; when one has
    and the storage accepts the accesses, the first such entry is replaced
    where it stands and the number of entries is unchanged. *)
Theorem updateEntry_in_place (entry : Entry) (es : list Entry) (w : World) :
  listEntries w = Return (entries_value es) ->
  ((forall x, In x es -> e_id x <> e_id entry) ->
   fst (updateEntry entry w) = Return tt
   /\ storage (after (updateEntry entry) w) = storage w
   /\ dispatched (trace (after (updateEntry entry) w)) = dispatched (trace w)
   /\ alerted (trace (after (updateEntry entry) w)) = alerted (trace w))
  /\ (always_readable LS -> always_writable LS ->
      forall before x rest,
        es = (before ++ x :: rest)%list ->
        (forall y, In y before -> e_id y <> e_id entry) -> e_id x = e_id entry ->
        listEntries (after (updateEntry entry) w)
        = Return (entries_value (before ++ entry :: rest))
        /\ length (before ++ entry :: rest) = length es).
Proof.
  intros Hlist. split.
  - intros Hno.
    destruct (updateEntry_world entry es w Hlist) as (w1 & Hst & Hd & Ha & Hrun).
    apply has_entry_id_false in Hno. unfold after. rewrite Hrun, Hno. done.
  - intros Hread Hwrite before x rest -> Hno Hx.
    rewrite (updateEntry_list entry _ w Hread Hwrite Hlist).
    rewrite replace_first_split by done. split; [done|].
    by rewrite !length_app.
Qed.

(** X4. [saveEntry] never throws, whatever the storage holds.  Over stored
    entries, a refused write leaves the storage as it was, raises exactly
    one alert and dispatches nothing; an accepted write dispatches exactly
    one [zenledger-update] and raises no alert. *)
Theorem saveEntry_reports (entry : Entry) (w : World) :
  fst (saveEntry entry w) = Return tt
  /\ (forall es,
        listEntries w = Return (entries_value es) ->
        if setItem_throws (storage w) STORAGE_KEY
             (JSON_stringify 0 (entries_value (upsert entry es)))
        then
          storage (after (saveEntry entry) w) = storage w
          /\ alerted (trace (after (saveEntry entry) w))
             = (alerted (trace w)
                ++ ["Failed to save entry. Storage might be full."])%list
          /\ dispatched (trace (after (saveEntry entry) w)) = dispatched (trace w)
        else
          dispatched (trace (after (saveEntry entry) w))
          = (dispatched (trace w) ++ ["zenledger-update"])%list
          /\ alerted (trace (after (saveEntry entry) w)) = alerted (trace w)).
Proof.
  split.
  - unfold saveEntry, try_catch, alert, perform.
    by destruct (bind _ _ w) as [[[]|] w'].
  - intros es Hlist.
    destruct (saveEntry_world entry es w Hlist) as (w1 & Hst & Hd & Ha & Hrun).
    unfold after. rewrite Hrun.
    destruct (setItem_throws _ _ _); cbn [snd trace storage with_effect with_storage];
      rewrite dispatched_app, alerted_app, Hd, Ha; simpl; by rewrite ?app_nil_r.
Qed.

(** X5. Saving the same entry a second time changes nothing: the stored
    list after two saves is the list after one. *)
Theorem saveEntry_twice (entry : Entry) (es : list Entry) (w : World) :
  always_readable LS -> always_writable LS ->
  listEntries w = Return (entries_value es) ->
  listEntries (after (saveEntry entry) (after (saveEntry entry) w))
  = listEntries (after (saveEntry entry) w).
Proof.
  intros Hread Hwrite Hlist.
  pose proof (saveEntry_list entry es w Hread Hwrite Hlist) as H1.
  rewrite (saveEntry_list entry _ _ Hread Hwrite H1), H1.
  by rewrite upsert_idem.
Qed.

(** X6. Saving an entry whose non-empty id is new and then deleting that id
    gives back the stored list. *)
Theorem saveEntry_then_deleteEntry (entry : Entry) (es : list Entry) (w : World) :
  always_readable LS -> always_writable LS ->
  listEntries w = Return (entries_value es) ->
  e_id entry <> EmptyString ->
  (forall x, In x es -> e_id x <> e_id entry) ->
  listEntries (after (deleteEntry (e_id entry)) (after (saveEntry entry) w))
  = listEntries w.
Proof.
  intros Hread Hwrite Hlist Hid Hno.
  pose proof (saveEntry_list entry es w Hread Hwrite Hlist) as H1.
  rewrite (deleteEntry_list _ _ _ Hid Hread Hwrite H1), Hlist.
  rewrite remove_first_upsert; [done|]. by apply has_entry_id_false.
Qed.

(** X7. [deleteEntry] has no handler of its own: when the write that would
    remove a stored entry is refused, the exception escapes, and the storage
    is as it was and nothing is dispatched. *)
Theorem deleteEntry_refused_write_escapes (id : string) (es : list Entry) (w : World) :
  listEntries w = Return (entries_value es) ->
  id <> EmptyString ->
  (exists x, In x es /\ e_id x = id) ->
  setItem_throws (storage w) STORAGE_KEY
    (JSON_stringify 0 (entries_value (remove_first id es))) = true ->
  fst (deleteEntry id w) = Throws
  /\ storage (after (deleteEntry id) w) = storage w
  /\ dispatched (trace (after (deleteEntry id) w)) = dispatched (trace w).
Proof.
  intros Hlist Hid Hhas Hrefused. apply has_entry_id_true in Hhas.
  destruct (deleteEntry_world id es w Hid Hlist) as (w1 & Hst & Hd & _ & Hrun).
  unfold after. by rewrite Hrun, Hhas, Hrefused.
Qed.

End EntryExtras.

Section CategoryExtras.
Context {J : Runtime} {L : JSONLaws J} {LS : WebStorage}.

Lemma without_id_fresh id cats :
  ~ In id (map c_id cats) -> without_id id cats = cats.
Proof.
  induction cats as [|d cats IH]; intros Hno; [done|].
  cbn [without_id List.filter]. fold (without_id id cats).
  destruct (String.eqb_spec (c_id d) id) as [Hd|_]; cbn [negb].
  - destruct Hno. left. done.
  - f_equal. apply IH. intros H. apply Hno. by right.
Qed.

Lemma without_id_snoc id cats c :
  without_id id (cats ++ [c])
  = (without_id id cats ++ (if String.eqb (c_id c) id then [] else [c]))%list.
Proof.
  unfold without_id. rewrite List.filter_app. simpl.
  by destruct (String.eqb (c_id c) id).
Qed.

(** X8. [saveCategory] appends without any check of the id or the name:
    over stored categories and a storage that accepts the accesses the new
    collection is the old one followed by the category, and one
    [zenledger-categories-update] is dispatched.  It has no handler: when
    the write of the longer collection is refused the exception escapes,
    nothing is dispatched, and the world is as the read of the categories
    left it (at most the defaults were seeded): the categories read as
    before. *)
Theorem saveCategory_appends (c : Category) (cats : list Category) (w : World) :
  listCategories w = Return (categories_value cats) ->
  (always_readable LS -> always_writable LS ->
   fst (saveCategory c w) = Return tt
   /\ listCategories (after (saveCategory c) w) = Return (categories_value (cats ++ [c]))
   /\ dispatched (trace (after (saveCategory c) w))
      = (dispatched (trace w) ++ ["zenledger-categories-update"])%list)
  /\ (setItem_throws (storage (after getCategories w)) CATEGORY_STORAGE_KEY
        (JSON_stringify 0 (categories_value (cats ++ [c]))) = true ->
      fst (saveCategory c w) = Throws
      /\ after (saveCategory c) w = after getCategories w
      /\ trace (after (saveCategory c) w) = trace w
      /\ listCategories (after (saveCategory c) w) = Return (categories_value cats)
      /\ storage (after (saveCategory c) w) !! STORAGE_KEY = storage w !! STORAGE_KEY).
Proof.
  intros Hlist.
  destruct (saveCategory_world c cats w Hlist) as (w1 & Hget & Ht & Hk & Hrun).
  destruct (getCategories_settles w) as [Hsettle _].
  unfold after in *. rewrite Hrun. rewrite Hget in *. cbn [snd] in *. split.
  - intros Hread Hwrite. rewrite Hwrite. cbn [fst snd]. split; [done|]. split.
    + erewrite listCategories_written;
        [|cbn [storage with_effect with_storage]; apply lookup_insert_eq].
      by rewrite Hread.
    + cbn [trace with_effect with_storage]. by rewrite dispatched_app, Ht.
  - intros Hrefuse. rewrite Hrefuse. cbn [fst snd].
    split; [done|]. split; [done|]. split; [done|]. split; [|done].
    by rewrite Hsettle.
Qed.

(** X9. Adding a category whose id is new to a non-empty collection and
    then deleting that id gives back the collection; added to an empty
    collection, the category cannot be deleted again. *)
Theorem saveCategory_then_deleteCategory (c : Category) (cats : list Category)
    (w : World) :
  always_readable LS -> always_writable LS ->
  listCategories w = Return (categories_value cats) ->
  ~ In (c_id c) (map c_id cats) ->
  listCategories (after (deleteCategory (c_id c)) (after (saveCategory c) w))
  = Return (categories_value (match cats with [] => [c] | _ :: _ => cats end)).
Proof.
  intros Hread Hwrite Hlist Hfresh.
  destruct (saveCategory_world c cats w Hlist) as (w1 & Hget & Ht & Hk & Hrun).
  assert (Hafter : listCategories (after (saveCategory c) w)
                   = Return (categories_value (cats ++ [c]))).
  { unfold after. rewrite Hrun, Hwrite. cbn [snd].
    erewrite listCategories_written;
      [|cbn [storage with_effect with_storage]; apply lookup_insert_eq].
    by rewrite Hread. }
  set (w2 := after (saveCategory c) w) in *.
  destruct (getCategories_total w2) as (v & w3 & Hget2).
  assert (v = categories_value (cats ++ [c])) as ->.
  { unfold listCategories in Hafter. rewrite Hget2 in Hafter. simpl in Hafter.
    congruence. }
  unfold after. rewrite (deleteCategory_run (c_id c) w2 _ w3 Hget2).
  rewrite length_app. cbn [length].
  destruct cats as [|d cats].
  - cbn [length Nat.add app]. change (Z.of_nat 1 <=? 1) with true. cbn [snd].
    destruct (getCategories_settles w2) as [Hsettle _].
    unfold after in Hsettle. rewrite Hget2 in Hsettle. cbn [snd] in Hsettle.
    rewrite Hsettle. exact Hafter.
  - assert (Hbig : (Z.of_nat (length (d :: cats) + 1) <=? 1) = false).
    { apply Z.leb_gt. cbn [length]. lia. }
    rewrite Hbig, Hwrite. cbn [snd].
    erewrite listCategories_written;
      [|cbn [storage with_effect with_storage]; apply lookup_insert_eq].
    rewrite Hread, without_id_snoc, String.eqb_refl, app_nil_r.
    by rewrite without_id_fresh.
Qed.

(** Reads and steps that keep the categories cell well formed within a set
    of known ids. *)
Lemma categories_within_mono known known' (w : World) :
  (forall id, In id known -> In id known') ->
  categories_within known w -> categories_within known' w.
Proof.
  intros Hsub. unfold categories_within.
  destruct (storage w !! CATEGORY_STORAGE_KEY); [|done].
  intros (cats & -> & Hne & Hnd & Hin). exists cats. repeat split; try done.
  intros id Hid. by apply Hsub, Hin.
Qed.

Lemma getCategories_within known (w : World) :
  (forall id, In id (map c_id DEFAULT_EXPENSE_CATEGORIES) -> In id known) ->
  categories_within known w ->
  exists cats w1,
    getCategories w = (Return (categories_value cats), w1)
    /\ cats <> [] /\ List.NoDup (map c_id cats)
    /\ (forall id, In id (map c_id cats) -> In id known)
    /\ categories_within known w1.
Proof.
  intros Hdef Hinv. rewrite getCategories_run. unfold categories_within in Hinv.
  assert (Hdefault : forall w', categories_within known w' ->
             exists cats w1,
               (Return default_categories_value, w') = (Return (categories_value cats), w1)
               /\ cats <> [] /\ List.NoDup (map c_id cats)
               /\ (forall id, In id (map c_id cats) -> In id known)
               /\ categories_within known w1).
  { intros w' Hw'. exists DEFAULT_EXPENSE_CATEGORIES, w'.
    split; [done|]. split; [done|]. split; [apply default_ids_NoDup|]. by split. }
  destruct (getItem_throws CATEGORY_STORAGE_KEY); [by apply Hdefault|].
  destruct (storage w !! CATEGORY_STORAGE_KEY) as [s|] eqn:E.
  - destruct Hinv as (cats & -> & Hne & Hnd & Hin).
    rewrite stringify_truthy. simpl. rewrite parse_stringify.
    exists cats, w. repeat split; try done.
    unfold categories_within. rewrite E. by exists cats.
  - cbn [truthy_item]. destruct (setItem_throws _ _ _).
    + apply Hdefault. unfold categories_within. by rewrite E.
    + apply Hdefault. unfold categories_within. cbn [storage with_storage].
      rewrite lookup_insert_eq. exists DEFAULT_EXPENSE_CATEGORIES.
      split; [done|]. split; [done|]. split; [apply default_ids_NoDup|done].
Qed.

Lemma deleteCategory_within known id (w : World) :
  (forall id, In id (map c_id DEFAULT_EXPENSE_CATEGORIES) -> In id known) ->
  categories_within known w ->
  categories_within known (after (deleteCategory id) w).
Proof.
  intros Hdef Hinv.
  destruct (getCategories_within known w Hdef Hinv)
    as (cats & w1 & Hget & Hne & Hnd & Hin & Hinv1).
  unfold after. rewrite (deleteCategory_run id w cats w1 Hget).
  destruct (Z.leb_spec (Z.of_nat (length cats)) 1) as [Hle|Hgt]; [done|].
  destruct (setItem_throws _ _ _); [done|].
  unfold categories_within. cbn [snd storage with_effect with_storage].
  rewrite lookup_insert_eq. exists (without_id id cats).
  split; [done|]. split; [|split; [by apply without_id_NoDup|]].
  - pose proof (without_id_length id cats Hnd) as Hlen.
    intros Hnil. rewrite Hnil in Hlen. simpl in Hlen. lia.
  - intros i Hi. apply Hin. apply in_map_iff in Hi as (d & <- & Hd).
    apply in_map. unfold without_id in Hd. by apply filter_In in Hd as [? _].
Qed.

Lemma saveCategory_within known c (w : World) :
  (forall id, In id (map c_id DEFAULT_EXPENSE_CATEGORIES) -> In id known) ->
  ~ In (c_id c) known ->
  categories_within known w ->
  categories_within (c_id c :: known) (after (saveCategory c) w).
Proof.
  intros Hdef Hfresh Hinv.
  destruct (getCategories_within known w Hdef Hinv)
    as (cats & w1 & Hget & Hne & Hnd & Hin & Hinv1).
  unfold after, saveCategory, bind, lift, setItem, dispatchEvent, perform.
  rewrite Hget. unfold categories_value, array_snoc.
  destruct (setItem_throws _ _ _).
  - cbn [snd]. eapply categories_within_mono; [|exact Hinv1].
    intros i Hi. by right.
  - unfold categories_within. cbn [snd storage with_effect with_storage].
    rewrite lookup_insert_eq. exists (cats ++ [c])%list.
    split; [unfold categories_value; by rewrite List.map_app|].
    split; [by destruct cats|].
    rewrite List.map_app. cbn [map]. split.
    + apply NoDup_ListNoDup. apply NoDup_app. split; [by apply NoDup_ListNoDup|].
      split; [|apply NoDup_singleton].
      intros i Hi Hc. apply list_elem_of_In in Hi.
      apply list_elem_of_singleton in Hc as ->. by apply Hfresh, Hin.
    + intros i Hi. apply in_app_iff in Hi as [Hi|[<-|[]]]; [right; by apply Hin|by left].
Qed.

Lemma run_category_ops_within ops : forall known (w : World),
  (forall id, In id (map c_id DEFAULT_EXPENSE_CATEGORIES) -> In id known) ->
  List.NoDup (added_ids ops) ->
  (forall id, In id (added_ids ops) -> ~ In id known) ->
  categories_within known w ->
  categories_within (rev (added_ids ops) ++ known) (run_category_ops ops w).
Proof.
  induction ops as [|op ops IH]; intros known w Hdef Hnd Hfresh Hinv; [done|].
  destruct op as [c|id]; cbn [run_category_ops fold_left apply_category_op added_ids flat_map app].
  - cbn [added_ids flat_map app] in Hnd, Hfresh.
    apply List.NoDup_cons_iff in Hnd as [Hc Hnd].
    fold (added_ids ops) in *. fold (run_category_ops ops (after (saveCategory c) w)).
    cbn [rev]. rewrite <- app_assoc. cbn [app].
    apply IH; [|done| |].
    + intros i Hi. right. by apply Hdef.
    + intros i Hi [<-|Hk]; [done|]. apply (Hfresh i); [by right|done].
    + apply saveCategory_within; [done| |done]. apply Hfresh. by left.
  - cbn [added_ids flat_map app] in Hnd, Hfresh.
    fold (added_ids ops) in *. fold (run_category_ops ops (after (deleteCategory id) w)).
    apply IH; try done. by apply deleteCategory_within.
Qed.

(** X10. The floor of one category holds for runs that also add: from an
    absent categories key, after any run of [saveCategory] and
    [deleteCategory] calls in which the added ids differ from one another
    and from the default ids, [listCategories()] holds at least one
    category, on any storage. *)
Theorem category_floor_with_adds (w0 : World) (ops : list CategoryOp) :
  storage w0 !! CATEGORY_STORAGE_KEY = None ->
  List.NoDup (added_ids ops) ->
  (forall id, In id (added_ids ops) -> ~ In id (map c_id DEFAULT_EXPENSE_CATEGORIES)) ->
  exists cs,
    listCategories (run_category_ops ops (after getCategories w0)) = Return (JArr cs)
    /\ (1 <= length cs)%nat.
Proof.
  intros Habsent Hnd Hfresh.
  set (known := map c_id DEFAULT_EXPENSE_CATEGORIES).
  assert (Hinv0 : categories_within known w0)
    by (unfold categories_within; by rewrite Habsent).
  destruct (getCategories_within known w0 ltac:(done) Hinv0)
    as (c0 & w1 & Hget0 & _ & _ & _ & Hinv1).
  unfold after at 1. rewrite Hget0. cbn [snd].
  pose proof (run_category_ops_within ops known w1 ltac:(done) Hnd Hfresh Hinv1) as Hinv2.
  destruct (getCategories_within _ _
              ltac:(intros i Hi; apply in_app_iff; by right) Hinv2)
    as (cats & w3 & Hget & Hne & _).
  exists (map category_to_json cats). unfold listCategories. rewrite Hget.
  split; [done|]. rewrite length_map. destruct cats; [done|simpl; lia].
Qed.

End CategoryExtras.

Section BackupExtras.
Context {J : Runtime} {L : JSONLaws J} {LS : WebStorage}.


(** The document [exportData] serialises. *)
Lemma exportData_run (w : World) :
  exists v c w1 w2,
    getEntries w = (Return v, w1)
    /\ getCategories w1 = (Return c, w2)
    /\ listEntries w = Return v
    /\ listCategories w = Return c
    /\ exportData w
       = (Return (JSON_stringify 2
                    (JObj [ ("entries", v); ("categories", c);
                            ("exportedAt", JStr (clock w));
                            ("appName", JStr "ZenLedger"); ("version", JNum 1) ])),
          w2)
    /\ dispatched (trace w2) = dispatched (trace w)
    /\ alerted (trace w2) = alerted (trace w)
    /\ storage w2 !! STORAGE_KEY = storage w !! STORAGE_KEY.
Proof.
  destruct (getEntries_quiet w) as (v & w1 & Hget & Hst & Hclock & Hd & Ha).
  destruct (getCategories_quiet w1) as (c & w2 & Hcat & Ht & Hclock2 & Hk).
  exists v, c, w1, w2. split; [done|]. split; [done|].
  split; [unfold listEntries; by rewrite Hget|].
  split.
  { rewrite <- (listCategories_storage w1 w Hst). unfold listCategories.
    by rewrite Hcat. }
  split.
  { unfold exportData, bind, ret. by rewrite Hget, Hcat, Hclock2, Hclock. }
  rewrite Ht, Hk, Hst. done.
Qed.

(** X12. [exportData] never throws and dispatches nothing, and its text
    parses to an object whose [entries] and [categories] are what the two
    reads return, whose [appName] is ["ZenLedger"], whose [version] is 1 and
    whose [exportedAt] is the time of the call; the entries cell is not
    written. *)
Theorem exportData_document (w : World) :
  exists text props v c,
    fst (exportData w) = Return text
    /\ JSON_parse text = Some (JObj props)
    /\ listEntries w = Return v /\ own_prop "entries" props = Some v
    /\ listCategories w = Return c /\ own_prop "categories" props = Some c
    /\ own_prop "exportedAt" props = Some (JStr (clock w))
    /\ own_prop "appName" props = Some (JStr "ZenLedger")
    /\ own_prop "version" props = Some (JNum 1)
    /\ dispatched (trace (after exportData w)) = dispatched (trace w)
    /\ storage (after exportData w) !! STORAGE_KEY = storage w !! STORAGE_KEY.
Proof.
  destruct (exportData_run w)
    as (v & c & w1 & w2 & _ & _ & Hv & Hc & Hrun & Hd & _ & Hk).
  unfold after. rewrite Hrun. cbn [fst snd].
  eexists _, _, v, c. split; [done|]. split; [apply parse_stringify|].
  repeat split; done.
Qed.


End BackupExtras.

Section ReadExtras.
Context {J : Runtime} {LS : WebStorage}.

(** X14. The read operations dispatch no event and raise no alert, and the
    reads of the entries write nothing. *)
Theorem reads_are_silent (id : string) (w : World) :
  (dispatched (trace (after getEntries w)) = dispatched (trace w)
   /\ alerted (trace (after getEntries w)) = alerted (trace w)
   /\ storage (after getEntries w) = storage w)
  /\ (dispatched (trace (after (getEntry id) w)) = dispatched (trace w)
      /\ alerted (trace (after (getEntry id) w)) = alerted (trace w)
      /\ storage (after (getEntry id) w) = storage w)
  /\ trace (after getCategories w) = trace w
  /\ (dispatched (trace (after exportData w)) = dispatched (trace w)
      /\ alerted (trace (after exportData w)) = alerted (trace w)).
Proof.
  destruct (getEntries_quiet w) as (v & w1 & Hget & Hst & _ & Hd & Ha).
  split; [unfold after; by rewrite Hget|]. split.
  - unfold after, getEntry, bind, lift. rewrite Hget.
    by destruct (array_find v (has_id id)).
  - split.
    + destruct (getCategories_quiet w) as (c & w2 & Hcat & Ht & _).
      unfold after. by rewrite Hcat.
    + destruct (exportData_run w) as (? & ? & ? & w2 & _ & _ & _ & _ & Hrun & Hd2 & Ha2 & _).
      unfold after. by rewrite Hrun.
Qed.

End ReadExtras.

(** ** 15. The entry form *)

Section FormExtras.
Context {J : Runtime} {L : JSONLaws J} {LS : WebStorage} {R : StorageRemoval}.

Lemma handleSave_checked (form : EntryForm) (fresh : string) (n : Z) :
  f_isSaving form = false ->
  amount_entered form n ->
  handleSave form fresh
  = try_catch
      ((if truthy_item (f_id form) then updateEntry (entryData form fresh n)
        else (saveEntry (entryData form fresh n) ;; removeItem DRAFT_KEY)) ;;
       ret true)
      (alert "保存失败，请重试" ;; ret false).
Proof.
  intros Hsaving Hamount. unfold handleSave, amount_entered in *. rewrite Hsaving.
  destruct (EntryType_eqb (f_type form) note).
  - subst n. done.
  - destruct Hamount as [Hne Hnum]. unfold truthy_text.
    apply String.eqb_neq in Hne. rewrite Hne, Hnum. done.
Qed.

Lemma handleSave_create_run (form : EntryForm) (fresh : string) (n : Z)
    (es : list Entry) (w : World) :
  f_isSaving form = false ->
  truthy_item (f_id form) = false ->
  amount_entered form n ->
  listEntries w = Return (entries_value es) ->
  removeItem_throws DRAFT_KEY = false ->
  exists w2,
    saveEntry (entryData form fresh n) w = (Return tt, w2)
    /\ handleSave form fresh w
       = (Return true, with_storage w2 (delete DRAFT_KEY (storage w2))).
Proof.
  intros Hsaving Hid Hamount Hlist Hrem.
  rewrite (handleSave_checked form fresh n) by done. rewrite Hid.
  destruct (saveEntry_world (entryData form fresh n) es w Hlist)
    as (w1 & _ & _ & _ & Hsave).
  unfold try_catch, bind, ret, removeItem. rewrite Hrem.
  destruct (setItem_throws _ _ _); rewrite Hsave; eexists; split; done.
Qed.

Lemma handleSave_edit_run (form : EntryForm) (fresh : string) (n : Z)
    (es : list Entry) (w : World) :
  f_isSaving form = false ->
  truthy_item (f_id form) = true ->
  amount_entered form n ->
  listEntries w = Return (entries_value es) ->
  exists w2,
    updateEntry (entryData form fresh n) w = (Return tt, w2)
    /\ handleSave form fresh w = (Return true, w2).
Proof.
  intros Hsaving Hid Hamount Hlist.
  rewrite (handleSave_checked form fresh n) by done. rewrite Hid.
  destruct (updateEntry_world (entryData form fresh n) es w Hlist)
    as (w1 & _ & _ & _ & Hupd).
  unfold try_catch, bind, ret.
  destruct (has_entry_id _ _); [destruct (setItem_throws _ _ _)|];
    rewrite Hupd; eexists; split; done.
Qed.

(** X15. Saving a new note: whatever the amount and category fields hold,
    over a storage that accepts the accesses the note is stored in front of
    the entries with amount 0 and category ["笔记"] under the fresh id, the
    draft is removed and the page navigates home. *)
Theorem handleSave_stores_note (form : EntryForm) (fresh : string)
    (es : list Entry) (w : World) :
  always_readable LS -> always_writable LS ->
  removeItem_throws DRAFT_KEY = false ->
  f_isSaving form = false ->
  f_id form = None ->
  f_type form = note ->
  has_entry_id fresh es = false ->
  listEntries w = Return (entries_value es) ->
  fst (handleSave form fresh w) = Return true
  /\ listEntries (after (handleSave form fresh) w)
     = Return (entries_value
                 (mkEntry fresh note 0 "笔记" [] (f_content form) (f_entryDate form)
                    (f_media form) :: es))
  /\ storage (after (handleSave form fresh) w) !! DRAFT_KEY = None.
Proof.
  intros Hread Hwrite Hrem Hsaving Hid Htype Hfresh Hlist.
  assert (Hamount : amount_entered form 0) by (unfold amount_entered; by rewrite Htype).
  assert (Hfalsy : truthy_item (f_id form) = false) by by rewrite Hid.
  destruct (handleSave_create_run form fresh 0 es w) as (w2 & Hsave & Hrun);
    try done.
  destruct (saveEntry_world (entryData form fresh 0) es w Hlist)
    as (w1 & _ & _ & _ & Hworld).
  rewrite Hwrite, Hsave in Hworld. injection Hworld as ->.
  unfold after. rewrite Hrun. cbn [fst snd]. split; [done|]. split.
  - erewrite listEntries_written;
      [|cbn [storage with_effect with_storage];
        rewrite lookup_delete_ne by done; apply lookup_insert_eq].
    rewrite Hread. unfold upsert, entryData.
    rewrite Hid, Htype. cbn [truthy_item EntryType_eqb e_id]. by rewrite Hfresh.
  - cbn [storage with_effect with_storage]. apply lookup_delete_eq.
Qed.

(** X16. While a save is in progress, or when an entry that is not a note
    has an empty amount, [handleSave] does nothing at all: no storage
    access, no alert, no navigation. *)
Theorem handleSave_ignored (form : EntryForm) (fresh : string) (w : World) :
  f_isSaving form = true
  \/ (f_type form <> note /\ f_amount form = EmptyString) ->
  handleSave form fresh w = (Return false, w).
Proof.
  intros [Hsaving | [Htype Hamount]]; unfold handleSave.
  - by rewrite Hsaving.
  - destruct (f_isSaving form); [done|].
    assert (EntryType_eqb (f_type form) note = false) as ->
      by (destruct (f_type form); done).
    by rewrite Hamount.
Qed.

(** X17. An amount that is not a number: for an entry that is not a note,
    [handleSave] raises the alert ["请输入有效金额"] and does nothing else;
    nothing is stored and the page stays. *)
Theorem handleSave_not_a_number (form : EntryForm) (fresh : string) (w : World) :
  f_isSaving form = false ->
  f_type form <> note ->
  f_amount form <> EmptyString ->
  StringToNumber (f_amount form) = None ->
  handleSave form fresh w = (Return false, with_effect w (Alert "请输入有效金额")).
Proof.
  intros Hsaving Htype Hne Hnum. unfold handleSave. rewrite Hsaving.
  assert (EntryType_eqb (f_type form) note = false) as ->
    by (destruct (f_type form); done).
  unfold truthy_text. apply String.eqb_neq in Hne. rewrite Hne, Hnum. done.
Qed.

(** X18. Saving in edit mode never changes how many entries there are, nor
    their ids and order, whether the write is accepted or not and whether
    the id is known or not; the draft is left alone and the page navigates
    home. *)
Theorem handleSave_edit_keeps_ids (form : EntryForm) (fresh : string) (n : Z)
    (es : list Entry) (w : World) :
  always_readable LS ->
  f_isSaving form = false ->
  truthy_item (f_id form) = true ->
  amount_entered form n ->
  listEntries w = Return (entries_value es) ->
  fst (handleSave form fresh w) = Return true
  /\ (exists es',
        listEntries (after (handleSave form fresh) w) = Return (entries_value es')
        /\ map e_id es' = map e_id es)
  /\ storage (after (handleSave form fresh) w) !! DRAFT_KEY = storage w !! DRAFT_KEY.
Proof.
  intros Hread Hsaving Hid Hamount Hlist.
  destruct (handleSave_edit_run form fresh n es w) as (w2 & Hupd & Hrun); try done.
  destruct (updateEntry_world (entryData form fresh n) es w Hlist)
    as (w1 & Hst & _ & _ & Hworld).
  rewrite Hupd in Hworld. unfold after. rewrite Hrun. cbn [fst snd].
  split; [done|].
  destruct (has_entry_id _ _) eqn:Hhas; [destruct (setItem_throws _ _ _)|];
    injection Hworld as ->.
  - split; [exists es|by cbn [storage with_effect]; rewrite Hst].
    split; [|done]. rewrite <- Hlist. apply listEntries_storage.
    cbn [storage with_effect]. done.
  - split.
    + exists (replace_first (entryData form fresh n) es). split.
      * erewrite listEntries_written; [by rewrite Hread|].
        cbn [storage with_effect with_storage]. apply lookup_insert_eq.
      * apply replace_first_ids.
    + cbn [storage with_effect with_storage]. by rewrite lookup_insert_ne.
  - split; [exists es|by rewrite Hst].
    split; [|done]. rewrite <- Hlist. by apply listEntries_storage.
Qed.

(** X19. A new entry whose write is refused is lost without the page
    noticing: [saveEntry] raises its own alert, the draft is removed all the
    same, the page navigates home, and the entries are as before. *)
Theorem handleSave_refused_write_loses_entry (form : EntryForm) (fresh : string)
    (n : Z) (es : list Entry) (w : World) :
  removeItem_throws DRAFT_KEY = false ->
  f_isSaving form = false ->
  truthy_item (f_id form) = false ->
  amount_entered form n ->
  listEntries w = Return (entries_value es) ->
  setItem_throws (storage w) STORAGE_KEY
    (JSON_stringify 0 (entries_value (upsert (entryData form fresh n) es))) = true ->
  fst (handleSave form fresh w) = Return true
  /\ listEntries (after (handleSave form fresh) w) = Return (entries_value es)
  /\ storage (after (handleSave form fresh) w) = delete DRAFT_KEY (storage w)
  /\ alerted (trace (after (handleSave form fresh) w))
     = (alerted (trace w) ++ ["Failed to save entry. Storage might be full."])%list
  /\ dispatched (trace (after (handleSave form fresh) w)) = dispatched (trace w).
Proof.
  intros Hrem Hsaving Hid Hamount Hlist Hrefused.
  destruct (handleSave_create_run form fresh n es w) as (w2 & Hsave & Hrun);
    try done.
  destruct (saveEntry_world (entryData form fresh n) es w Hlist)
    as (w1 & Hst & Hd & Ha & Hworld).
  rewrite Hrefused, Hsave in Hworld. injection Hworld as ->.
  unfold after. rewrite Hrun. cbn [fst snd]. split; [done|].
  cbn [storage trace with_effect with_storage]. rewrite Hst.
  split; [|split; [done|split]].
  - rewrite <- Hlist. apply listEntries_cell.
    cbn [storage with_storage]. by rewrite lookup_delete_ne.
  - rewrite alerted_app, Ha. done.
  - rewrite dispatched_app, Hd. simpl. by rewrite app_nil_r.
Qed.

End FormExtras.

(** ** 16. More properties of the statistics and of the home page *)

Section GroupFacts.

Lemma loop_groups_names es :
  map sg_name (loop_groups es) = first_seen (map e_category es).
Proof.
  unfold loop_groups. generalize (first_seen (map e_category es)) as ks.
  intros ks. change (@map StatGroup string) with (@fmap list _ StatGroup string).
  rewrite fmap_imap. rewrite <- (list_fmap_id ks) at 2.
  rewrite <- (imap_const id). by apply imap_ext.
Qed.

(** The colour of the group at each position before the sort. *)
Lemma loop_groups_colors es (i : nat) (x : string) :
  map sg_color (loop_groups es) !! i = Some x
  <-> (i < length (loop_groups es))%nat /\ x = nth (i mod 10)%nat COLORS "".
Proof.
  unfold loop_groups.
  change (@map StatGroup string) with (@fmap list _ StatGroup string).
  rewrite list_lookup_fmap, list_lookup_imap, length_imap.
  destruct (first_seen (map e_category es) !! i) as [k|] eqn:Hk; simpl.
  - apply lookup_lt_Some in Hk. split; [intros [= <-]; by split|].
    by intros [_ ->].
  - apply lookup_ge_None in Hk. split; [done|]. intros [Hlt _]. lia.
Qed.

Lemma COLORS_NoDup : List.NoDup COLORS.
Proof.
  unfold COLORS. repeat (constructor; [simpl; intuition discriminate|]).
  constructor.
Qed.

Lemma COLORS_nth (i : nat) : (i < 10)%nat -> In (nth i COLORS "") COLORS.
Proof. intros Hi. apply nth_In. exact Hi. Qed.

End GroupFacts.

Section StatsExtras.
Context {D : DateFns}.

(** X21. The names of the groups are the categories of the given entries,
    each exactly once; so there is no group exactly when there is no entry,
    which is when the page shows its empty state. *)
Theorem group_names_are_categories (filtered : list (EntryOf float)) :
  List.NoDup (map sg_name (dataByCategory filtered))
  /\ (forall c, In c (map sg_name (dataByCategory filtered))
                <-> exists e, In e filtered /\ e_category e = c)
  /\ (dataByCategory filtered = [] <-> filtered = []).
Proof.
  assert (Hperm : map sg_name (dataByCategory filtered)
                  ≡ₚ first_seen (map e_category filtered)).
  { rewrite dataByCategory_loop, <- loop_groups_names.
    apply Permutation_map, Array_sort_perm. }
  split; [|split].
  - eapply Permutation_NoDup; [symmetry; exact Hperm|apply first_seen_NoDup].
  - intros c. rewrite Hperm, first_seen_In, in_map_iff.
    split; intros (e & H1 & H2); exists e; done.
  - split; [|by intros ->].
    intros Hnil. rewrite Hnil in Hperm. simpl in Hperm.
    apply Permutation_nil in Hperm. destruct filtered as [|e es]; [done|].
    simpl in Hperm. discriminate.
Qed.

(** X22. Every group is coloured from the palette, and the colours of
    the groups are all different exactly when there are at most ten groups:
    the eleventh category reuses the colour of the first. *)
Theorem group_colors_distinct_up_to_ten (filtered : list (EntryOf float)) :
  Forall (fun g => In (sg_color g) COLORS) (dataByCategory filtered)
  /\ (List.NoDup (map sg_color (dataByCategory filtered))
      <-> (length (dataByCategory filtered) <= 10)%nat).
Proof.
  assert (Hperm : dataByCategory filtered ≡ₚ loop_groups filtered)
    by (rewrite dataByCategory_loop; apply Array_sort_perm).
  split.
  - rewrite Hperm. apply Forall_forall. intros g Hg.
    apply list_elem_of_In in Hg. apply (in_map sg_color) in Hg.
    apply list_elem_of_In in Hg.
    apply list_elem_of_lookup in Hg as [i Hi].
    apply loop_groups_colors in Hi as [_ ->].
    apply COLORS_nth. apply Nat.mod_upper_bound. done.
  - rewrite (Permutation_length Hperm).
    assert (Hcol : map sg_color (dataByCategory filtered)
                   ≡ₚ map sg_color (loop_groups filtered))
      by (by apply Permutation_map).
    split.
    + intros Hnd. eapply Permutation_NoDup in Hnd; [|exact Hcol].
      destruct (Nat.le_gt_cases (length (loop_groups filtered)) 10) as [|Hgt];
        [done|exfalso].
      apply (proj2 (NoDup_ListNoDup _)) in Hnd.
      pose proof (proj1 (NoDup_alt _) Hnd) as Halt. clear Hnd. rename Halt into Hnd.
      assert (H0 : map sg_color (loop_groups filtered) !! 0%nat
                   = Some (nth 0 COLORS ""))
        by (apply loop_groups_colors; split; [lia|done]).
      assert (H10 : map sg_color (loop_groups filtered) !! 10%nat
                    = Some (nth 0 COLORS ""))
        by (apply loop_groups_colors; split; [lia|done]).
      specialize (Hnd _ _ _ H0 H10). discriminate.
    + intros Hle. eapply Permutation_NoDup; [symmetry; exact Hcol|].
      apply (proj1 (NoDup_ListNoDup _)), (proj2 (NoDup_alt _)). intros i j x Hi Hj.
      apply loop_groups_colors in Hi as [Hi ->].
      apply loop_groups_colors in Hj as [Hj Heq].
      rewrite !Nat.mod_small in Heq by lia.
      eapply (proj1 (List.NoDup_nth COLORS "")); [apply COLORS_NoDup| | |exact Heq];
        simpl; lia.
Qed.

(** X23. The statistics page of [src/StatsPage.tsx], which groups all the
    expenses, shows the groups of the monthly page on its expense tab
    whenever every expense entry lies in the month shown. *)
Theorem legacy_page_agrees_within_month (entries : list (EntryOf float))
    (currentMonth : JSDate) :
  (forall e, In e entries -> e_type e = expense ->
             same_local_month (parseISO (e_date e)) currentMonth) ->
  LegacyStatsPage.dataByCategory entries
  = dataByCategory (filteredEntries entries currentMonth tab_expense).
Proof.
  intros Hmonth. unfold LegacyStatsPage.dataByCategory, dataByCategory.
  assert (LegacyStatsPage.expenseEntries entries
          = filteredEntries entries currentMonth tab_expense) as ->; [|done].
  unfold LegacyStatsPage.expenseEntries, filteredEntries.
  apply List.filter_ext_in. intros e He. cbv zeta. cbn [tab_type].
  destruct (EntryType_eqb (e_type e) expense) eqn:Ht; [|by rewrite andb_false_r].
  apply EntryType_eqb_eq in Ht.
  by rewrite (proj2 (isSameMonth_true _ _) (Hmonth e He Ht)).
Qed.

End StatsExtras.

Section HomeExtras.
Context {T : Strings} {number : Type}.

Lemma includes_empty (s : string) : includes s "" = true.
Proof. by destruct s. Qed.

Lemma newest_first_dated (a b : EntryOf number) :
  dated a -> dated b ->
  (HomePage.newest_first a b <= 0 <-> newer_or_same a b)
  /\ (0 < HomePage.newest_first a b -> newer_or_same b a).
Proof.
  intros [ta Ha] [tb Hb]. unfold HomePage.newest_first, newer_or_same.
  rewrite Ha, Hb. lia.
Qed.

Lemma newer_or_same_trans (a b c : EntryOf number) :
  newer_or_same a b -> newer_or_same b c -> newer_or_same a c.
Proof.
  unfold newer_or_same.
  destruct (Date_getTime (e_date a)), (Date_getTime (e_date b)),
    (Date_getTime (e_date c)); try done. lia.
Qed.

Lemma sort_insert_newest (x : EntryOf number) (l : list (EntryOf number)) :
  dated x -> Forall dated l ->
  StronglySorted newer_or_same l ->
  StronglySorted newer_or_same (sort_insert HomePage.newest_first x l).
Proof.
  intros Hx Hdated Hsorted.
  induction Hsorted as [|y l Hl IH Hy]; simpl.
  - repeat constructor.
  - apply List.Forall_cons_iff in Hdated as [Hdy Hdl].
    destruct (newest_first_dated x y Hx Hdy) as [Hle Hgt].
    destruct (Z.leb_spec (HomePage.newest_first x y) 0) as [Hc|Hc].
    + apply Hle in Hc. constructor; [by constructor|].
      constructor; [done|].
      eapply Forall_impl; [exact Hy|].
      intros z Hz. by eapply newer_or_same_trans.
    + constructor; [by apply IH|].
      rewrite sort_insert_perm. constructor; [by apply Hgt|exact Hy].
Qed.

Lemma Array_sort_newest (l : list (EntryOf number)) :
  Forall dated l ->
  StronglySorted newer_or_same (Array_sort HomePage.newest_first l).
Proof.
  induction l as [|x l IH]; intros Hd; simpl; [constructor|].
  apply List.Forall_cons_iff in Hd as [Hx Hl].
  apply sort_insert_newest; [done| |by apply IH].
  change (foldr (sort_insert HomePage.newest_first) [] l)
    with (Array_sort HomePage.newest_first l).
  by rewrite Array_sort_perm.
Qed.

(** X24. The list of the home page holds exactly the entries that match
    the search and the chip, each as often as given; and when the dates of
    the entries all parse it runs from the newest to the oldest. *)
Theorem home_list_newest_first (entries : list (EntryOf number))
    (searchTerm : string) (filterType : HomeFilter) :
  HomePage.filteredEntries entries searchTerm filterType
    ≡ₚ List.filter (HomePage.matches searchTerm filterType) entries
  /\ (Forall dated entries ->
      StronglySorted newer_or_same
        (HomePage.filteredEntries entries searchTerm filterType)).
Proof.
  unfold HomePage.filteredEntries.
  split; [apply Array_sort_perm|].
  intros Hdated.
  apply Array_sort_newest. apply List.Forall_forall. intros e He.
  apply filter_In in He as [He _].
  by apply (proj1 (List.Forall_forall _ _) Hdated).
Qed.

(** X25. With an empty search box and the chip 'all' the home page lists
    every entry, each as often as given, whatever its type, category or
    date, provided the lower case of the empty string is empty. *)
Theorem home_default_lists_everything (entries : list (EntryOf number)) :
  toLowerCase "" = "" ->
  HomePage.filteredEntries entries "" filter_all ≡ₚ entries.
Proof.
  intros Hlower. unfold HomePage.filteredEntries.
  rewrite Array_sort_perm.
  assert (List.filter (HomePage.matches "" filter_all) entries = entries) as ->;
    [|done].
  induction entries as [|e es IH]; [done|].
  simpl. unfold HomePage.matches at 1. rewrite Hlower, !includes_empty.
  simpl. by rewrite IH.
Qed.

End HomeExtras.

(** ** 17. More runs on the reference platform *)

Section MoreReferenceRuns.
Import Reference Fixtures MoreFixtures.

#[local] Existing Instance json_platform.
#[local] Existing Instance ReferenceLaws.reference_laws.
#[local] Existing Instance ideal_storage.
#[local] Existing Instance plain_removal.
#[local] Existing Instance date_platform.
#[local] Existing Instance strings_platform.

(** X1 for an entry whose id is new. *)
Lemma getEntry_after_saveEntry_witness :
  fst (getEntry "e1" (after (saveEntry lunch) (world_with_entries [dinner; bus])))
  = Return (JSValue (entry_to_json lunch)).
Proof.
  apply (getEntry_after_saveEntry lunch [dinner; bus] (world_with_entries [dinner; bus])
           ideal_readable ideal_writable).
  vm_compute. reflexivity.
Defined.

(** X2 for the id of the second of three entries. *)
Lemma getEntry_first_or_undefined_witness :
  fst (getEntry "e2" (world_with_entries [lunch; dinner; bus]))
  = Return (JSValue (entry_to_json dinner)).
Proof.
  apply (proj1 (proj2 (getEntry_first_or_undefined (J:=json_platform) (LS:=ideal_storage) "e2" [lunch; dinner; bus]
                         (world_with_entries [lunch; dinner; bus])
                         ltac:(vm_compute; reflexivity)))
           [lunch] dinner [bus]).
  - reflexivity.
  - intros y [<-|[]]. discriminate.
  - reflexivity.
Defined.

(** X3 for the second of three entries. *)
Lemma updateEntry_in_place_witness :
  listEntries (after (updateEntry supper) (world_with_entries [lunch; dinner; bus]))
  = Return (entries_value [lunch; supper; bus])
  /\ length [lunch; supper; bus] = length [lunch; dinner; bus].
Proof.
  apply (proj2 (updateEntry_in_place (J:=json_platform) (LS:=ideal_storage) supper [lunch; dinner; bus]
                  (world_with_entries [lunch; dinner; bus])
                  ltac:(vm_compute; reflexivity))
           ideal_readable ideal_writable [lunch] dinner [bus]).
  - reflexivity.
  - intros y [<-|[]]. discriminate.
  - reflexivity.
Defined.

(** X4 where the write is accepted. *)
Lemma saveEntry_reports_witness :
  dispatched (trace (after (saveEntry lunch) (world_with_entries [dinner; bus])))
  = ["zenledger-update"]
  /\ alerted (trace (after (saveEntry lunch) (world_with_entries [dinner; bus]))) = [].
Proof.
  exact (proj2 (saveEntry_reports (J:=json_platform) (LS:=ideal_storage) lunch (world_with_entries [dinner; bus]))
           [dinner; bus] ltac:(vm_compute; reflexivity)).
Defined.

(** X5 for an entry whose id is new. *)
Lemma saveEntry_twice_witness :
  listEntries (after (saveEntry lunch)
                 (after (saveEntry lunch) (world_with_entries [dinner; bus])))
  = listEntries (after (saveEntry lunch) (world_with_entries [dinner; bus])).
Proof.
  apply (saveEntry_twice lunch [dinner; bus] (world_with_entries [dinner; bus])
           ideal_readable ideal_writable).
  vm_compute. reflexivity.
Defined.

(** X6 for an entry whose id is new. *)
Lemma saveEntry_then_deleteEntry_witness :
  listEntries (after (deleteEntry "e1")
                 (after (saveEntry lunch) (world_with_entries [dinner; bus])))
  = listEntries (world_with_entries [dinner; bus]).
Proof.
  apply (saveEntry_then_deleteEntry lunch [dinner; bus] (world_with_entries [dinner; bus])
           ideal_readable ideal_writable).
  - vm_compute. reflexivity.
  - discriminate.
  - intros x [<-|[<-|[]]]; discriminate.
Defined.

(** X7 over a storage that is over its quota of 10 characters. *)
Lemma deleteEntry_refused_write_escapes_witness :
  fst (deleteEntry (LS:=quota_storage 10) "e2" (world_with_entries [lunch; dinner; bus]))
  = Throws
  /\ storage (after (deleteEntry (LS:=quota_storage 10) "e2")
                (world_with_entries [lunch; dinner; bus]))
     = storage (world_with_entries [lunch; dinner; bus])
  /\ dispatched (trace (after (deleteEntry (LS:=quota_storage 10) "e2")
                          (world_with_entries [lunch; dinner; bus])))
     = dispatched (trace (world_with_entries [lunch; dinner; bus])).
Proof.
  apply (deleteEntry_refused_write_escapes (LS:=quota_storage 10) "e2"
           [lunch; dinner; bus] (world_with_entries [lunch; dinner; bus])).
  - vm_compute. reflexivity.
  - discriminate.
  - exists dinner. split; [right; left|]; reflexivity.
  - vm_compute. reflexivity.
Defined.

(** X8 for a ninth category after the defaults: on a storage that accepts
    the accesses, and within a quota of 517 characters, which the seeded
    defaults fill. *)
Lemma saveCategory_appends_witness :
  (fst (saveCategory pets empty_world) = Return tt
   /\ listCategories (after (saveCategory pets) empty_world)
      = Return (categories_value (DEFAULT_EXPENSE_CATEGORIES ++ [pets]))
   /\ dispatched (trace (after (saveCategory pets) empty_world))
      = (dispatched (trace empty_world) ++ ["zenledger-categories-update"])%list)
  /\ (fst (saveCategory (LS:=quota_storage 517) pets empty_world) = Throws
      /\ after (saveCategory (LS:=quota_storage 517) pets) empty_world
         = after (getCategories (LS:=quota_storage 517)) empty_world
      /\ trace (after (saveCategory (LS:=quota_storage 517) pets) empty_world)
         = trace empty_world
      /\ listCategories (LS:=quota_storage 517)
           (after (saveCategory (LS:=quota_storage 517) pets) empty_world)
         = Return (categories_value DEFAULT_EXPENSE_CATEGORIES)
      /\ storage (after (saveCategory (LS:=quota_storage 517) pets) empty_world)
           !! STORAGE_KEY
         = storage empty_world !! STORAGE_KEY).
Proof.
  split.
  - apply (proj1 (saveCategory_appends (J:=json_platform) (LS:=ideal_storage) pets
                    DEFAULT_EXPENSE_CATEGORIES empty_world
                    ltac:(vm_compute; reflexivity))
             ideal_readable ideal_writable).
  - apply (proj2 (saveCategory_appends (J:=json_platform) (LS:=quota_storage 517) pets
                    DEFAULT_EXPENSE_CATEGORIES empty_world
                    ltac:(vm_compute; reflexivity))).
    vm_compute. reflexivity.
Defined.

(** The seeded defaults are written within that quota. *)
Example seed_fits_quota :
  storage (after (getCategories (LS:=quota_storage 517)) empty_world)
    !! CATEGORY_STORAGE_KEY
  = Some (stringify 0 (categories_value DEFAULT_EXPENSE_CATEGORIES)).
Proof. vm_compute. reflexivity. Qed.

(** X9 for a ninth category after the defaults. *)
Lemma saveCategory_then_deleteCategory_witness :
  listCategories (after (deleteCategory "c9") (after (saveCategory pets) empty_world))
  = Return (categories_value DEFAULT_EXPENSE_CATEGORIES).
Proof.
  apply (saveCategory_then_deleteCategory pets DEFAULT_EXPENSE_CATEGORIES empty_world
           ideal_readable ideal_writable).
  - vm_compute. reflexivity.
  - simpl. intuition discriminate.
Defined.

(** X10 for a run that adds one category and deletes nine. *)
Lemma category_floor_with_adds_witness :
  exists cs,
    listCategories
      (run_category_ops
         [ AddCategory pets; RemoveCategory "1"; RemoveCategory "2"; RemoveCategory "3";
           RemoveCategory "4"; RemoveCategory "5"; RemoveCategory "6";
           RemoveCategory "7"; RemoveCategory "8"; RemoveCategory "c9" ]
         (after getCategories empty_world))
    = Return (JArr cs)
    /\ (1 <= length cs)%nat.
Proof.
  apply (category_floor_with_adds empty_world).
  - reflexivity.
  - simpl. constructor; [simpl; tauto|constructor].
  - intros id [<-|[]]. simpl. intuition discriminate.
Defined.


(** X12 over two stored entries and no categories cell. *)
Lemma exportData_document_witness :
  exists text props,
    fst (exportData (world_with_entries [lunch; dinner])) = Return text
    /\ parse text = Some (JObj props)
    /\ own_prop "entries" props = Some (entries_value [lunch; dinner])
    /\ own_prop "categories" props = Some default_categories_value
    /\ own_prop "exportedAt" props = Some (JStr noon)
    /\ own_prop "appName" props = Some (JStr "ZenLedger")
    /\ own_prop "version" props = Some (JNum 1).
Proof.
  destruct (exportData_document (J:=json_platform) (LS:=ideal_storage)
              (world_with_entries [lunch; dinner]))
    as (text & props & v & c & Htext & Hparse & Hv & Hentries & Hc & Hcats
        & Hat & Hname & Hversion & _).
  vm_compute in Hv. injection Hv as <-.
  vm_compute in Hc. injection Hc as <-.
  exists text, props. split; [exact Htext|]. split; [exact Hparse|].
  split; [exact Hentries|]. split; [exact Hcats|].
  split; [exact Hat|]. split; [exact Hname|exact Hversion].
Defined.


(** X15 for a note typed with an amount and a category. *)
Lemma handleSave_stores_note_witness :
  fst (handleSave note_form "n1" (world_with_entries [lunch])) = Return true
  /\ listEntries (after (handleSave note_form "n1") (world_with_entries [lunch]))
     = Return (entries_value
                 [mkEntry "n1" note 0 "笔记" [] "remember" "2024-05-03" []; lunch])
  /\ storage (after (handleSave note_form "n1") (world_with_entries [lunch])) !! DRAFT_KEY
     = None.
Proof.
  apply (handleSave_stores_note note_form "n1" [lunch] (world_with_entries [lunch])
           ideal_readable ideal_writable); vm_compute; reflexivity.
Defined.

(** X16 for an expense without an amount. *)
Lemma handleSave_ignored_witness :
  handleSave empty_amount_form "n1" empty_world = (Return false, empty_world).
Proof.
  apply (handleSave_ignored empty_amount_form "n1" empty_world).
  right. split; [discriminate|reflexivity].
Defined.

(** X17 for an income whose amount reads [abc]. *)
Lemma handleSave_not_a_number_witness :
  handleSave bad_amount_form "n1" empty_world
  = (Return false, with_effect empty_world (Alert "请输入有效金额")).
Proof.
  apply (handleSave_not_a_number bad_amount_form "n1" empty_world).
  - reflexivity.
  - discriminate.
  - discriminate.
  - vm_compute. reflexivity.
Defined.

(** X18 for an edit of the second of three entries. *)
Lemma handleSave_edit_keeps_ids_witness :
  fst (handleSave edit_form "n1" (world_with_entries [lunch; dinner; bus])) = Return true
  /\ (exists es',
        listEntries (after (handleSave edit_form "n1")
                       (world_with_entries [lunch; dinner; bus]))
        = Return (entries_value es')
        /\ map e_id es' = map e_id [lunch; dinner; bus])
  /\ storage (after (handleSave edit_form "n1")
                (world_with_entries [lunch; dinner; bus])) !! DRAFT_KEY
     = storage (world_with_entries [lunch; dinner; bus]) !! DRAFT_KEY.
Proof.
  apply (handleSave_edit_keeps_ids edit_form "n1" 25 [lunch; dinner; bus]
           (world_with_entries [lunch; dinner; bus]) ideal_readable).
  - reflexivity.
  - reflexivity.
  - split; [discriminate|vm_compute; reflexivity].
  - vm_compute. reflexivity.
Defined.

(** X19 over a storage that is over its quota of 10 characters. *)
Lemma handleSave_refused_write_loses_entry_witness :
  fst (handleSave (LS:=quota_storage 10) expense_form "n1" (world_with_entries [lunch]))
  = Return true
  /\ listEntries (LS:=quota_storage 10)
       (after (handleSave (LS:=quota_storage 10) expense_form "n1")
          (world_with_entries [lunch]))
     = Return (entries_value [lunch]).
Proof.
  destruct (handleSave_refused_write_loses_entry (J:=json_platform)
              (LS:=quota_storage 10) (R:=plain_removal)
              expense_form "n1" 42 [lunch] (world_with_entries [lunch])
              ltac:(reflexivity) ltac:(reflexivity) ltac:(reflexivity)
              ltac:(split; [discriminate|vm_compute; reflexivity])
              ltac:(vm_compute; reflexivity) ltac:(vm_compute; reflexivity))
    as (Hnav & Hentries & _).
  split; [exact Hnav|exact Hentries].
Defined.

(** X23 for four entries of May 2024. *)
Lemma legacy_page_agrees_within_month_witness :
  LegacyStatsPage.dataByCategory
    [costing 30 lunch; costing 20.5 dinner; costing 10 bus; costing 500 salary]
  = dataByCategory
      (filteredEntries
         [costing 30 lunch; costing 20.5 dinner; costing 10 bus; costing 500 salary]
         (LocalDate 2024 4 1) tab_expense).
Proof.
  apply (legacy_page_agrees_within_month
           [costing 30 lunch; costing 20.5 dinner; costing 10 bus; costing 500 salary]
           (LocalDate 2024 4 1)).
  intros e [<-|[<-|[<-|[<-|[]]]]] _; vm_compute; eexists _, _, _, _; split; reflexivity.
Defined.

(** X24 for three entries of May 2024. *)
Lemma home_list_newest_first_witness :
  HomePage.filteredEntries [lunch; bus; dinner] "" filter_all
    ≡ₚ List.filter (HomePage.matches "" filter_all) [lunch; bus; dinner]
  /\ StronglySorted newer_or_same
       (HomePage.filteredEntries [lunch; bus; dinner] "" filter_all).
Proof.
  destruct (home_list_newest_first [lunch; bus; dinner] "" filter_all)
    as [Hperm Hsorted].
  split; [exact Hperm|]. apply Hsorted.
  repeat constructor; eexists; vm_compute; reflexivity.
Defined.

(** The list of that example. *)
Example home_list_may_2024 :
  HomePage.filteredEntries [lunch; bus; dinner] "" filter_all = [bus; dinner; lunch]
  /\ HomePage.filteredEntries [lunch; bus; dinner; salary] "FOO" (filter_type expense)
     = [dinner; lunch].
Proof. split; reflexivity. Qed.

(** X25 for entries of two types. *)
Lemma home_default_lists_everything_witness :
  HomePage.filteredEntries [lunch; salary] "" filter_all ≡ₚ [lunch; salary].
Proof.
  apply (home_default_lists_everything [lunch; salary]). reflexivity.
Defined.

End MoreReferenceRuns.
